(** * EchoHub: the GitHub account-linking routes (server/routes/githubAuth.js)

    A shallow embedding of the Express router that links an account to a
    GitHub identity (OAuth2 authorization-code flow), reports and clears the
    link, and lists the linked account's repositories.

    JavaScript values are an inductive type; strings are sequences of UTF-16
    code units; the platform functions the routes call ([JSON.stringify],
    [JSON.parse], [Buffer.from], [Buffer.prototype.toString],
    [encodeURIComponent]) are modelled after their specifications; a route
    handler is a computation over the user store and a trace of the effects
    it performs (outbound HTTP calls, store writes, responses). *)

From Stdlib Require Import ZArith List String Ascii Bool Lia.
From stdpp Require Import base option list gmap.
Import ListNotations.
Local Open Scope Z_scope.

(** ** JavaScript values *)

Module JS.

(** A string is its sequence of UTF-16 code units, each in [0, 65536). *)
Abbreviation JSString := (list Z).

Definition code_unit (c : Z) : Prop := 0 <= c < 65536.
Definition byte (b : Z) : Prop := 0 <= b < 256.

(** A Unicode scalar value: a code point that is not a surrogate. *)
Definition scalar (cp : Z) : Prop := 0 <= cp < 0xD800 \/ 0xE000 <= cp < 0x110000.
Definition valid_string (s : JSString) : Prop := Forall code_unit s.

(** String literals of the source, as code units. *)
Definition js (s : string) : JSString :=
  map (fun a => Z.of_N (N_of_ascii a)) (list_ascii_of_string s).
Arguments js s%_string : simpl never.

(** A number that came out of a JSON text: [(-1)^neg * coeff * 10^exp10],
    kept exact.  The IEEE double it denotes is its correctly rounded value;
    the only fact about that double the routes consult is whether it is
    zero. *)
Record Decimal := { dec_neg : bool; dec_coeff : Z; dec_exp10 : Z }.

#[warnings="-register-all"]
Inductive JSValue :=
| JUndefined
| JNull
| JBool (b : bool)
| JNum (d : Decimal)
| JStr (s : JSString)
| JArr (items : list JSValue)
| JObj (props : list (JSString * JSValue))
| JDate (ms : Z).

Inductive Exn :=
| TypeError
| SyntaxError
| URIError
| JsonWebTokenError
| CastError
| DocumentNotFoundError
| StoreError
| AxiosError (status : option Z).

(** How the evaluation of a statement ends: with a value, by the handler's
    [return], or by a thrown exception. *)
Inductive Completion (A : Type) :=
| Normal (a : A)
| Returned
| Thrown (e : Exn).
Arguments Normal {A} a.
Arguments Returned {A}.
Arguments Thrown {A} e.

#[global] Instance completion_ret : MRet Completion := @Normal.
#[global] Instance completion_bind : MBind Completion := fun A B k c =>
  match c with
  | Normal a => k a
  | Returned => Returned
  | Thrown e => Thrown e
  end.
#[global] Instance completion_fmap : FMap Completion := fun A B f c =>
  match c with
  | Normal a => Normal (f a)
  | Returned => Returned
  | Thrown e => Thrown e
  end.

(** The double nearest to [coeff * 10^exp10] is zero exactly when the value
    is at most [2^-1075], half the least subnormal (a tie goes to the even
    neighbour, zero). *)
Definition rounds_to_zero (d : Decimal) : bool :=
  (dec_coeff d =? 0)
  || ((dec_exp10 d <? 0) && (dec_coeff d * 2 ^ 1075 <=? 10 ^ (- dec_exp10 d))).

Definition is_undefined (v : JSValue) : bool :=
  match v with
  | JUndefined => true
  | _ => false
  end.

(** [undefined] and [null]: the values no property can be read from. *)
Definition nullish (v : JSValue) : bool :=
  match v with
  | JUndefined | JNull => true
  | _ => false
  end.

(** ToBoolean. *)
Definition truthy (v : JSValue) : bool :=
  match v with
  | JUndefined | JNull => false
  | JBool b => b
  | JNum d => negb (rounds_to_zero d)
  | JStr s => match s with [] => false | _ => true end
  | JArr _ | JObj _ | JDate _ => true
  end.

Fixpoint string_eqb (a b : JSString) : bool :=
  match a, b with
  | [], [] => true
  | x :: a', y :: b' => (x =? y) && string_eqb a' b'
  | _, _ => false
  end.

(** An object's own property; of two entries with one key the later wins,
    as in an object built by [JSON.parse]. *)
Fixpoint own_property (k : JSString) (props : list (JSString * JSValue))
  : option JSValue :=
  match props with
  | [] => None
  | (k', v) :: rest =>
      match own_property k rest with
      | Some v' => Some v'
      | None => if string_eqb k k' then Some v else None
      end
  end.

(** [v.k] for the data names the routes read ([userId], [access_token],
    [login], [full_name], ...): none of them is defined on a built-in
    prototype, so the value is the own property of an object and
    [undefined] on every other value that can be read from; reading from
    [undefined] or [null] throws. *)
Definition get (v : JSValue) (k : JSString) : Completion JSValue :=
  match v with
  | JUndefined | JNull => Thrown TypeError
  | JObj props => Normal (default JUndefined (own_property k props))
  | _ => Normal JUndefined
  end.

(** [a || b] on values. *)
Definition or_else (a b : JSValue) : JSValue := if truthy a then a else b.

Definition has_own (k : JSString) (props : list (JSString * JSValue)) : bool :=
  existsb (fun kv => string_eqb k (fst kv)) props.

(** Whether the string conversion of a template literal, [`${v}`], throws.
    An object carrying an own [toString] that is data (not callable) has no
    primitive value: [Object.prototype.valueOf] returns the object itself.
    An array joins the conversions of its elements, skipping [undefined]
    and [null]. *)
Fixpoint ToString_throws (v : JSValue) : bool :=
  match v with
  | JObj props => has_own (js "toString") props
  | JArr items => existsb ToString_throws items
  | _ => false
  end.

End JS.
Export JS.

(** ** Text encodings *)

Module Utf16.

Definition is_high (c : Z) : bool := (0xD800 <=? c) && (c <=? 0xDBFF).
Definition is_low (c : Z) : bool := (0xDC00 <=? c) && (c <=? 0xDFFF).

Definition pair_code_point (hi lo : Z) : Z :=
  0x10000 + (hi - 0xD800) * 1024 + (lo - 0xDC00).

Definition of_code_point (cp : Z) : JSString :=
  if cp <? 0x10000 then [cp]
  else [0xD800 + (cp - 0x10000) / 1024; 0xDC00 + (cp - 0x10000) mod 1024].

(** No surrogate stands alone. *)
Fixpoint well_formed (s : JSString) : bool :=
  match s with
  | [] => true
  | c :: t =>
      if is_high c then
        match t with
        | d :: t' => is_low d && well_formed t'
        | [] => false
        end
      else negb (is_low c) && well_formed t
  end.

End Utf16.

Module Utf8.

Definition bytes_of_code_point (cp : Z) : list Z :=
  if cp <? 0x80 then [cp]
  else if cp <? 0x800 then [0xC0 + cp / 64; 0x80 + cp mod 64]
  else if cp <? 0x10000 then
    [0xE0 + cp / 4096; 0x80 + (cp / 64) mod 64; 0x80 + cp mod 64]
  else
    [0xF0 + cp / 262144; 0x80 + (cp / 4096) mod 64;
     0x80 + (cp / 64) mod 64; 0x80 + cp mod 64].

Definition replacement : list Z := [0xEF; 0xBF; 0xBD].

(** [Buffer.from(s)]: the UTF-8 bytes of a string; a lone surrogate is
    written as U+FFFD. *)
Fixpoint encode (s : JSString) : list Z :=
  match s with
  | [] => []
  | c :: t =>
      if Utf16.is_high c then
        match t with
        | d :: t' =>
            if Utf16.is_low d
            then bytes_of_code_point (Utf16.pair_code_point c d) ++ encode t'
            else replacement ++ encode t
        | [] => replacement
        end
      else if Utf16.is_low c then replacement ++ encode t
      else bytes_of_code_point c ++ encode t
  end.

(** A sequence under way: the bits read so far, the continuation bytes
    still due, and the range the next byte must lie in. *)
Record Pending := { acc : Z; due : nat; lower : Z; upper : Z }.

Definition between (lo hi b : Z) : bool := (lo <=? b) && (b <=? hi).

(** The first byte of a sequence: a code point on its own, the start of a
    longer sequence, or an error. *)
Definition lead (b : Z) : list Z + Pending :=
  if between 0x00 0x7F b then inl [b]
  else if between 0xC2 0xDF b then
    inr {| acc := b - 0xC0; due := 1; lower := 0x80; upper := 0xBF |}
  else if between 0xE0 0xEF b then
    inr {| acc := b - 0xE0; due := 2;
           lower := if b =? 0xE0 then 0xA0 else 0x80;
           upper := if b =? 0xED then 0x9F else 0xBF |}
  else if between 0xF0 0xF4 b then
    inr {| acc := b - 0xF0; due := 3;
           lower := if b =? 0xF0 then 0x90 else 0x80;
           upper := if b =? 0xF4 then 0x8F else 0xBF |}
  else inl [0xFFFD].

(** The decoder of [buf.toString()]: every maximal ill-formed prefix of a
    sequence becomes one U+FFFD and the offending byte is read again as a
    first byte. *)
Fixpoint scan (p : option Pending) (bs : list Z) : list Z :=
  match bs with
  | [] => match p with None => [] | Some _ => [0xFFFD] end
  | b :: t =>
      match p with
      | None =>
          match lead b with
          | inl cps => cps ++ scan None t
          | inr q => scan (Some q) t
          end
      | Some q =>
          if between (lower q) (upper q) b then
            let cp := acc q * 64 + b mod 64 in
            match due q with
            | S (S n) =>
                scan (Some {| acc := cp; due := S n;
                              lower := 0x80; upper := 0xBF |}) t
            | _ => cp :: scan None t
            end
          else
            0xFFFD ::
            match lead b with
            | inl cps => cps ++ scan None t
            | inr q' => scan (Some q') t
            end
      end
  end.

Definition decode (bs : list Z) : JSString :=
  concat (map Utf16.of_code_point (scan None bs)).

End Utf8.

Module Base64.

(** The character of a six-bit value. *)
Definition char_of (n : Z) : Z :=
  if n <? 26 then 65 + n
  else if n <? 52 then 71 + n
  else if n <? 62 then n - 4
  else if n =? 62 then 43
  else 47.

(** [buf.toString('base64')], padded with [=]. *)
Fixpoint encode (bs : list Z) : JSString :=
  match bs with
  | [] => []
  | [a] => [char_of (a / 4); char_of ((a mod 4) * 16); 61; 61]
  | [a; b] =>
      [char_of (a / 4); char_of ((a mod 4) * 16 + b / 16);
       char_of ((b mod 16) * 4); 61]
  | a :: b :: c :: t =>
      [char_of (a / 4); char_of ((a mod 4) * 16 + b / 16);
       char_of ((b mod 16) * 4 + c / 64); char_of (c mod 64)] ++ encode t
  end.

(** The six-bit value of a character, of the standard or of the URL-safe
    alphabet. *)
Definition value_of (c : Z) : option Z :=
  if Utf8.between 65 90 c then Some (c - 65)
  else if Utf8.between 97 122 c then Some (c - 71)
  else if Utf8.between 48 57 c then Some (c + 4)
  else if (c =? 43) || (c =? 45) then Some 62
  else if (c =? 47) || (c =? 95) then Some 63
  else None.

(** The decoder reads each code unit of the string by its low byte, is
    lenient and never throws: a byte outside the alphabets (white space
    among them) is skipped and the first [=] ends the input. *)
Fixpoint sextets (s : JSString) : list Z :=
  match s with
  | [] => []
  | c :: t =>
      let b := c mod 256 in
      if b =? 61 then []
      else match value_of b with
           | Some v => v :: sextets t
           | None => sextets t
           end
  end.

(** Four six-bit values make three bytes; a final group of two or three
    makes one or two bytes and a final single value is dropped. *)
Fixpoint bytes (vs : list Z) : list Z :=
  match vs with
  | a :: b :: c :: d :: t =>
      [a * 4 + b / 16; (b mod 16) * 16 + c / 4; (c mod 4) * 64 + d] ++ bytes t
  | [a; b; c] => [a * 4 + b / 16; (b mod 16) * 16 + c / 4]
  | [a; b] => [a * 4 + b / 16]
  | _ => []
  end.

(** [Buffer.from(s, 'base64')]. *)
Definition decode (s : JSString) : list Z := bytes (sextets s).

End Base64.


(** ** JSON *)

Module JSON.

Definition hex_digit (n : Z) : Z := if n <? 10 then 48 + n else 87 + n.

(** UnicodeEscape: [\uXXXX] with lower-case digits. *)
Definition unicode_escape (c : Z) : JSString :=
  [92; 117; hex_digit (c / 4096); hex_digit ((c / 256) mod 16);
   hex_digit ((c / 16) mod 16); hex_digit (c mod 16)].

(** One code unit that is not a surrogate, inside a quoted string. *)
Definition quote_unit (c : Z) : JSString :=
  if c =? 8 then [92; 98]
  else if c =? 9 then [92; 116]
  else if c =? 10 then [92; 110]
  else if c =? 12 then [92; 102]
  else if c =? 13 then [92; 114]
  else if c =? 34 then [92; 34]
  else if c =? 92 then [92; 92]
  else if c <? 32 then unicode_escape c
  else [c].

(** QuoteJSONString walks the code points of the string: a surrogate pair
    is copied, a lone surrogate is escaped. *)
Fixpoint quote_body (s : JSString) : JSString :=
  match s with
  | [] => []
  | c :: t =>
      if Utf16.is_high c then
        match t with
        | d :: t' =>
            if Utf16.is_low d then c :: d :: quote_body t'
            else unicode_escape c ++ quote_body t
        | [] => unicode_escape c
        end
      else if Utf16.is_low c then unicode_escape c ++ quote_body t
      else quote_unit c ++ quote_body t
  end.

Definition QuoteJSONString (s : JSString) : JSString :=
  [34] ++ quote_body s ++ [34].

(** [JSON.stringify] of an object whose properties hold strings, in
    property order: [{"k":"v",...}]. *)
Fixpoint stringify_members (props : list (JSString * JSString)) : JSString :=
  match props with
  | [] => []
  | [(k, v)] => QuoteJSONString k ++ [58] ++ QuoteJSONString v
  | (k, v) :: rest =>
      QuoteJSONString k ++ [58] ++ QuoteJSONString v ++ [44]
      ++ stringify_members rest
  end.

Definition stringify (props : list (JSString * JSString)) : JSString :=
  [123] ++ stringify_members props ++ [125].

(** *** Parsing *)

Definition is_ws (c : Z) : bool :=
  (c =? 32) || (c =? 9) || (c =? 10) || (c =? 13).

Fixpoint skip_ws (s : JSString) : JSString :=
  match s with
  | c :: t => if is_ws c then skip_ws t else s
  | [] => []
  end.

Definition hex_value (c : Z) : option Z :=
  if Utf8.between 48 57 c then Some (c - 48)
  else if Utf8.between 97 102 c then Some (c - 87)
  else if Utf8.between 65 70 c then Some (c - 55)
  else None.

Definition simple_escape (c : Z) : option Z :=
  if c =? 34 then Some 34
  else if c =? 92 then Some 92
  else if c =? 47 then Some 47
  else if c =? 98 then Some 8
  else if c =? 102 then Some 12
  else if c =? 110 then Some 10
  else if c =? 114 then Some 13
  else if c =? 116 then Some 9
  else None.

(** The characters after an opening quote, up to the closing one. *)
Fixpoint string_body (s : JSString) : option (JSString * JSString) :=
  match s with
  | [] => None
  | c :: t =>
      if c =? 34 then Some ([], t)
      else if c =? 92 then
        match t with
        | [] => None
        | e :: t' =>
            if e =? 117 then
              match t' with
              | h1 :: h2 :: h3 :: h4 :: t'' =>
                  match hex_value h1, hex_value h2, hex_value h3, hex_value h4 with
                  | Some a, Some b, Some c', Some d =>
                      '(r, rest) ← string_body t'';
                      Some ((a * 4096 + b * 256 + c' * 16 + d) :: r, rest)
                  | _, _, _, _ => None
                  end
              | _ => None
              end
            else
              x ← simple_escape e;
              '(r, rest) ← string_body t';
              Some (x :: r, rest)
        end
      else if c <? 32 then None
      else '(r, rest) ← string_body t; Some (c :: r, rest)
  end.

Definition is_digit (c : Z) : bool := Utf8.between 48 57 c.

(** A run of digits, appended to [n]; [k] counts them. *)
Fixpoint digits (s : JSString) (n : Z) (k : Z) : Z * Z * JSString :=
  match s with
  | c :: t => if is_digit c then digits t (n * 10 + (c - 48)) (k + 1) else (n, k, s)
  | [] => (n, k, [])
  end.

(** The integer part of a number: a zero, or digits that do not start with
    a zero. *)
Definition integer_part (s : JSString) : option (Z * JSString) :=
  match s with
  | c :: t =>
      if c =? 48 then Some (0, t)
      else if is_digit c then let '(n, _, r) := digits t (c - 48) 1 in Some (n, r)
      else None
  | [] => None
  end.

(** An optional fraction: a point and at least one digit.  The digits are
    appended to the coefficient and counted. *)
Definition fraction_part (int : Z) (s : JSString) : option (Z * Z * JSString) :=
  match s with
  | c :: t =>
      if c =? 46 then
        let '(n, k, r) := digits t int 0 in
        if k =? 0 then None else Some (n, k, r)
      else Some (int, 0, s)
  | [] => Some (int, 0, s)
  end.

(** An optional exponent: [e] or [E], an optional sign and at least one
    digit. *)
Definition exponent_part (s : JSString) : option (Z * JSString) :=
  match s with
  | c :: t =>
      if (c =? 101) || (c =? 69) then
        let '(minus, t1) :=
          match t with
          | g :: t' =>
              if g =? 45 then (true, t') else if g =? 43 then (false, t') else (false, t)
          | [] => (false, t)
          end in
        let '(n, k, r) := digits t1 0 0 in
        if k =? 0 then None else Some (if minus then - n else n, r)
      else Some (0, s)
  | [] => Some (0, s)
  end.

(** An optional minus sign, an integer part, an optional fraction and an
    optional exponent. *)
Definition number (s : JSString) : option (Decimal * JSString) :=
  let '(neg, s1) :=
    match s with
    | c :: t => if c =? 45 then (true, t) else (false, s)
    | [] => (false, s)
    end in
  '(int, s2) ← integer_part s1;
  '(coeff, places, s3) ← fraction_part int s2;
  '(e, s4) ← exponent_part s3;
  Some ({| dec_neg := neg; dec_coeff := coeff; dec_exp10 := e - places |}, s4).

Definition literal (w : JSString) (v : JSValue) (s : JSString)
  : option (JSValue * JSString) :=
  if string_eqb (take (length w) s) w then Some (v, drop (length w) s) else None.

(** A JSON value at the head of [s] with what follows it.  The recursion
    is on [fuel]; every call reads at least one character before the next
    one at the same level, so twice the length of the text is enough. *)
Fixpoint value (fuel : nat) (s : JSString) : option (JSValue * JSString) :=
  match fuel with
  | O => None
  | S fuel =>
      match skip_ws s with
      | [] => None
      | c :: t =>
          if c =? 123 then
            match skip_ws t with
            | d :: t' =>
                if d =? 125 then Some (JObj [], t')
                else '(ms, rest) ← members fuel (d :: t'); Some (JObj ms, rest)
            | [] => None
            end
          else if c =? 91 then
            match skip_ws t with
            | d :: t' =>
                if d =? 93 then Some (JArr [], t')
                else '(vs, rest) ← elements fuel (d :: t'); Some (JArr vs, rest)
            | [] => None
            end
          else if c =? 34 then
            '(str, rest) ← string_body t; Some (JStr str, rest)
          else if c =? 116 then literal (js "true") (JBool true) (c :: t)
          else if c =? 102 then literal (js "false") (JBool false) (c :: t)
          else if c =? 110 then literal (js "null") JNull (c :: t)
          else '(d, rest) ← number (c :: t); Some (JNum d, rest)
      end
  end
with elements (fuel : nat) (s : JSString) : option (list JSValue * JSString) :=
  match fuel with
  | O => None
  | S fuel =>
      '(v, rest) ← value fuel s;
      match skip_ws rest with
      | c :: t =>
          if c =? 44 then '(vs, rest') ← elements fuel t; Some (v :: vs, rest')
          else if c =? 93 then Some ([v], t)
          else None
      | [] => None
      end
  end
with members (fuel : nat) (s : JSString)
  : option (list (JSString * JSValue) * JSString) :=
  match fuel with
  | O => None
  | S fuel =>
      match skip_ws s with
      | q :: t =>
          if q =? 34 then
            '(k, rest) ← string_body t;
            match skip_ws rest with
            | colon :: t1 =>
                if colon =? 58 then
                  '(v, rest1) ← value fuel t1;
                  match skip_ws rest1 with
                  | c :: t2 =>
                      if c =? 44 then
                        '(ms, rest2) ← members fuel t2; Some ((k, v) :: ms, rest2)
                      else if c =? 125 then Some ([(k, v)], t2)
                      else None
                  | [] => None
                  end
                else None
            | [] => None
            end
          else None
      | [] => None
      end
  end.

(** [JSON.parse]: one value and nothing but white space after it; [None]
    is the SyntaxError. *)
Definition parse (s : JSString) : option JSValue :=
  '(v, rest) ← value (2 * length s + 2) s;
  match skip_ws rest with
  | [] => Some v
  | _ => None
  end.

(** What [value], [elements] and [members] read is not empty, and twice
    its length is enough fuel to read it again. *)
Definition frugal {A} (parser : nat -> JSString -> option (A * JSString)) (extra : nat)
    (fuel : nat) : Prop :=
  forall s a rest,
    parser fuel s = Some (a, rest) ->
    (length rest < length s)%nat
    /\ forall fuel', (2 * (length s - length rest) + extra <= fuel')%nat ->
                     parser fuel' s = Some (a, rest).

(** The text of a state up to its id: an opening brace, the quoted key
    [userId], a colon and the opening quote of the id. *)
Definition state_prefix : JSString := [123; 34; 117; 115; 101; 114; 73; 100; 34; 58; 34].

End JSON.

(** ** URI components *)

Module URI.

Definition unreserved (c : Z) : bool :=
  Utf8.between 65 90 c || Utf8.between 97 122 c || Utf8.between 48 57 c
  || existsb (Z.eqb c) (js "-_.!~*'()").

Definition upper_hex (n : Z) : Z := if n <? 10 then 48 + n else 55 + n.

Definition percent (b : Z) : JSString := [37; upper_hex (b / 16); upper_hex (b mod 16)].

Definition escape (cp : Z) : JSString :=
  concat (map percent (Utf8.bytes_of_code_point cp)).

(** [encodeURIComponent]: a lone surrogate is a URIError. *)
Fixpoint encodeURIComponent (s : JSString) : Completion JSString :=
  match s with
  | [] => Normal []
  | c :: t =>
      if Utf16.is_high c then
        match t with
        | d :: t' =>
            if Utf16.is_low d
            then (escape (Utf16.pair_code_point c d) ++.) <$> encodeURIComponent t'
            else Thrown URIError
        | [] => Thrown URIError
        end
      else if Utf16.is_low c then Thrown URIError
      else if unreserved c then (c ::.) <$> encodeURIComponent t
      else (escape c ++.) <$> encodeURIComponent t
  end.

End URI.

(** ** The user store *)

Module Store.

(** Modelled from the spec: the User model (server/models/User) is not among
    the sources.  Of a user document the routes read and write five paths;
    [githubAccessToken] is sensitive and left out of a query's result unless
    the query asks for it; every other path of the account is carried along
    as [account].  A path that is absent holds [undefined].  Values are
    stored as they are assigned.  The store is a finite map from the id of
    a user to the user's record: a lookup finds the record or finds
    nothing; a save writes the record, or the store rejects it (the
    connection is lost, the record does not validate) and then nothing of
    it is written: a record is written in one piece. *)
Record User := {
  githubAccessToken : JSValue;
  githubUsername : JSValue;
  githubId : JSValue;
  githubProfileUrl : JSValue;
  githubConnectedAt : JSValue;
  account : list (JSString * JSValue)
}.

Inductive Path := AccessToken | Username | Id | ProfileUrl | ConnectedAt.

Definition paths : list Path := [AccessToken; Username; Id; ProfileUrl; ConnectedAt].

Definition path_eqb (p q : Path) : bool :=
  match p, q with
  | AccessToken, AccessToken | Username, Username | Id, Id
  | ProfileUrl, ProfileUrl | ConnectedAt, ConnectedAt => true
  | _, _ => false
  end.

Definition read (p : Path) (u : User) : JSValue :=
  match p with
  | AccessToken => githubAccessToken u
  | Username => githubUsername u
  | Id => githubId u
  | ProfileUrl => githubProfileUrl u
  | ConnectedAt => githubConnectedAt u
  end.

Definition write (p : Path) (v : JSValue) (u : User) : User :=
  match p with
  | AccessToken =>
      {| githubAccessToken := v; githubUsername := githubUsername u;
         githubId := githubId u; githubProfileUrl := githubProfileUrl u;
         githubConnectedAt := githubConnectedAt u; account := account u |}
  | Username =>
      {| githubAccessToken := githubAccessToken u; githubUsername := v;
         githubId := githubId u; githubProfileUrl := githubProfileUrl u;
         githubConnectedAt := githubConnectedAt u; account := account u |}
  | Id =>
      {| githubAccessToken := githubAccessToken u; githubUsername := githubUsername u;
         githubId := v; githubProfileUrl := githubProfileUrl u;
         githubConnectedAt := githubConnectedAt u; account := account u |}
  | ProfileUrl =>
      {| githubAccessToken := githubAccessToken u; githubUsername := githubUsername u;
         githubId := githubId u; githubProfileUrl := v;
         githubConnectedAt := githubConnectedAt u; account := account u |}
  | ConnectedAt =>
      {| githubAccessToken := githubAccessToken u; githubUsername := githubUsername u;
         githubId := githubId u; githubProfileUrl := githubProfileUrl u;
         githubConnectedAt := v; account := account u |}
  end.

(** What a query selects: the default, [select('a b')] (only the paths
    named), or [select('+a')] (the default and the paths named). *)
Inductive Projection :=
| Default
| Only (ps : list Path)
| Plus (ps : list Path).

Definition mem (p : Path) (ps : list Path) : bool := existsb (path_eqb p) ps.

Definition selected (pr : Projection) (p : Path) : bool :=
  match pr with
  | Default => negb (path_eqb p AccessToken)
  | Only ps => mem p ps
  | Plus ps => negb (path_eqb p AccessToken) || mem p ps
  end.

Definition project (pr : Projection) (u : User) : User :=
  let pick p := if selected pr p then read p u else JUndefined in
  {| githubAccessToken := pick AccessToken; githubUsername := pick Username;
     githubId := pick Id; githubProfileUrl := pick ProfileUrl;
     githubConnectedAt := pick ConnectedAt;
     account := match pr with Only _ => [] | _ => account u end |}.

(** A document in the hands of a handler: the key of its record, the values
    the query loaded, and the paths assigned since. *)
Record Document := { _id : JSString; fields : User; modified : list Path }.

Definition hydrate (pr : Projection) (key : JSString) (u : User) : Document :=
  {| _id := key; fields := project pr u; modified := [] |}.

(** [doc.p = v] *)
Definition assign (p : Path) (v : JSValue) (doc : Document) : Document :=
  {| _id := _id doc; fields := write p v (fields doc);
     modified := modified doc ++ [p] |}.

(** What [save] leaves in the record: the assigned paths, and only those,
    take the document's values. *)
Definition write_back (doc : Document) (stored : User) : User :=
  foldl (fun u p => write p (read p (fields doc)) u) stored (modified doc).

End Store.
Export Store.

(** ** Handlers *)

Module Express.

(** An outbound call of [axios]. *)
Inductive Call :=
| TokenExchange (code : JSValue)
| ProfileFetch (access_token : JSValue)
| RepositoryList (access_token : JSValue).

(** The promise of a call resolves with the response's [data], or is
    rejected: with the status of the response when there is one. *)
Inductive Reply :=
| Resolves (data : JSValue)
| Rejects (status : option Z).

Inductive Response :=
| Redirect (url : JSString)
| Json (status : Z) (body : JSValue).

(** What a handler does to the world outside: a call of GitHub, a write the
    store has performed, a response. *)
Inductive Event :=
| Outbound (c : Call)
| Saved (id : JSString)
| Responded (r : Response).

(** How the store resolves an id that is not a string (a number, an array,
    an object out of a decoded state): to the key of a record, to nothing,
    or with an exception.  An id that is a string is the key itself. *)
Inductive Cast :=
| CastTo (key : JSString)
| NoMatch
| Uncastable.

(** Everything a request meets outside the process: the client id of the
    environment, the verification of a session token ([jwt.verify], which
    returns the payload or throws), the answers of GitHub, the store's cast
    of an id, whether the store accepts the write of a record under a key
    or rejects it, and the time. *)
Record Env := {
  GITHUB_CLIENT_ID : option JSString;
  jwt_verify : JSString -> Completion JSValue;
  github : Call -> Reply;
  cast_id : JSValue -> Cast;
  store_accepts : JSString -> User -> bool;
  clock : Z
}.

(** The store, and the effects performed so far, oldest first. *)

Record World := { users : gmap JSString User; trace : list Event }.

Definition Handler (A : Type) : Type := World -> Completion A * World.

Definition pure {A} (a : A) : Handler A := fun w => (Normal a, w).

Definition bind {A B} (m : Handler A) (k : A -> Handler B) : Handler B :=
  fun w =>
    match m w with
    | (Normal a, w') => k a w'
    | (Returned, w') => (Returned, w')
    | (Thrown e, w') => (Thrown e, w')
    end.

#[global] Instance handler_ret : MRet Handler := @pure.
#[global] Instance handler_bind : MBind Handler := fun A B k m => bind m k.

Definition lift {A} (c : Completion A) : Handler A := fun w => (c, w).

(** [return;] *)
Definition return_ {A} : Handler A := lift Returned.

(** [try { body } catch (e) { handler }]: what the body did before it threw
    stays done. *)
Definition try_catch {A} (body : Handler A) (handler : Exn -> Handler A)
  : Handler A :=
  fun w =>
    match body w with
    | (Thrown e, w') => handler e w'
    | r => r
    end.

Definition emit (e : Event) : Handler unit :=
  fun w => (Normal tt, {| users := users w; trace := trace w ++ [e] |}).

End Express.
Export Express.


Module Routes.

Section WithEnv.

Variable env : Env.

(** [await axios.post(...)], [await axios.get(...)] *)
Definition axios (c : Call) : Handler JSValue :=
  emit (Outbound c) ;;
  lift match github env c return Completion JSValue with
       | Resolves data => Normal data
       | Rejects status => Thrown (AxiosError status)
       end.

(** [await User.findById(id).select(...)]: the document, or [null]. *)
Definition findById (id : JSValue) (pr : Projection) : Handler (option Document) :=
  fun w =>
    match match id with JStr key => CastTo key | _ => cast_id env id end with
    | CastTo key => (Normal (hydrate pr key <$> users w !! key), w)
    | NoMatch => (Normal None, w)
    | Uncastable => (Thrown CastError, w)
    end.

(** [await doc.save()]: the promise resolves once the record is written,
    or is rejected, and then the store is as it was. *)
Definition save (doc : Document) : Handler unit :=
  fun w =>
    match users w !! _id doc with
    | Some stored =>
        let record := write_back doc stored in
        if store_accepts env (_id doc) record then
          (Normal tt,
           {| users := <[_id doc := record]> (users w);
              trace := trace w ++ [Saved (_id doc)] |})
        else (Thrown StoreError, w)
    | None => (Thrown DocumentNotFoundError, w)
    end.

(** [user.p], where [user] may be [null]. *)
Definition field (user : option Document) (p : Path) : Completion JSValue :=
  match user with
  | Some doc => Normal (read p (fields doc))
  | None => Thrown TypeError
  end.

(** [user.p = v], where [user] may be [null]. *)
Definition set_field (user : option Document) (p : Path) (v : JSValue)
  : Completion (option Document) :=
  match user with
  | Some doc => Normal (Some (assign p v doc))
  | None => Thrown TypeError
  end.

(** [`Bearer ${v}`] *)
Definition template (v : JSValue) : Completion unit :=
  if ToString_throws v then Thrown TypeError else Normal tt.

Definition redirect (url : JSString) : Handler unit := emit (Responded (Redirect url)).
Definition json (status : Z) (body : JSValue) : Handler unit :=
  emit (Responded (Json status body)).

Definition message (text : JSString) : JSValue := JObj [(js "message", JStr text)].

(** *** Configuration *)

Definition GITHUB_CALLBACK_URL : JSString := js "http://localhost:5000/api/github/callback".
Definition FRONTEND_SUCCESS_URL : JSString := js "http://localhost:5173/dashboard?github=connected".
Definition FRONTEND_ERROR_URL : JSString := js "http://localhost:5173/dashboard?github=error".

Arguments GITHUB_CALLBACK_URL : simpl never.
Arguments FRONTEND_SUCCESS_URL : simpl never.
Arguments FRONTEND_ERROR_URL : simpl never.

(** A parameter of the query string: absent, or a string.  (A parameter
    that is repeated or written with brackets reaches a handler as an array
    or an object; the model covers the parameters the specification
    names: absent or a string.) *)
Definition param (p : option JSString) : JSValue :=
  match p with
  | Some s => JStr s
  | None => JUndefined
  end.

(** *** GET /api/github/auth *)

(** The middleware of the route: the caller is named by the [token]
    parameter of the query. *)
Definition authFromQuery (token : option JSString) (next : Document -> Handler unit)
  : Handler unit :=
  try_catch
    (if negb (truthy (param token)) then
       json 401 (message (js "No token, authorization denied")) ;; return_
     else
       decoded ← lift (jwt_verify env (default [] token));
       id ← lift (get decoded (js "id"));
       user ← findById id Default;
       match user with
       | None => json 401 (message (js "Token is not valid")) ;; return_
       | Some user => next user
       end)
    (fun _ => json 401 (message (js "Token is not valid"))).

(** The state that travels through GitHub and back:
    [Buffer.from(JSON.stringify({ userId })).toString('base64')]. *)
Definition encodeState (userId : JSString) : JSString :=
  Base64.encode (Utf8.encode (JSON.stringify [(js "userId", userId)])).

Definition beginAuthorization (user : Document) : Handler unit :=
  try_catch
    (match GITHUB_CLIENT_ID env with
     | None | Some [] =>
         json 500 (message (js "GitHub OAuth not configured")) ;; return_
     | Some client_id =>
         let state := encodeState (_id user) in
         redirect_uri ← lift (URI.encodeURIComponent GITHUB_CALLBACK_URL);
         let githubAuthUrl :=
           js "https://github.com/login/oauth/authorize?"
           ++ js "client_id=" ++ client_id ++ js "&"
           ++ js "redirect_uri=" ++ redirect_uri ++ js "&"
           ++ js "scope=repo&"
           ++ js "state=" ++ state in
         redirect githubAuthUrl
     end)
    (fun _ => json 500 (message (js "Failed to initiate GitHub authentication"))).

(** *** GET /api/github/callback *)

Record Query := {
  code : option JSString;
  state : option JSString;
  error : option JSString
}.

(** [JSON.parse(Buffer.from(state, 'base64').toString())] *)
Definition decodeState (state : JSValue) : Completion JSValue :=
  match state with
  | JStr s =>
      match JSON.parse (Utf8.decode (Base64.decode s)) with
      | Some v => Normal v
      | None => Thrown SyntaxError
      end
  | _ => Thrown TypeError
  end.

Definition completeAuthorization (query : Query) : Handler unit :=
  try_catch
    (let code := param (code query) in
     let state := param (state query) in
     let error := param (error query) in
     if truthy error then
       redirect (FRONTEND_ERROR_URL ++ js "&reason=oauth_denied") ;; return_
     else if negb (truthy code) || negb (truthy state) then
       redirect (FRONTEND_ERROR_URL ++ js "&reason=missing_params") ;; return_
     else
       decodedState ←
         try_catch (lift (decodeState state))
           (fun _ => redirect (FRONTEND_ERROR_URL ++ js "&reason=invalid_state") ;; return_);
       userId ← lift (get decodedState (js "userId"));
       if negb (truthy userId) then
         redirect (FRONTEND_ERROR_URL ++ js "&reason=invalid_state") ;; return_
       else
         data ← axios (TokenExchange code);
         access_token ← lift (get data (js "access_token"));
         tokenError ← lift (get data (js "error"));
         if truthy tokenError || negb (truthy access_token) then
           redirect (FRONTEND_ERROR_URL ++ js "&reason=token_exchange_failed") ;; return_
         else
           lift (template access_token) ;;
           githubUser ← axios (ProfileFetch access_token);
           login ← lift (get githubUser (js "login"));
           if negb (truthy login) then
             redirect (FRONTEND_ERROR_URL ++ js "&reason=profile_fetch_failed") ;; return_
           else
             user ← findById userId Default;
             match user with
             | None =>
                 redirect (FRONTEND_ERROR_URL ++ js "&reason=user_not_found") ;; return_
             | Some user =>
                 let user := assign AccessToken access_token user in
                 let user := assign Username login user in
                 id ← lift (get githubUser (js "id"));
                 let user := assign Id id user in
                 html_url ← lift (get githubUser (js "html_url"));
                 let user := assign ProfileUrl html_url user in
                 let user := assign ConnectedAt (JDate (clock env)) user in
                 save user ;;
                 redirect FRONTEND_SUCCESS_URL
             end)
    (fun _ => redirect (FRONTEND_ERROR_URL ++ js "&reason=server_error")).

(** *** GET /api/github/status *)

Definition getStatus (caller : JSString) : Handler unit :=
  try_catch
    (user ← findById (JStr caller) (Only [Username; ConnectedAt]);
     githubUsername ← lift (field user Username);
     githubConnectedAt ← lift (field user ConnectedAt);
     json 200
       (JObj [(js "success", JBool true);
              (js "connected", JBool (truthy githubUsername));
              (js "githubUsername", or_else githubUsername JNull);
              (js "connectedAt", or_else githubConnectedAt JNull)]))
    (fun _ => json 500 (message (js "Failed to check GitHub status"))).

(** *** POST /api/github/disconnect *)

Definition disconnect (caller : JSString) : Handler unit :=
  try_catch
    (user ← findById (JStr caller) Default;
     user ← lift (set_field user AccessToken JUndefined);
     user ← lift (set_field user Username JUndefined);
     user ← lift (set_field user Id JUndefined);
     user ← lift (set_field user ProfileUrl JUndefined);
     user ← lift (set_field user ConnectedAt JUndefined);
     match user with
     | Some user => save user
     | None => lift (Thrown TypeError)
     end ;;
     json 200
       (JObj [(js "success", JBool true);
              (js "message", JStr (js "GitHub account disconnected successfully"))]))
    (fun _ => json 500 (message (js "Failed to disconnect GitHub account"))).

(** *** GET /api/github/repositories *)

(** The object each raw entry is mapped to. *)
Definition summary (repo : JSValue) : Completion JSValue :=
  id ← get repo (js "id");
  name ← get repo (js "name");
  full_name ← get repo (js "full_name");
  description ← get repo (js "description");
  private ← get repo (js "private");
  html_url ← get repo (js "html_url");
  language ← get repo (js "language");
  updated_at ← get repo (js "updated_at");
  stargazers_count ← get repo (js "stargazers_count");
  forks_count ← get repo (js "forks_count");
  Normal
    (JObj [(js "id", id);
           (js "name", name);
           (js "fullName", full_name);
           (js "description", description);
           (js "private", private);
           (js "htmlUrl", html_url);
           (js "language", language);
           (js "updatedAt", updated_at);
           (js "stargazersCount", stargazers_count);
           (js "forksCount", forks_count)]).

(** [items.map(f)], where [f] may throw. *)
Fixpoint map_items (f : JSValue -> Completion JSValue) (items : list JSValue)
  : Completion (list JSValue) :=
  match items with
  | [] => Normal []
  | x :: rest => y ← f x; ys ← map_items f rest; Normal (y :: ys)
  end.

(** [data.map(f)]: only an array has the method. *)
Definition array_map (f : JSValue -> Completion JSValue) (data : JSValue)
  : Completion JSValue :=
  match data with
  | JArr items => JArr <$> map_items f items
  | _ => Thrown TypeError
  end.

Definition listRepositories (caller : JSString) : Handler unit :=
  try_catch
    (user ← findById (JStr caller) (Plus [AccessToken]);
     githubAccessToken ← lift (field user AccessToken);
     if negb (truthy githubAccessToken) then
       json 400 (message (js "GitHub account not connected")) ;; return_
     else
       lift (template githubAccessToken) ;;
       data ← axios (RepositoryList githubAccessToken);
       repositories ← lift (array_map summary data);
       json 200 (JObj [(js "success", JBool true); (js "repositories", repositories)]))
    (fun error =>
       match error with
       | AxiosError (Some 401) =>
           json 401
             (message (js "GitHub access token is invalid. Please reconnect your account.")) ;;
           return_
       | _ => json 500 (message (js "Failed to fetch repositories"))
       end).

(** *** The router *)

(** A request as it reaches its route.  The routes behind the [auth]
    middleware (not among the sources) receive the caller it identified,
    [req.user.id]. *)
Inductive Request :=
| GET_auth (token : option JSString)
| GET_callback (query : Query)
| GET_status (caller : JSString)
| POST_disconnect (caller : JSString)
| GET_repositories (caller : JSString).

Definition route (r : Request) : Handler unit :=
  match r with
  | GET_auth token => authFromQuery token beginAuthorization
  | GET_callback query => completeAuthorization query
  | GET_status caller => getStatus caller
  | POST_disconnect caller => disconnect caller
  | GET_repositories caller => listRepositories caller
  end.

End WithEnv.

(** The world a request leaves behind, and what it added to the trace. *)
Definition serve (env : Env) (r : Request) (w : World) : World := snd (route env r w).

Definition effects (env : Env) (r : Request) (w : World) : list Event :=
  drop (length (trace w)) (trace (serve env r w)).

Definition response_of (e : Event) : option Response :=
  match e with
  | Responded r => Some r
  | _ => None
  end.

Definition is_outbound (e : Event) : bool :=
  match e with
  | Outbound _ => true
  | _ => false
  end.

Definition is_save (e : Event) : bool :=
  match e with
  | Saved _ => true
  | _ => false
  end.

Definition responses (es : list Event) : list Response := omap response_of es.

End Routes.
Export Routes.

(** ** The vocabulary of the specification *)

Module Link.

(** A linkage path is populated when it holds a value, cleared when it is
    absent. *)
Definition populated (v : JSValue) : bool := negb (is_undefined v).

Definition linked (u : User) : bool := forallb (fun p => populated (read p u)) paths.
Definition unlinked (u : User) : bool := forallb (fun p => is_undefined (read p u)) paths.

(** The record [disconnect] leaves. *)
Definition cleared (u : User) : User :=
  {| githubAccessToken := JUndefined; githubUsername := JUndefined;
     githubId := JUndefined; githubProfileUrl := JUndefined;
     githubConnectedAt := JUndefined; account := account u |}.

(** The record a completed authorization leaves. *)
Definition linked_record (access_token login id html_url : JSValue) (now : Z)
    (u : User) : User :=
  {| githubAccessToken := access_token; githubUsername := login; githubId := id;
     githubProfileUrl := html_url; githubConnectedAt := JDate now;
     account := account u |}.

(** All set or all cleared. *)
Definition consistent (u : User) : bool := linked u || unlinked u.

Definition store_consistent (us : gmap JSString User) : Prop :=
  forall k u, us !! k = Some u -> consistent u = true.

(** GitHub's contract for the profile endpoint: a profile that carries a
    [login] carries an [id] and an [html_url]. *)
Definition profile_complete (env : Env) : Prop :=
  forall token data login id html_url,
    github env (ProfileFetch token) = Resolves data ->
    get data (js "login") = Normal login -> truthy login = true ->
    get data (js "id") = Normal id -> get data (js "html_url") = Normal html_url ->
    populated id = true /\ populated html_url = true.

End Link.
Export Link.

(** ** The entries of a listing *)

Module Summary.

(** The value of a property of a raw entry; [undefined] when the entry does
    not have it. *)
Definition property (raw : JSValue) (name : JSString) : JSValue :=
  match raw with
  | JObj props => default JUndefined (own_property name props)
  | _ => JUndefined
  end.

(** The summary of a raw repository entry, as the specification words it:
    five paths renamed, five passed through, nothing else. *)
Definition RepositorySummary (raw : JSValue) : JSValue :=
  JObj [(js "id", property raw (js "id"));
        (js "name", property raw (js "name"));
        (js "fullName", property raw (js "full_name"));
        (js "description", property raw (js "description"));
        (js "private", property raw (js "private"));
        (js "htmlUrl", property raw (js "html_url"));
        (js "language", property raw (js "language"));
        (js "updatedAt", property raw (js "updated_at"));
        (js "stargazersCount", property raw (js "stargazers_count"));
        (js "forksCount", property raw (js "forks_count"))].

(** The renaming of the specification: the name of each path in a raw
    entry and its name in the summary. *)
Definition renaming : list (JSString * JSString) :=
  [(js "id", js "id");
   (js "name", js "name");
   (js "full_name", js "fullName");
   (js "description", js "description");
   (js "private", js "private");
   (js "html_url", js "htmlUrl");
   (js "language", js "language");
   (js "updated_at", js "updatedAt");
   (js "stargazers_count", js "stargazersCount");
   (js "forks_count", js "forksCount")].

End Summary.
Export Summary.

(** ** The outcomes of the callback *)

Module Outcomes.

Inductive Reason :=
| oauth_denied
| missing_params
| invalid_state
| token_exchange_failed
| profile_fetch_failed
| user_not_found
| server_error.

Definition reason_code (r : Reason) : JSString :=
  match r with
  | oauth_denied => js "oauth_denied"
  | missing_params => js "missing_params"
  | invalid_state => js "invalid_state"
  | token_exchange_failed => js "token_exchange_failed"
  | profile_fetch_failed => js "profile_fetch_failed"
  | user_not_found => js "user_not_found"
  | server_error => js "server_error"
  end.

Inductive Outcome :=
| Connected
| Failed (r : Reason).

(** Where the callback sends the browser. *)
Definition outcome_url (o : Outcome) : JSString :=
  match o with
  | Connected => FRONTEND_SUCCESS_URL
  | Failed r => FRONTEND_ERROR_URL ++ js "&reason=" ++ reason_code r
  end.

(** *** The steps of the handler

    The handler of the callback, lines 66 to 155, is a sequence of steps.
    A step passes with what the later steps need, fails (the handler
    redirects with the step's reason and returns), or faults: it throws,
    and the [catch] of line 145 answers [server_error].  The definitions
    below follow the handler statement by statement; lemma
    [callback_table] proves that, together, they are the handler. *)
Inductive Checked (A : Type) :=
| Pass (a : A)
| Fail (r : Reason)
| Fault.
Arguments Pass {A} a.
Arguments Fail {A} r.
Arguments Fault {A}.

Definition and_then {A B} (c : Checked A) (k : A -> Checked B) : Checked B :=
  match c with
  | Pass a => k a
  | Fail r => Fail r
  | Fault => Fault
  end.

(** Lines 71 to 74: the guard on the [error] parameter. *)
Definition check_denied (q : Query) : Checked unit :=
  if truthy (param (error q)) then Fail oauth_denied else Pass tt.

(** Lines 77 to 79: the guard on [code] and [state]. *)
Definition check_params (q : Query) : Checked unit :=
  if truthy (param (code q)) && truthy (param (state q)) then Pass tt
  else Fail missing_params.

(** Lines 82 to 91: the inner [try] around the decoding, then the guard
    [!decodedState.userId], which stands outside of it: when the state
    decodes to [null] the guard itself throws. *)
Definition check_state (q : Query) : Checked JSValue :=
  match decodeState (param (state q)) with
  | Normal decoded =>
      match get decoded (js "userId") with
      | Normal userId => if truthy userId then Pass userId else Fail invalid_state
      | _ => Fault
      end
  | _ => Fail invalid_state
  end.

(** Lines 94 to 110, and the template literal of line 115: the exchange,
    the destructuring of its answer (which throws on [null]) and the guard
    [tokenError || !access_token]. *)
Definition check_token (env : Env) (q : Query) : Checked JSValue :=
  match github env (TokenExchange (param (code q))) with
  | Resolves data =>
      match get data (js "access_token"), get data (js "error") with
      | Normal access_token, Normal tokenError =>
          if truthy tokenError || negb (truthy access_token)
          then Fail token_exchange_failed
          else if ToString_throws access_token then Fault
          else Pass access_token
      | _, _ => Fault
      end
  | Rejects _ => Fault
  end.

(** Lines 113 to 125: the profile fetch and the guard [!githubUser.login],
    which throws on [null]. *)
Definition check_profile (env : Env) (access_token : JSValue) : Checked JSValue :=
  match github env (ProfileFetch access_token) with
  | Resolves githubUser =>
      match get githubUser (js "login") with
      | Normal login => if truthy login then Pass githubUser else Fail profile_fetch_failed
      | _ => Fault
      end
  | Rejects _ => Fault
  end.

(** Lines 128 to 131: the lookup of the user and the guard [!user]. *)
Definition check_user (env : Env) (us : gmap JSString User) (userId : JSValue)
  : Checked JSString :=
  match match userId with JStr key => CastTo key | _ => cast_id env userId end with
  | CastTo key =>
      match us !! key with
      | Some _ => Pass key
      | None => Fail user_not_found
      end
  | NoMatch => Fail user_not_found
  | Uncastable => Fault
  end.

(** The steps in the order the handler takes them: the first that does not
    pass ends the call. *)
Definition checks (env : Env) (us : gmap JSString User) (q : Query) : Checked JSString :=
  and_then (check_denied q) (fun _ =>
  and_then (check_params q) (fun _ =>
  and_then (check_state q) (fun userId =>
  and_then (check_token env q) (fun access_token =>
  and_then (check_profile env access_token) (fun _ =>
  check_user env us userId))))).

(** Lines 134 to 138: the key and the record the handler hands to [save]
    once every step has passed. *)
Definition link_of (env : Env) (us : gmap JSString User) (q : Query)
  : option (JSString * User) :=
  match checks env us q, check_token env q with
  | Pass key, Pass access_token =>
      match github env (ProfileFetch access_token), us !! key with
      | Resolves githubUser, Some u =>
          Some (key,
                linked_record access_token (property githubUser (js "login"))
                  (property githubUser (js "id")) (property githubUser (js "html_url"))
                  (clock env) u)
      | _, _ => None
      end
  | _, _ => None
  end.

(** Lines 140 to 153: a save the store rejects throws like any other
    step. *)
Definition verdict (env : Env) (us : gmap JSString User) (q : Query) : Outcome :=
  match checks env us q with
  | Pass _ =>
      match link_of env us q with
      | Some (key, record) =>
          if store_accepts env key record then Connected else Failed server_error
      | None => Failed server_error
      end
  | Fail r => Failed r
  | Fault => Failed server_error
  end.

(** What a call of the callback does, by its outcome: a failure (a save the
    store rejected among them) leaves the store alone and redirects to the
    error URL after the outbound calls made so far; a success writes one
    record between the two calls and the redirect to the success URL. *)
Inductive callback_run (env : Env) (q : Query) (w w' : World) : Outcome -> Prop :=
| run_failed r calls :
    users w' = users w ->
    trace w' = trace w ++ calls ++ [Responded (Redirect (outcome_url (Failed r)))] ->
    Forall (fun e => is_outbound e = true) calls ->
    callback_run env q w w' (Failed r)
| run_connected key u access_token githubUser login id html_url :
    users w !! key = Some u ->
    truthy access_token = true ->
    github env (ProfileFetch access_token) = Resolves githubUser ->
    get githubUser (js "login") = Normal login ->
    truthy login = true ->
    get githubUser (js "id") = Normal id ->
    get githubUser (js "html_url") = Normal html_url ->
    store_accepts env key (linked_record access_token login id html_url (clock env) u) = true ->
    users w' = <[key := linked_record access_token login id html_url (clock env) u]> (users w) ->
    trace w' = trace w ++
      [Outbound (TokenExchange (param (code q))); Outbound (ProfileFetch access_token);
       Saved key; Responded (Redirect (outcome_url Connected))] ->
    callback_run env q w w' Connected.

End Outcomes.
Export Outcomes.

(** ** The reasons, as the specification words them *)

Module Conditions.






End Conditions.
Export Conditions.

Module Replies.

(** The body of a status reply. *)
Definition status_body (u : User) : JSValue :=
  JObj [(js "success", JBool true);
        (js "connected", JBool (truthy (githubUsername u)));
        (js "githubUsername", or_else (githubUsername u) JNull);
        (js "connectedAt", or_else (githubConnectedAt u) JNull)].

(** The acknowledgment of a disconnect. *)
Definition disconnect_ack : Response :=
  Json 200
    (JObj [(js "success", JBool true);
           (js "message", JStr (js "GitHub account disconnected successfully"))]).

Definition disconnect_failed : Response :=
  Json 500 (message (js "Failed to disconnect GitHub account")).

(** Where [beginAuthorization] sends the browser. *)
Definition authorize_url (client_id state : JSString) : JSString :=
  js "https://github.com/login/oauth/authorize?"
  ++ js "client_id=" ++ client_id ++ js "&"
  ++ js "redirect_uri=" ++ js "http%3A%2F%2Flocalhost%3A5000%2Fapi%2Fgithub%2Fcallback" ++ js "&"
  ++ js "scope=repo&"
  ++ js "state=" ++ state.

(** The client error of a caller that is not linked. *)
Definition not_connected : Response :=
  Json 400 (message (js "GitHub account not connected")).

End Replies.
Export Replies.

(** ** Concrete worlds *)

Module Examples.

Definition number (n : Z) : JSValue :=
  JNum {| dec_neg := false; dec_coeff := n; dec_exp10 := 0 |}.

Definition token_reply : JSValue := JObj [(js "access_token", JStr (js "tok"))].

Definition octo_profile : JSValue :=
  JObj [(js "login", JStr (js "octo"));
        (js "id", number 1);
        (js "html_url", JStr (js "https://github.com/octo"))].

Definition repositories_reply : JSValue :=
  JArr [JObj [(js "id", number 7); (js "name", JStr (js "hub"));
              (js "full_name", JStr (js "octo/hub")); (js "private", JBool false);
              (js "node_id", JStr (js "R_1"))];
        JObj [(js "id", number 9); (js "full_name", JStr (js "octo/echo"));
              (js "stargazers_count", number 3)]].

Definition env_with (token profile : Reply) : Env :=
  {| GITHUB_CLIENT_ID := Some (js "client");
     jwt_verify := fun _ => Thrown JsonWebTokenError;
     github := fun c =>
       match c with
       | TokenExchange _ => token
       | ProfileFetch _ => profile
       | RepositoryList _ => Resolves repositories_reply
       end;
     cast_id := fun _ => NoMatch;
     store_accepts := fun _ _ => true;
     clock := 1700000000000 |}.

(** GitHub answers as its contract says. *)
Definition env_ok : Env := env_with (Resolves token_reply) (Resolves octo_profile).

(** GitHub answers with a profile that has a [login] and nothing else. *)
Definition env_login_only : Env :=
  env_with (Resolves token_reply) (Resolves (JObj [(js "login", JStr (js "octo"))])).




(** GitHub answers as its contract says and the store rejects every
    write. *)
Definition env_store_down : Env :=
  {| GITHUB_CLIENT_ID := Some (js "client");
     jwt_verify := fun _ => Thrown JsonWebTokenError;
     github := github env_ok;
     cast_id := fun _ => NoMatch;
     store_accepts := fun _ _ => false;
     clock := 1700000000000 |}.

Definition unlinked_user : User :=
  {| githubAccessToken := JUndefined; githubUsername := JUndefined;
     githubId := JUndefined; githubProfileUrl := JUndefined;
     githubConnectedAt := JUndefined;
     account := [(js "email", JStr (js "octo@example.com"))] |}.

Definition linked_user : User :=
  linked_record (JStr (js "tok")) (JStr (js "octo")) (number 1)
    (JStr (js "https://github.com/octo")) 1700000000000 unlinked_user.

Definition one_user : World := {| users := {[ js "u1" := unlinked_user ]}; trace := [] |}.
Definition one_linked_user : World := {| users := {[ js "u1" := linked_user ]}; trace := [] |}.
Definition nobody : World := {| users := ∅; trace := [] |}.

(** The query GitHub sends back for the state of user [userId]. *)
Definition query_for (userId : JSString) : Query :=
  {| code := Some (js "abc"); state := Some (encodeState userId); error := None |}.

(** A state that decodes to the JSON text [null]. *)
Definition query_null_state : Query :=
  {| code := Some (js "abc"); state := Some (js "bnVsbA=="); error := None |}.

End Examples.

(** ** Decision tables of the routes *)

Module Tables.

(** [jwt.verify] returns a payload or throws. *)
Definition sane (env : Env) : Prop := forall token, jwt_verify env token <> Returned.

(** The caller a session token names: the token is present, it verifies,
    and the id of its payload is that of a stored user. *)
Definition authenticate (env : Env) (us : gmap JSString User) (token : option JSString)
  : option JSString :=
  match token with
  | Some (c :: t) =>
      match jwt_verify env (c :: t) with
      | Normal decoded =>
          match get decoded (js "id") with
          | Normal id =>
              match match id with JStr key => CastTo key | _ => cast_id env id end with
              | CastTo key =>
                  match us !! key with
                  | Some _ => Some key
                  | None => None
                  end
              | _ => None
              end
          | _ => None
          end
      | _ => None
      end
  | _ => None
  end.

Definition no_token : Response := Json 401 (message (js "No token, authorization denied")).
Definition invalid_token : Response := Json 401 (message (js "Token is not valid")).
Definition not_configured : Response := Json 500 (message (js "GitHub OAuth not configured")).

(** What GET /api/github/auth answers. *)
Definition auth_answer (env : Env) (us : gmap JSString User) (token : option JSString)
  : Response :=
  match authenticate env us token with
  | None => if truthy (param token) then invalid_token else no_token
  | Some key =>
      match GITHUB_CLIENT_ID env with
      | None | Some [] => not_configured
      | Some client_id => Redirect (authorize_url client_id (encodeState key))
      end
  end.

Definition status_failed : Response := Json 500 (message (js "Failed to check GitHub status")).

(** What GET /api/github/status answers. *)
Definition status_answer (us : gmap JSString User) (caller : JSString) : Response :=
  match us !! caller with
  | Some u => Json 200 (status_body u)
  | None => status_failed
  end.

Definition token_rejected : Response :=
  Json 401 (message (js "GitHub access token is invalid. Please reconnect your account.")).
Definition fetch_failed : Response := Json 500 (message (js "Failed to fetch repositories")).

(** What GET /api/github/repositories answers to the reply of GitHub. *)
Definition listing_answer (reply : Reply) : Response :=
  match reply with
  | Rejects (Some status) => if status =? 401 then token_rejected else fetch_failed
  | Rejects None => fetch_failed
  | Resolves data =>
      match array_map summary data with
      | Normal repositories =>
          Json 200 (JObj [(js "success", JBool true); (js "repositories", repositories)])
      | _ => fetch_failed
      end
  end.

(** What GET /api/github/repositories does. *)
Definition repositories_effects (env : Env) (us : gmap JSString User) (caller : JSString)
  : list Event :=
  match us !! caller with
  | None => [Responded fetch_failed]
  | Some u =>
      let token := githubAccessToken u in
      if negb (truthy token) then [Responded not_connected]
      else if ToString_throws token then [Responded fetch_failed]
      else [Outbound (RepositoryList token);
            Responded (listing_answer (github env (RepositoryList token)))]
  end.

(** The checks of the callback that need no call of GitHub. *)
Definition early_checks (q : Query) : Checked JSValue :=
  and_then (check_denied q) (fun _ => and_then (check_params q) (fun _ => check_state q)).

(** The calls of GitHub the callback makes. *)
Definition outbound_calls (env : Env) (q : Query) : list Event :=
  match early_checks q with
  | Pass _ =>
      Outbound (TokenExchange (param (code q))) ::
      match check_token env q with
      | Pass access_token => [Outbound (ProfileFetch access_token)]
      | _ => []
      end
  | _ => []
  end.

(** The save of the callback, when the store accepts it. *)
Definition saved (env : Env) (us : gmap JSString User) (q : Query) : list Event :=
  match link_of env us q with
  | Some (key, record) => if store_accepts env key record then [Saved key] else []
  | None => []
  end.

(** What the callback does. *)
Definition callback_effects (env : Env) (us : gmap JSString User) (q : Query) : list Event :=
  outbound_calls env q
  ++ saved env us q
  ++ [Responded (Redirect (outcome_url (verdict env us q)))].

(** The store the callback leaves. *)
Definition callback_store (env : Env) (us : gmap JSString User) (q : Query)
  : gmap JSString User :=
  match link_of env us q with
  | Some (key, record) => if store_accepts env key record then <[key := record]> us else us
  | None => us
  end.

(** The routes that write to the store. *)
Definition writes (r : Request) : bool :=
  match r with
  | GET_callback _ | POST_disconnect _ => true
  | _ => false
  end.

(** The routes that call GitHub. *)
Definition calls_github (r : Request) : bool :=
  match r with
  | GET_callback _ | GET_repositories _ => true
  | _ => false
  end.

(** A character of a URL that needs no escaping in a query string: a letter
    or a digit. *)
Definition alphanumeric (c : Z) : bool :=
  Utf8.between 48 57 c || Utf8.between 65 90 c || Utf8.between 97 122 c.

(** A character that reads back as itself from a query string: a letter, a
    digit or the padding [=]. *)
Definition query_safe (c : Z) : bool := alphanumeric c || (c =? 61).

(** An ASCII byte that is not one of [>], [?], [~] and DEL, the four whose
    low six bits are 62 or 63. *)
Definition plain (b : Z) : bool :=
  (0 <=? b) && (b <? 128) && negb (b mod 64 =? 62) && negb (b mod 64 =? 63).

End Tables.
Export Tables.

(** ** More concrete worlds *)

Module Cases.

(** The payload of the session token [session]: the user [u1]. *)
Definition verify_session (token : JSString) : Completion JSValue :=
  if string_eqb token (js "session")
  then Normal (JObj [(js "id", JStr (js "u1"))])
  else Thrown JsonWebTokenError.

Definition env_of (client_id : option JSString) (listing : Reply) : Env :=
  {| GITHUB_CLIENT_ID := client_id;
     jwt_verify := verify_session;
     github := fun c =>
       match c with
       | TokenExchange _ => Resolves Examples.token_reply
       | ProfileFetch _ => Resolves Examples.octo_profile
       | RepositoryList _ => listing
       end;
     cast_id := fun _ => NoMatch;
     store_accepts := fun _ _ => true;
     clock := 1700000000000 |}.

Definition env_session : Env := env_of (Some (js "client")) (Resolves Examples.repositories_reply).
Definition env_unconfigured : Env := env_of None (Resolves Examples.repositories_reply).
Definition env_token_revoked : Env := env_of (Some (js "client")) (Rejects (Some 401)).
Definition env_rate_limited : Env := env_of (Some (js "client")) (Rejects (Some 403)).

(** GitHub answers the listing with an array whose one entry is [null]. *)
Definition env_null_entry : Env := env_of (Some (js "client")) (Resolves (JArr [JNull])).

(** GitHub answers the exchange with a token and an error at once. *)
Definition env_token_and_error : Env :=
  Examples.env_with
    (Resolves (JObj [(js "access_token", JStr (js "tok"));
                     (js "error", JStr (js "bad_verification_code"))]))
    (Resolves Examples.octo_profile).

Definition two_users : World :=
  {| users := {[ js "u1" := Examples.linked_user; js "u2" := Examples.unlinked_user ]};
     trace := [] |}.

(** A state whose [userId] is the empty string: the base64 of the JSON text
    of an object with that one property. *)
Definition query_empty_userId : Query :=
  {| code := Some (js "abc"); state := Some (encodeState []); error := None |}.

End Cases.

(** * Properties *)

(** ** Tactics *)

(** Unfolds a route down to the store and the trace. *)
Ltac run :=
  cbv [serve route authFromQuery beginAuthorization completeAuthorization
       getStatus disconnect listRepositories
       try_catch mbind handler_bind bind mret handler_ret pure lift return_
       findById save json redirect emit axios field set_field
       fmap option_fmap option_map snd fst].

(** Case analysis on the innermost scrutinee of the goal. *)
Ltac break_match :=
  match goal with
  | |- context [match ?x with _ => _ end] =>
      lazymatch x with
      | context [match _ with _ => _ end] => fail
      | _ => destruct x eqn:?
      end
  end.

(** Replays, in the goal, the choices recorded in the context. *)
Ltac replay :=
  repeat match goal with
         | H : ?x = _ |- context [match ?x with _ => _ end] => rewrite H
         | H : ?x = _ |- context [if ?x then _ else _] => rewrite H
         | H : ?x = _ |- context [mbind _ ?x] => rewrite H
         | |- _ => progress cbn [mbind option_bind]
         end.

(** Linear arithmetic with division and remainder by constants. *)
Ltac zdiv := Z.to_euclidean_division_equations; lia.

(** Case analysis on the integer tests that guard a conditional. *)
Ltac split_ifs :=
  repeat match goal with
         | |- context [if ?a <? ?b then _ else _] => destruct (Z.ltb_spec a b)
         | |- context [if ?a <=? ?b then _ else _] => destruct (Z.leb_spec a b)
         | |- context [if ?a =? ?b then _ else _] => destruct (Z.eqb_spec a b)
         | |- context [if Utf8.between ?l ?h ?b then _ else _] =>
             unfold Utf8.between at 1;
             destruct (Z.leb_spec l b); destruct (Z.leb_spec b h); cbn [andb]
         | |- context [if ?a || ?b then _ else _] =>
             let E := fresh in destruct (a || b) eqn:E;
             [apply orb_true_iff in E; rewrite !Z.eqb_eq in E
             |apply orb_false_iff in E; rewrite !Z.eqb_neq in E]
         end.

(** ** Base64 *)

(** Induction on a list three elements at a time. *)
Lemma list_ind3 {A} (P : list A -> Prop) :
  P [] -> (forall a, P [a]) -> (forall a b, P [a; b]) ->
  (forall a b c t, P t -> P (a :: b :: c :: t)) ->
  forall l, P l.
Proof.
  intros H0 H1 H2 H3 l.
  assert (G : forall n l, (length l <= n)%nat -> P l).
  { induction n as [|n IH]; intros l0 Hl.
    - destruct l0; [apply H0 | simpl in Hl; lia].
    - destruct l0 as [|a [|b [|c t]]]; auto.
      apply H3, IH. simpl in Hl. lia. }
  apply (G (length l)). lia.
Qed.

Lemma value_of_char_of n :
  0 <= n < 64 -> Base64.value_of (Base64.char_of n) = Some n.
Proof.
  intros Hn. unfold Base64.char_of. split_ifs; unfold Base64.value_of;
    split_ifs; first [f_equal; lia | exfalso; lia].
Qed.

Lemma char_of_not_pad n : 0 <= n < 64 -> (Base64.char_of n =? 61) = false.
Proof.
  intros Hn. apply Z.eqb_neq. unfold Base64.char_of. split_ifs; lia.
Qed.

Lemma char_of_low_byte n : 0 <= n < 64 -> Base64.char_of n mod 256 = Base64.char_of n.
Proof.
  intros Hn. apply Z.mod_small. unfold Base64.char_of. split_ifs; lia.
Qed.

Lemma sextets_char n t :
  0 <= n < 64 -> Base64.sextets (Base64.char_of n :: t) = n :: Base64.sextets t.
Proof.
  intros Hn. cbn [Base64.sextets]. cbv zeta. rewrite (char_of_low_byte n Hn).
  rewrite (char_of_not_pad n Hn), (value_of_char_of n Hn). reflexivity.
Qed.

(** Of a code unit the decoder reads the low byte: U+0165 is read as the
    letter e (0x65), U+013D as the padding sign (0x3D). *)
Lemma sextets_low_byte c t : Base64.sextets (c :: t) = Base64.sextets (c mod 256 :: t).
Proof. cbn [Base64.sextets]. cbv zeta. rewrite Z.mod_mod by lia. reflexivity. Qed.

(** Decoding undoes encoding. *)
Lemma base64_roundtrip bs : Forall byte bs -> Base64.decode (Base64.encode bs) = bs.
Proof.
  unfold Base64.decode, byte.
  induction bs as [|a|a b|a b c t IH] using list_ind3; intros Hb.
  - reflexivity.
  - inversion_clear Hb as [|? ? Ha _].
    cbn [Base64.encode]. rewrite !sextets_char by zdiv.
    cbn [Base64.sextets Base64.bytes]. f_equal. zdiv.
  - inversion_clear Hb as [|? ? Ha Hb']. inversion_clear Hb' as [|? ? Hb _].
    cbn [Base64.encode]. rewrite !sextets_char by zdiv.
    cbn [Base64.sextets Base64.bytes]. repeat f_equal; zdiv.
  - inversion_clear Hb as [|? ? Ha Hb']. inversion_clear Hb' as [|? ? Hb Hc'].
    inversion_clear Hc' as [|? ? Hc Ht].
    cbn [Base64.encode app]. rewrite !sextets_char by zdiv.
    cbn [Base64.bytes app]. rewrite (IH Ht). repeat f_equal; zdiv.
Qed.

(** ** UTF-8 *)

Lemma between_true lo hi b : lo <= b <= hi -> Utf8.between lo hi b = true.
Proof. intros H. unfold Utf8.between. apply andb_true_iff. lia. Qed.

Lemma between_false lo hi b : b < lo \/ hi < b -> Utf8.between lo hi b = false.
Proof. intros H. unfold Utf8.between. apply andb_false_iff. lia. Qed.

Lemma lead_1 b : 0 <= b <= 0x7F -> Utf8.lead b = inl [b].
Proof. intros H. unfold Utf8.lead. rewrite between_true by lia. reflexivity. Qed.

Lemma lead_2 b :
  0xC2 <= b <= 0xDF ->
  Utf8.lead b = inr {| Utf8.acc := b - 0xC0; Utf8.due := 1;
                       Utf8.lower := 0x80; Utf8.upper := 0xBF |}.
Proof.
  intros H. unfold Utf8.lead.
  rewrite (between_false 0 0x7F) by lia. rewrite between_true by lia. reflexivity.
Qed.

Lemma lead_3 b :
  0xE0 <= b <= 0xEF ->
  Utf8.lead b = inr {| Utf8.acc := b - 0xE0; Utf8.due := 2;
                       Utf8.lower := if b =? 0xE0 then 0xA0 else 0x80;
                       Utf8.upper := if b =? 0xED then 0x9F else 0xBF |}.
Proof.
  intros H. unfold Utf8.lead.
  rewrite (between_false 0 0x7F), (between_false 0xC2 0xDF) by lia.
  rewrite between_true by lia. reflexivity.
Qed.

Lemma lead_4 b :
  0xF0 <= b <= 0xF4 ->
  Utf8.lead b = inr {| Utf8.acc := b - 0xF0; Utf8.due := 3;
                       Utf8.lower := if b =? 0xF0 then 0x90 else 0x80;
                       Utf8.upper := if b =? 0xF4 then 0x8F else 0xBF |}.
Proof.
  intros H. unfold Utf8.lead.
  rewrite (between_false 0 0x7F), (between_false 0xC2 0xDF),
    (between_false 0xE0 0xEF) by lia.
  rewrite between_true by lia. reflexivity.
Qed.

Lemma scan_start b t q :
  Utf8.lead b = inr q -> Utf8.scan None (b :: t) = Utf8.scan (Some q) t.
Proof. intros H. cbn [Utf8.scan]. rewrite H. reflexivity. Qed.

Lemma scan_lead_2 b t :
  0xC2 <= b <= 0xDF ->
  Utf8.scan None (b :: t) =
  Utf8.scan (Some {| Utf8.acc := b - 0xC0; Utf8.due := 1;
                     Utf8.lower := 0x80; Utf8.upper := 0xBF |}) t.
Proof. intros H. apply scan_start, lead_2, H. Qed.

Lemma scan_lead_3 b t :
  0xE0 <= b <= 0xEF ->
  Utf8.scan None (b :: t) =
  Utf8.scan (Some {| Utf8.acc := b - 0xE0; Utf8.due := 2;
                     Utf8.lower := if b =? 0xE0 then 0xA0 else 0x80;
                     Utf8.upper := if b =? 0xED then 0x9F else 0xBF |}) t.
Proof. intros H. apply scan_start, lead_3, H. Qed.

Lemma scan_lead_4 b t :
  0xF0 <= b <= 0xF4 ->
  Utf8.scan None (b :: t) =
  Utf8.scan (Some {| Utf8.acc := b - 0xF0; Utf8.due := 3;
                     Utf8.lower := if b =? 0xF0 then 0x90 else 0x80;
                     Utf8.upper := if b =? 0xF4 then 0x8F else 0xBF |}) t.
Proof. intros H. apply scan_start, lead_4, H. Qed.

Lemma scan_last a lo hi b t :
  lo <= b <= hi ->
  Utf8.scan (Some {| Utf8.acc := a; Utf8.due := 1; Utf8.lower := lo; Utf8.upper := hi |})
    (b :: t) = (a * 64 + b mod 64) :: Utf8.scan None t.
Proof.
  intros H. cbn [Utf8.scan Utf8.lower Utf8.upper Utf8.due Utf8.acc].
  rewrite between_true by lia. reflexivity.
Qed.

Lemma scan_more a n lo hi b t :
  lo <= b <= hi ->
  Utf8.scan (Some {| Utf8.acc := a; Utf8.due := S (S n); Utf8.lower := lo; Utf8.upper := hi |})
    (b :: t) =
  Utf8.scan (Some {| Utf8.acc := a * 64 + b mod 64; Utf8.due := S n;
                     Utf8.lower := 0x80; Utf8.upper := 0xBF |}) t.
Proof.
  intros H. cbn [Utf8.scan Utf8.lower Utf8.upper Utf8.due Utf8.acc].
  rewrite between_true by lia. reflexivity.
Qed.

Lemma scan_code_point cp rest :
  scalar cp ->
  Utf8.scan None (Utf8.bytes_of_code_point cp ++ rest) = cp :: Utf8.scan None rest.
Proof.
  unfold scalar. intros Hcp. unfold Utf8.bytes_of_code_point. split_ifs; cbn [app].
  - cbn [Utf8.scan]. rewrite lead_1 by lia. reflexivity.
  - rewrite scan_lead_2 by zdiv.
    rewrite scan_last by zdiv. f_equal. zdiv.
  - rewrite scan_lead_3 by zdiv.
    rewrite scan_more by (split_ifs; zdiv).
    rewrite scan_last by zdiv. f_equal. zdiv.
  - rewrite scan_lead_4 by zdiv.
    rewrite scan_more by (split_ifs; zdiv).
    rewrite scan_more by zdiv.
    rewrite scan_last by zdiv. f_equal. zdiv.
Qed.

Lemma bytes_of_code_point_range cp :
  0 <= cp < 0x110000 -> Forall byte (Utf8.bytes_of_code_point cp).
Proof.
  intros H. unfold Utf8.bytes_of_code_point, byte.
  split_ifs; repeat constructor; zdiv.
Qed.

(** ** UTF-16 strings *)

(** Induction along the code points of a string. *)
Lemma utf16_ind (P : JSString -> Prop) :
  P [] ->
  (forall c t, Utf16.is_high c = false -> P t -> P (c :: t)) ->
  (forall c, Utf16.is_high c = true -> P [c]) ->
  (forall c d t, Utf16.is_high c = true -> Utf16.is_low d = true -> P t -> P (c :: d :: t)) ->
  (forall c d t, Utf16.is_high c = true -> Utf16.is_low d = false -> P (d :: t) -> P (c :: d :: t)) ->
  forall s, P s.
Proof.
  intros H0 H1 H2 H3 H4 s.
  assert (G : forall n s, (length s <= n)%nat -> P s).
  { induction n as [|n IH]; intros s0 Hs.
    - destruct s0; [apply H0 | simpl in Hs; lia].
    - destruct s0 as [|c t]; [apply H0|].
      destruct (Utf16.is_high c) eqn:Hc.
      + destruct t as [|d t]; [apply H2, Hc|].
        destruct (Utf16.is_low d) eqn:Hd.
        * apply H3; auto. apply IH. simpl in Hs. lia.
        * apply H4; auto. apply IH. simpl in Hs |- *. lia.
      + apply H1; auto. apply IH. simpl in Hs. lia. }
  apply (G (length s)). lia.
Qed.

Lemma is_high_spec c : Utf16.is_high c = true <-> 0xD800 <= c <= 0xDBFF.
Proof. unfold Utf16.is_high. rewrite andb_true_iff, !Z.leb_le. reflexivity. Qed.

Lemma is_low_spec c : Utf16.is_low c = true <-> 0xDC00 <= c <= 0xDFFF.
Proof. unfold Utf16.is_low. rewrite andb_true_iff, !Z.leb_le. reflexivity. Qed.

Lemma is_high_false c : Utf16.is_high c = false <-> c < 0xD800 \/ 0xDBFF < c.
Proof. unfold Utf16.is_high. rewrite andb_false_iff, !Z.leb_gt. reflexivity. Qed.

Lemma is_low_false c : Utf16.is_low c = false <-> c < 0xDC00 \/ 0xDFFF < c.
Proof. unfold Utf16.is_low. rewrite andb_false_iff, !Z.leb_gt. reflexivity. Qed.

Lemma pair_scalar c d :
  Utf16.is_high c = true -> Utf16.is_low d = true ->
  0x10000 <= Utf16.pair_code_point c d < 0x110000.
Proof.
  rewrite is_high_spec, is_low_spec. unfold Utf16.pair_code_point. lia.
Qed.

Lemma of_pair c d :
  Utf16.is_high c = true -> Utf16.is_low d = true ->
  Utf16.of_code_point (Utf16.pair_code_point c d) = [c; d].
Proof.
  intros Hc Hd. pose proof (pair_scalar c d Hc Hd) as Hp.
  unfold Utf16.of_code_point. destruct (Z.ltb_spec (Utf16.pair_code_point c d) 0x10000); [lia|].
  apply is_high_spec in Hc. apply is_low_spec in Hd.
  unfold Utf16.pair_code_point. repeat f_equal; zdiv.
Qed.

Lemma of_unit c : c < 0x10000 -> Utf16.of_code_point c = [c].
Proof.
  intros H. unfold Utf16.of_code_point.
  destruct (Z.ltb_spec c 0x10000); [reflexivity|lia].
Qed.

Lemma decode_code_point cp rest :
  scalar cp ->
  Utf8.decode (Utf8.bytes_of_code_point cp ++ rest) = Utf16.of_code_point cp ++ Utf8.decode rest.
Proof.
  intros H. unfold Utf8.decode. rewrite scan_code_point by exact H. reflexivity.
Qed.

Lemma encode_unit c t :
  Utf16.is_high c = false ->
  Utf8.encode (c :: t) =
  (if Utf16.is_low c then Utf8.replacement else Utf8.bytes_of_code_point c) ++ Utf8.encode t.
Proof.
  intros Hc. cbn [Utf8.encode]. rewrite Hc. destruct (Utf16.is_low c); reflexivity.
Qed.

Lemma encode_pair c d t :
  Utf16.is_high c = true -> Utf16.is_low d = true ->
  Utf8.encode (c :: d :: t) =
  Utf8.bytes_of_code_point (Utf16.pair_code_point c d) ++ Utf8.encode t.
Proof.
  intros Hc Hd.
  transitivity (if Utf16.is_high c then
                  if Utf16.is_low d
                  then Utf8.bytes_of_code_point (Utf16.pair_code_point c d) ++ Utf8.encode t
                  else Utf8.replacement ++ Utf8.encode (d :: t)
                else if Utf16.is_low c then Utf8.replacement ++ Utf8.encode (d :: t)
                else Utf8.bytes_of_code_point c ++ Utf8.encode (d :: t));
    [reflexivity | rewrite Hc, Hd; reflexivity].
Qed.

Lemma encode_lone c d t :
  Utf16.is_high c = true -> Utf16.is_low d = false ->
  Utf8.encode (c :: d :: t) = Utf8.replacement ++ Utf8.encode (d :: t).
Proof.
  intros Hc Hd.
  transitivity (if Utf16.is_high c then
                  if Utf16.is_low d
                  then Utf8.bytes_of_code_point (Utf16.pair_code_point c d) ++ Utf8.encode t
                  else Utf8.replacement ++ Utf8.encode (d :: t)
                else if Utf16.is_low c then Utf8.replacement ++ Utf8.encode (d :: t)
                else Utf8.bytes_of_code_point c ++ Utf8.encode (d :: t));
    [reflexivity | rewrite Hc, Hd; reflexivity].
Qed.

Lemma encode_last c : Utf16.is_high c = true -> Utf8.encode [c] = Utf8.replacement.
Proof. intros Hc. cbn [Utf8.encode]. rewrite Hc. reflexivity. Qed.

Lemma replacement_range : Forall byte Utf8.replacement.
Proof. repeat constructor; unfold byte; lia. Qed.

Lemma utf8_encode_range s : valid_string s -> Forall byte (Utf8.encode s).
Proof.
  unfold valid_string, code_unit.
  induction s as [|c t Hc IH|c Hc|c d t Hc Hd IH|c d t Hc Hd IH] using utf16_ind;
    intros Hv.
  - constructor.
  - inversion_clear Hv as [|? ? Hv1 Hv2]. rewrite encode_unit by assumption.
    apply Forall_app; split; auto.
    destruct (Utf16.is_low c); [apply replacement_range|].
    apply bytes_of_code_point_range. lia.
  - rewrite encode_last by assumption. apply replacement_range.
  - inversion_clear Hv as [|? ? Hv1 Hv2]. inversion_clear Hv2 as [|? ? Hv2' Hv3].
    rewrite encode_pair by assumption.
    apply Forall_app; split; auto.
    apply bytes_of_code_point_range. pose proof (pair_scalar c d Hc Hd). lia.
  - inversion_clear Hv as [|? ? Hv1 Hv2]. rewrite encode_lone by assumption.
    apply Forall_app; split; auto. apply replacement_range.
Qed.

Lemma well_formed_unit c t :
  Utf16.is_high c = false ->
  Utf16.well_formed (c :: t) = negb (Utf16.is_low c) && Utf16.well_formed t.
Proof. intros Hc. cbn [Utf16.well_formed]. rewrite Hc. reflexivity. Qed.

Lemma well_formed_pair c d t :
  Utf16.is_high c = true ->
  Utf16.well_formed (c :: d :: t) = Utf16.is_low d && Utf16.well_formed t.
Proof.
  intros Hc.
  transitivity (if Utf16.is_high c then Utf16.is_low d && Utf16.well_formed t
                else negb (Utf16.is_low c) && Utf16.well_formed (d :: t));
    [reflexivity | rewrite Hc; reflexivity].
Qed.

Lemma well_formed_last c : Utf16.is_high c = true -> Utf16.well_formed [c] = false.
Proof. intros Hc. cbn [Utf16.well_formed]. rewrite Hc. reflexivity. Qed.

Lemma well_formed_app a b :
  Utf16.well_formed a = true -> Utf16.well_formed b = true ->
  Utf16.well_formed (a ++ b) = true.
Proof.
  induction a as [|c t Hc IH|c Hc|c d t Hc Hd IH|c d t Hc Hd IH] using utf16_ind;
    intros Ha Hb.
  - exact Hb.
  - rewrite well_formed_unit in Ha by assumption.
    apply andb_true_iff in Ha. destruct Ha as [Ha1 Ha2].
    change ((c :: t) ++ b) with (c :: (t ++ b)).
    rewrite well_formed_unit by assumption. rewrite Ha1. cbn [andb]. auto.
  - rewrite well_formed_last in Ha by assumption. discriminate.
  - rewrite well_formed_pair in Ha by assumption.
    apply andb_true_iff in Ha. destruct Ha as [Ha1 Ha2].
    change ((c :: d :: t) ++ b) with (c :: d :: (t ++ b)).
    rewrite well_formed_pair by assumption. rewrite Ha1. cbn [andb]. auto.
  - rewrite well_formed_pair in Ha by assumption. rewrite Hd in Ha. discriminate.
Qed.

(** Decoding undoes encoding on a string with no lone surrogate. *)
Lemma utf8_roundtrip s :
  valid_string s -> Utf16.well_formed s = true -> Utf8.decode (Utf8.encode s) = s.
Proof.
  unfold valid_string, code_unit.
  induction s as [|c t Hc IH|c Hc|c d t Hc Hd IH|c d t Hc Hd IH] using utf16_ind;
    intros Hv Hw.
  - reflexivity.
  - inversion_clear Hv as [|? ? Hv1 Hv2].
    rewrite well_formed_unit in Hw by assumption.
    apply andb_true_iff in Hw. destruct Hw as [Hl Hw].
    apply negb_true_iff in Hl. rewrite encode_unit by assumption. rewrite Hl.
    apply is_high_false in Hc. apply is_low_false in Hl.
    rewrite decode_code_point by (unfold scalar; lia).
    rewrite of_unit by lia. rewrite IH by assumption. reflexivity.
  - rewrite well_formed_last in Hw by assumption. discriminate.
  - inversion_clear Hv as [|? ? Hv1 Hv2]. inversion_clear Hv2 as [|? ? Hv2' Hv3].
    rewrite well_formed_pair in Hw by assumption.
    apply andb_true_iff in Hw. destruct Hw as [_ Hw].
    pose proof (pair_scalar c d Hc Hd).
    rewrite encode_pair by assumption.
    rewrite decode_code_point by (unfold scalar; lia).
    rewrite of_pair by assumption. rewrite IH by assumption. reflexivity.
  - rewrite well_formed_pair in Hw by assumption. rewrite Hd in Hw. discriminate.
Qed.

(** ** JSON strings *)

Lemma hex_value_digit n : 0 <= n < 16 -> JSON.hex_value (JSON.hex_digit n) = Some n.
Proof.
  intros Hn. unfold JSON.hex_digit. split_ifs; unfold JSON.hex_value;
    split_ifs; first [f_equal; lia | exfalso; lia].
Qed.

Lemma hex_digit_range n : 0 <= n < 16 -> 48 <= JSON.hex_digit n <= 102.
Proof. intros Hn. unfold JSON.hex_digit. split_ifs; lia. Qed.

Lemma quote_body_unit c t :
  Utf16.is_high c = false ->
  JSON.quote_body (c :: t) =
  (if Utf16.is_low c then JSON.unicode_escape c else JSON.quote_unit c) ++ JSON.quote_body t.
Proof.
  intros Hc. cbn [JSON.quote_body]. rewrite Hc. destruct (Utf16.is_low c); reflexivity.
Qed.

Lemma quote_body_last c :
  Utf16.is_high c = true -> JSON.quote_body [c] = JSON.unicode_escape c.
Proof. intros Hc. cbn [JSON.quote_body]. rewrite Hc. reflexivity. Qed.

Lemma quote_body_cases c d t :
  JSON.quote_body (c :: d :: t) =
  if Utf16.is_high c then
    if Utf16.is_low d then c :: d :: JSON.quote_body t
    else JSON.unicode_escape c ++ JSON.quote_body (d :: t)
  else if Utf16.is_low c then JSON.unicode_escape c ++ JSON.quote_body (d :: t)
  else JSON.quote_unit c ++ JSON.quote_body (d :: t).
Proof. reflexivity. Qed.

Lemma quote_body_pair c d t :
  Utf16.is_high c = true -> Utf16.is_low d = true ->
  JSON.quote_body (c :: d :: t) = c :: d :: JSON.quote_body t.
Proof. intros Hc Hd. rewrite quote_body_cases, Hc, Hd. reflexivity. Qed.

Lemma quote_body_lone c d t :
  Utf16.is_high c = true -> Utf16.is_low d = false ->
  JSON.quote_body (c :: d :: t) = JSON.unicode_escape c ++ JSON.quote_body (d :: t).
Proof. intros Hc Hd. rewrite quote_body_cases, Hc, Hd. reflexivity. Qed.

(** Reading back an escape. *)
Lemma string_body_escape c rest :
  code_unit c ->
  JSON.string_body (JSON.unicode_escape c ++ rest) =
  '(r, rest') ← JSON.string_body rest; Some (c :: r, rest').
Proof.
  unfold code_unit. intros Hc. unfold JSON.unicode_escape.
  cbn [app JSON.string_body Z.eqb Pos.eqb].
  rewrite !hex_value_digit by zdiv.
  replace (c / 4096 * 4096 + c / 256 mod 16 * 256 + c / 16 mod 16 * 16 + c mod 16)
    with c by zdiv.
  reflexivity.
Qed.

(** Reading back a character that stands for itself. *)
Lemma string_body_plain c rest :
  32 <= c -> c <> 34 -> c <> 92 ->
  JSON.string_body (c :: rest) =
  '(r, rest') ← JSON.string_body rest; Some (c :: r, rest').
Proof.
  intros H1 H2 H3. cbn [JSON.string_body].
  destruct (Z.eqb_spec c 34); [lia|]. destruct (Z.eqb_spec c 92); [lia|].
  destruct (Z.ltb_spec c 32); [lia|]. reflexivity.
Qed.

Lemma string_body_unit c rest :
  code_unit c -> Utf16.is_high c = false -> Utf16.is_low c = false ->
  JSON.string_body (JSON.quote_unit c ++ rest) =
  '(r, rest') ← JSON.string_body rest; Some (c :: r, rest').
Proof.
  intros Hv Hh Hl. unfold JSON.quote_unit.
  split_ifs; subst; try reflexivity.
  - apply string_body_escape, Hv.
  - apply string_body_plain; lia.
Qed.

(** The parser reads a quoted string back. *)
Lemma string_body_quote s rest :
  valid_string s ->
  JSON.string_body (JSON.quote_body s ++ 34 :: rest) = Some (s, rest).
Proof.
  unfold valid_string.
  induction s as [|c t Hc IH|c Hc|c d t Hc Hd IH|c d t Hc Hd IH] using utf16_ind;
    intros Hv.
  - reflexivity.
  - inversion_clear Hv as [|? ? Hv1 Hv2].
    rewrite quote_body_unit by assumption. rewrite <- app_assoc.
    destruct (Utf16.is_low c) eqn:Hl.
    + rewrite string_body_escape by assumption. rewrite IH by assumption. reflexivity.
    + rewrite string_body_unit by assumption. rewrite IH by assumption. reflexivity.
  - inversion_clear Hv as [|? ? Hv1 Hv2].
    rewrite quote_body_last by assumption.
    rewrite string_body_escape by assumption. reflexivity.
  - inversion_clear Hv as [|? ? Hv1 Hv2]. inversion_clear Hv2 as [|? ? Hv2' Hv3].
    rewrite quote_body_pair by assumption.
    apply is_high_spec in Hc. apply is_low_spec in Hd.
    change ((c :: d :: JSON.quote_body t) ++ 34 :: rest)
      with (c :: d :: (JSON.quote_body t ++ 34 :: rest)).
    rewrite string_body_plain by lia. rewrite string_body_plain by lia.
    rewrite IH by assumption. reflexivity.
  - inversion_clear Hv as [|? ? Hv1 Hv2].
    rewrite quote_body_lone by assumption. rewrite <- app_assoc.
    rewrite string_body_escape by assumption. rewrite IH by assumption. reflexivity.
Qed.

(** What [QuoteJSONString] writes is a well-formed string. *)
Lemma unicode_escape_ascii c :
  code_unit c -> Forall (fun x => 0 <= x < 128) (JSON.unicode_escape c).
Proof.
  unfold code_unit. intros Hc. unfold JSON.unicode_escape.
  pose proof (hex_digit_range (c / 4096) ltac:(zdiv)).
  pose proof (hex_digit_range (c / 256 mod 16) ltac:(zdiv)).
  pose proof (hex_digit_range (c / 16 mod 16) ltac:(zdiv)).
  pose proof (hex_digit_range (c mod 16) ltac:(zdiv)).
  repeat constructor; lia.
Qed.

Lemma ascii_well_formed a :
  Forall (fun x => 0 <= x < 128) a -> Utf16.well_formed a = true /\ valid_string a.
Proof.
  induction 1 as [|x a Hx _ [IH1 IH2]]; [split; [reflexivity|constructor]|].
  split.
  - rewrite well_formed_unit by (apply is_high_false; lia).
    rewrite IH1. replace (Utf16.is_low x) with false; [reflexivity|].
    symmetry. apply is_low_false. lia.
  - constructor; [unfold code_unit; lia | exact IH2].
Qed.

Lemma quote_unit_well_formed c :
  code_unit c -> Utf16.is_high c = false -> Utf16.is_low c = false ->
  Utf16.well_formed (JSON.quote_unit c) = true /\ valid_string (JSON.quote_unit c).
Proof.
  intros Hv Hh Hl. unfold JSON.quote_unit.
  split_ifs; try (apply ascii_well_formed; repeat constructor; lia).
  - apply ascii_well_formed, unicode_escape_ascii, Hv.
  - split.
    + cbn [Utf16.well_formed]. rewrite Hh, Hl. reflexivity.
    + constructor; [exact Hv | constructor].
Qed.

Lemma valid_string_app a b : valid_string a -> valid_string b -> valid_string (a ++ b).
Proof. intros Ha Hb. apply Forall_app. split; assumption. Qed.

Lemma quote_body_well_formed s :
  valid_string s ->
  Utf16.well_formed (JSON.quote_body s) = true /\ valid_string (JSON.quote_body s).
Proof.
  unfold valid_string at 1.
  induction s as [|c t Hc IH|c Hc|c d t Hc Hd IH|c d t Hc Hd IH] using utf16_ind;
    intros Hv.
  - split; [reflexivity|constructor].
  - inversion_clear Hv as [|? ? Hv1 Hv2]. destruct (IH Hv2) as [IH1 IH2].
    rewrite quote_body_unit by assumption.
    destruct (Utf16.is_low c) eqn:Hl.
    + destruct (ascii_well_formed _ (unicode_escape_ascii c Hv1)).
      split; [apply well_formed_app | apply valid_string_app]; assumption.
    + destruct (quote_unit_well_formed c Hv1 Hc Hl).
      split; [apply well_formed_app | apply valid_string_app]; assumption.
  - inversion_clear Hv as [|? ? Hv1 Hv2]. rewrite quote_body_last by assumption.
    apply ascii_well_formed, unicode_escape_ascii, Hv1.
  - inversion_clear Hv as [|? ? Hv1 Hv2]. inversion_clear Hv2 as [|? ? Hv2' Hv3].
    destruct (IH Hv3) as [IH1 IH2].
    rewrite quote_body_pair by assumption. split.
    + rewrite well_formed_pair by assumption. rewrite Hd. exact IH1.
    + constructor; [assumption|]. constructor; assumption.
  - inversion_clear Hv as [|? ? Hv1 Hv2]. destruct (IH Hv2) as [IH1 IH2].
    rewrite quote_body_lone by assumption.
    destruct (ascii_well_formed _ (unicode_escape_ascii c Hv1)).
    split; [apply well_formed_app | apply valid_string_app]; assumption.
Qed.

(** ** The fuel of the JSON parser *)

Lemma skip_ws_length s : (length (JSON.skip_ws s) <= length s)%nat.
Proof.
  induction s as [|c t IH]; [reflexivity|].
  cbn [JSON.skip_ws]. destruct (JSON.is_ws c); cbn [length]; lia.
Qed.

Lemma string_body_length s r rest :
  JSON.string_body s = Some (r, rest) -> (length rest < length s)%nat.
Proof.
  assert (G : forall n s r rest, (length s <= n)%nat ->
            JSON.string_body s = Some (r, rest) -> (length rest < length s)%nat).
  { clear. induction n as [|n IH]; intros s r rest Hn H.
    - destruct s; [discriminate | simpl in Hn; lia].
    - destruct s as [|c t]; [discriminate|]. cbn [JSON.string_body] in H.
      destruct (c =? 34); [injection H as _ <-; cbn [length]; lia|].
      destruct (c =? 92).
      + destruct t as [|e t']; [discriminate|].
        destruct (e =? 117).
        * destruct t' as [|h1 [|h2 [|h3 [|h4 t'']]]]; try discriminate.
          destruct (JSON.hex_value h1), (JSON.hex_value h2), (JSON.hex_value h3),
            (JSON.hex_value h4); try discriminate.
          destruct (JSON.string_body t'') as [[r' rest']|] eqn:E; [|discriminate].
          cbn in H. injection H as _ <-.
          apply IH in E; [|cbn [length] in Hn; lia]. cbn [length]. lia.
        * destruct (JSON.simple_escape e); [|discriminate]. cbn in H.
          destruct (JSON.string_body t') as [[r' rest']|] eqn:E; [|discriminate].
          cbn in H. injection H as _ <-.
          apply IH in E; [|cbn [length] in Hn; lia]. cbn [length]. lia.
      + destruct (c <? 32); [discriminate|].
        destruct (JSON.string_body t) as [[r' rest']|] eqn:E; [|discriminate].
        cbn in H. injection H as _ <-.
        apply IH in E; [|cbn [length] in Hn; lia]. cbn [length]. lia. }
  apply (G (length s)). lia.
Qed.

Lemma digits_length s n k :
  (length (JSON.digits s n k).2 <= length s)%nat.
Proof.
  revert n k. induction s as [|c t IH]; intros n k; [reflexivity|].
  cbn [JSON.digits]. destruct (JSON.is_digit c); [|reflexivity].
  specialize (IH (n * 10 + (c - 48)) (k + 1)). cbn [length]. lia.
Qed.

Lemma integer_part_length s n rest :
  JSON.integer_part s = Some (n, rest) -> (length rest < length s)%nat.
Proof.
  destruct s as [|c t]; [discriminate|]. cbn [JSON.integer_part].
  destruct (c =? 48); [intros [= _ <-]; cbn [length]; lia|].
  destruct (JSON.is_digit c); [|discriminate].
  pose proof (digits_length t (c - 48) 1) as E.
  destruct (JSON.digits t (c - 48) 1) as [[? ?] r]. cbn [snd] in E.
  intros [= _ <-]. cbn [length]. lia.
Qed.

Lemma fraction_part_length int s n k rest :
  JSON.fraction_part int s = Some (n, k, rest) -> (length rest <= length s)%nat.
Proof.
  destruct s as [|c t]; [intros [= _ _ <-]; reflexivity|]. cbn [JSON.fraction_part].
  destruct (c =? 46); [|intros [= _ _ <-]; reflexivity].
  pose proof (digits_length t int 0) as E.
  destruct (JSON.digits t int 0) as [[? k'] r]. cbn [snd] in E.
  destruct (k' =? 0); [discriminate|]. intros [= _ _ <-]. cbn [length]. lia.
Qed.

Lemma exponent_part_length s e rest :
  JSON.exponent_part s = Some (e, rest) -> (length rest <= length s)%nat.
Proof.
  destruct s as [|c t]; [intros [= _ <-]; reflexivity|]. cbn [JSON.exponent_part].
  destruct ((c =? 101) || (c =? 69)); [|intros [= _ <-]; reflexivity].
  assert (H : exists minus t1, (length t1 <= length t)%nat /\
            match t with
            | g :: t' =>
                if g =? 45 then (true, t') else if g =? 43 then (false, t') else (false, t)
            | [] => (false, t)
            end = (minus, t1)).
  { destruct t as [|g t']; [exists false, []; split; reflexivity|].
    destruct (g =? 45); [exists true, t'; split; [cbn [length]; lia | reflexivity]|].
    destruct (g =? 43); [exists false, t'; split; [cbn [length]; lia | reflexivity]|].
    exists false, (g :: t'). split; reflexivity. }
  destruct H as (minus & t1 & Hl & ->).
  pose proof (digits_length t1 0 0) as E.
  destruct (JSON.digits t1 0 0) as [[? k'] r]. cbn [snd] in E.
  destruct (k' =? 0); [discriminate|]. intros [= _ <-]. cbn [length]. lia.
Qed.

Lemma number_length s d rest :
  JSON.number s = Some (d, rest) -> (length rest < length s)%nat.
Proof.
  unfold JSON.number.
  assert (H : exists neg s1, (length s1 <= length s)%nat /\
            match s with
            | c :: t => if c =? 45 then (true, t) else (false, s)
            | [] => (false, s)
            end = (neg, s1)).
  { destruct s as [|c t]; [exists false, []; split; reflexivity|].
    destruct (c =? 45); [exists true, t; split; [cbn [length]; lia | reflexivity]|].
    exists false, (c :: t). split; reflexivity. }
  destruct H as (neg & s1 & Hl & ->).
  destruct (JSON.integer_part s1) as [[int s2]|] eqn:E1; [|discriminate].
  cbn [mbind option_bind].
  destruct (JSON.fraction_part int s2) as [[[coeff places] s3]|] eqn:E2; [|discriminate].
  cbn [mbind option_bind].
  destruct (JSON.exponent_part s3) as [[e s4]|] eqn:E3; [|discriminate].
  cbn [mbind option_bind]. intros [= _ <-].
  apply integer_part_length in E1. apply fraction_part_length in E2.
  apply exponent_part_length in E3. lia.
Qed.

Lemma literal_length w v s v' rest :
  w <> [] -> JSON.literal w v s = Some (v', rest) -> (length rest < length s)%nat.
Proof.
  intros Hw. unfold JSON.literal.
  destruct (string_eqb (take (length w) s) w) eqn:E; [|discriminate].
  intros [= _ <-]. rewrite length_drop.
  destruct w as [|x w]; [congruence|].
  destruct s as [|y s]; [discriminate|]. cbn [length]. lia.
Qed.

Lemma value_frugal fuel :
  JSON.frugal JSON.elements 1 fuel -> JSON.frugal JSON.members 1 fuel ->
  JSON.frugal JSON.value 0 (S fuel).
Proof.
  intros He Hm s v rest H. cbn [JSON.value] in H.
  pose proof (skip_ws_length s) as Hs.
  destruct (JSON.skip_ws s) as [|c t] eqn:Es; [discriminate|]. cbn [length] in Hs.
  destruct (c =? 123) eqn:E1.
  { pose proof (skip_ws_length t) as Ht.
    destruct (JSON.skip_ws t) as [|d t'] eqn:Et; [discriminate|]. cbn [length] in Ht.
    destruct (d =? 125) eqn:E2.
    - injection H as <- <-. split; [lia|].
      intros [|fuel'] Hf; [lia|]. cbn [JSON.value]. replay. reflexivity.
    - destruct (JSON.members fuel (d :: t')) as [[ms rest']|] eqn:Em; [|discriminate].
      cbn [mbind option_bind] in H. injection H as <- <-.
      destruct (Hm _ _ _ Em) as [Hl Hf']. cbn [length] in Hl, Hf'.
      split; [lia|].
      intros [|fuel'] Hf; [lia|]. cbn [JSON.value]. replay.
      rewrite Hf' by lia. reflexivity. }
  destruct (c =? 91) eqn:E2.
  { pose proof (skip_ws_length t) as Ht.
    destruct (JSON.skip_ws t) as [|d t'] eqn:Et; [discriminate|]. cbn [length] in Ht.
    destruct (d =? 93) eqn:E3.
    - injection H as <- <-. split; [lia|].
      intros [|fuel'] Hf; [lia|]. cbn [JSON.value]. replay. reflexivity.
    - destruct (JSON.elements fuel (d :: t')) as [[vs rest']|] eqn:Ee; [|discriminate].
      cbn [mbind option_bind] in H. injection H as <- <-.
      destruct (He _ _ _ Ee) as [Hl Hf']. cbn [length] in Hl, Hf'.
      split; [lia|].
      intros [|fuel'] Hf; [lia|]. cbn [JSON.value]. replay.
      rewrite Hf' by lia. reflexivity. }
  assert (G : forall r : option (JSValue * JSString),
            r = Some (v, rest) ->
            (r = Some (v, rest) -> (length rest < S (length t))%nat) ->
            (forall fuel', JSON.value (S fuel') s = r) ->
            (length rest < length s)%nat /\
            forall fuel', (2 * (length s - length rest) + 0 <= fuel')%nat ->
                          JSON.value fuel' s = Some (v, rest)).
  { intros r Hr Hl Hv. specialize (Hl Hr). split; [lia|].
    intros [|fuel'] Hf; [lia|]. rewrite Hv. exact Hr. }
  destruct (c =? 34) eqn:E3.
  { apply (G _ H).
    - destruct (JSON.string_body t) as [[str rest']|] eqn:Eb; [|discriminate].
      cbn [mbind option_bind]. intros [= _ <-].
      apply string_body_length in Eb. lia.
    - intros fuel'. cbn [JSON.value]. replay. reflexivity. }
  destruct (c =? 116) eqn:E4.
  { apply (G _ H).
    - intros Hx. apply literal_length in Hx; [cbn [length] in Hx; lia | discriminate].
    - intros fuel'. cbn [JSON.value]. replay. reflexivity. }
  destruct (c =? 102) eqn:E5.
  { apply (G _ H).
    - intros Hx. apply literal_length in Hx; [cbn [length] in Hx; lia | discriminate].
    - intros fuel'. cbn [JSON.value]. replay. reflexivity. }
  destruct (c =? 110) eqn:E6.
  { apply (G _ H).
    - intros Hx. apply literal_length in Hx; [cbn [length] in Hx; lia | discriminate].
    - intros fuel'. cbn [JSON.value]. replay. reflexivity. }
  apply (G _ H).
  - destruct (JSON.number (c :: t)) as [[d rest']|] eqn:En; [|discriminate].
    cbn [mbind option_bind]. intros [= _ <-].
    apply number_length in En. cbn [length] in En. lia.
  - intros fuel'. cbn [JSON.value]. replay. reflexivity.
Qed.

Lemma elements_frugal fuel :
  JSON.frugal JSON.value 0 fuel -> JSON.frugal JSON.elements 1 fuel ->
  JSON.frugal JSON.elements 1 (S fuel).
Proof.
  intros Hv He s vs rest H. cbn [JSON.elements] in H.
  destruct (JSON.value fuel s) as [[v rest1]|] eqn:Ev; [|discriminate].
  cbn [mbind option_bind] in H.
  destruct (Hv _ _ _ Ev) as [Hl1 Hf1].
  pose proof (skip_ws_length rest1) as Hs.
  destruct (JSON.skip_ws rest1) as [|c t] eqn:Es; [discriminate|]. cbn [length] in Hs.
  destruct (c =? 44) eqn:E1.
  - destruct (JSON.elements fuel t) as [[vs' rest']|] eqn:Ee; [|discriminate].
    cbn [mbind option_bind] in H. injection H as <- <-.
    destruct (He _ _ _ Ee) as [Hl2 Hf2].
    split; [lia|].
    intros [|fuel'] Hf; [lia|]. cbn [JSON.elements].
    rewrite Hf1 by lia. replay. rewrite Hf2 by lia. reflexivity.
  - destruct (c =? 93) eqn:E2; [|discriminate]. injection H as <- <-.
    split; [lia|].
    intros [|fuel'] Hf; [lia|]. cbn [JSON.elements].
    rewrite Hf1 by lia. replay. reflexivity.
Qed.

Lemma members_frugal fuel :
  JSON.frugal JSON.value 0 fuel -> JSON.frugal JSON.members 1 fuel ->
  JSON.frugal JSON.members 1 (S fuel).
Proof.
  intros Hv Hm s ms rest H. cbn [JSON.members] in H.
  pose proof (skip_ws_length s) as Hs.
  destruct (JSON.skip_ws s) as [|q t] eqn:Es; [discriminate|]. cbn [length] in Hs.
  destruct (q =? 34) eqn:E1; [|discriminate].
  destruct (JSON.string_body t) as [[k rest0]|] eqn:Ek; [|discriminate].
  cbn [mbind option_bind] in H.
  pose proof (string_body_length _ _ _ Ek) as Hk.
  pose proof (skip_ws_length rest0) as Hs0.
  destruct (JSON.skip_ws rest0) as [|colon t1] eqn:Es0; [discriminate|].
  cbn [length] in Hs0.
  destruct (colon =? 58) eqn:E2; [|discriminate].
  destruct (JSON.value fuel t1) as [[v rest1]|] eqn:Ev; [|discriminate].
  cbn [mbind option_bind] in H.
  destruct (Hv _ _ _ Ev) as [Hl1 Hf1].
  pose proof (skip_ws_length rest1) as Hs1.
  destruct (JSON.skip_ws rest1) as [|c t2] eqn:Es1; [discriminate|].
  cbn [length] in Hs1.
  destruct (c =? 44) eqn:E3.
  - destruct (JSON.members fuel t2) as [[ms' rest']|] eqn:Em; [|discriminate].
    cbn [mbind option_bind] in H. injection H as <- <-.
    destruct (Hm _ _ _ Em) as [Hl2 Hf2].
    split; [lia|].
    intros [|fuel'] Hf; [lia|]. cbn [JSON.members]. replay.
    rewrite Hf1 by lia. replay. rewrite Hf2 by lia. reflexivity.
  - destruct (c =? 125) eqn:E4; [|discriminate]. injection H as <- <-.
    split; [lia|].
    intros [|fuel'] Hf; [lia|]. cbn [JSON.members]. replay.
    rewrite Hf1 by lia. replay. reflexivity.
Qed.

Lemma parsers_frugal fuel :
  JSON.frugal JSON.value 0 fuel /\ JSON.frugal JSON.elements 1 fuel /\ JSON.frugal JSON.members 1 fuel.
Proof.
  induction fuel as [|fuel (Hv & He & Hm)].
  - split; [|split]; intros s a rest H; discriminate.
  - split; [apply value_frugal; assumption|].
    split; [apply elements_frugal | apply members_frugal]; assumption.
Qed.

(** [JSON.parse] gives itself enough fuel: it accepts a text exactly when
    some fuel reads one value followed by nothing but white space. *)
Lemma parse_fuel_adequate s v :
  JSON.parse s = Some v <->
  exists fuel rest, JSON.value fuel s = Some (v, rest) /\ JSON.skip_ws rest = [].
Proof.
  unfold JSON.parse. split.
  - destruct (JSON.value (2 * length s + 2) s) as [[v' rest]|] eqn:E; [|discriminate].
    cbn [mbind option_bind].
    destruct (JSON.skip_ws rest) eqn:Er; [|discriminate].
    intros [= <-]. eauto.
  - intros (fuel & rest & H & Hr).
    destruct (parsers_frugal fuel) as (Hv & _).
    destruct (Hv _ _ _ H) as [Hl Hf].
    rewrite Hf by lia. cbn [mbind option_bind]. rewrite Hr. reflexivity.
Qed.

(** ** The state parameter *)

Lemma stringify_state s :
  JSON.stringify [(js "userId", s)] = JSON.state_prefix ++ JSON.quote_body s ++ [34; 125].
Proof.
  unfold JSON.stringify, JSON.stringify_members, JSON.QuoteJSONString.
  change (JSON.quote_body (js "userId")) with [117; 115; 101; 114; 73; 100].
  rewrite <- !app_assoc. reflexivity.
Qed.

Lemma value_state fuel s :
  valid_string s ->
  JSON.value (S (S (S fuel))) (JSON.state_prefix ++ JSON.quote_body s ++ [34; 125]) =
  Some (JObj [(js "userId", JStr s)], []).
Proof.
  intros Hv. unfold JSON.state_prefix.
  cbn [app JSON.value JSON.members JSON.skip_ws JSON.is_ws Z.eqb Pos.eqb orb
       JSON.string_body Z.ltb Z.compare Pos.compare Pos.compare_cont
       mbind option_bind].
  rewrite (string_body_quote s [125] Hv).
  reflexivity.
Qed.

Lemma stringify_well_formed s :
  valid_string s ->
  Utf16.well_formed (JSON.stringify [(js "userId", s)]) = true
  /\ valid_string (JSON.stringify [(js "userId", s)]).
Proof.
  intros Hv. rewrite stringify_state.
  destruct (quote_body_well_formed s Hv) as [Hw Hq].
  destruct (ascii_well_formed JSON.state_prefix) as [Hp1 Hp2];
    [unfold JSON.state_prefix; repeat constructor; lia|].
  destruct (ascii_well_formed [34; 125]) as [Hs1 Hs2]; [repeat constructor; lia|].
  split.
  - apply well_formed_app; [exact Hp1|]. apply well_formed_app; assumption.
  - apply valid_string_app; [exact Hp2|]. apply valid_string_app; assumption.
Qed.

Lemma parse_state s :
  valid_string s ->
  JSON.parse (JSON.stringify [(js "userId", s)]) = Some (JObj [(js "userId", JStr s)]).
Proof.
  intros Hv. unfold JSON.parse. rewrite stringify_state.
  set (text := JSON.state_prefix ++ JSON.quote_body s ++ [34; 125]).
  assert (Hf : exists fuel, (2 * length text + 2)%nat = S (S (S fuel))).
  { exists (2 * length text - 1)%nat. unfold text, JSON.state_prefix. cbn [app length]. lia. }
  destruct Hf as [fuel ->]. unfold text.
  rewrite (value_state _ s Hv). reflexivity.
Qed.

Lemma decodeState_encodeState userId :
  valid_string userId ->
  decodeState (JStr (encodeState userId)) = Normal (JObj [(js "userId", JStr userId)]).
Proof.
  intros Hv. destruct (stringify_well_formed userId Hv) as [Hw Hs].
  unfold decodeState, encodeState.
  rewrite base64_roundtrip by (apply utf8_encode_range, Hs).
  rewrite utf8_roundtrip by assumption.
  rewrite (parse_state userId Hv). reflexivity.
Qed.

(** C3: for every userId, the state that beginAuthorization builds for it
    (the JSON text of the object holding userId, UTF-8 encoded and then
    base64 encoded) decodes, as completeAuthorization decodes it (base64,
    UTF-8, JSON), to an object whose userId property is exactly that
    userId. *)
Theorem state_roundtrip userId :
  valid_string userId ->
  decodeState (JStr (encodeState userId)) = Normal (JObj [(js "userId", JStr userId)])
  /\ (decodeState (JStr (encodeState userId)) ≫= fun decodedState =>
        get decodedState (js "userId")) = Normal (JStr userId).
Proof.
  intros Hv. pose proof (decodeState_encodeState userId Hv) as E.
  split; [exact E|]. rewrite E. reflexivity.
Qed.

Lemma state_roundtrip_witness :
  valid_string (js "u1")
  /\ (decodeState (JStr (encodeState (js "u1"))) ≫= fun decodedState =>
        get decodedState (js "userId")) = Normal (JStr (js "u1")).
Proof.
  assert (Hv : valid_string (js "u1")).
  { repeat constructor; unfold code_unit; vm_compute; intros; discriminate. }
  split; [exact Hv|]. exact (proj2 (state_roundtrip (js "u1") Hv)).
Defined.

(** A state is read by the low bytes of its code units: with U+0165 in the
    place of its first letter, e, the state of user [u1] decodes as
    before; with U+013D, read as the padding sign, in the place of its
    fifth character it ends there and does not parse. *)
Example state_low_bytes :
  hd 0 (encodeState (js "u1")) = 0x65
  /\ decodeState (JStr (0x165 :: tl (encodeState (js "u1"))))
     = Normal (JObj [(js "userId", JStr (js "u1"))])
  /\ decodeState (JStr (take 4 (encodeState (js "u1")) ++ 0x13D :: drop 5 (encodeState (js "u1"))))
     = Thrown SyntaxError.
Proof. repeat split; vm_compute; reflexivity. Qed.

(** ** Running a handler *)

Lemma effects_of_trace env r w es :
  trace (serve env r w) = trace w ++ es -> effects env r w = es.
Proof. intros H. unfold effects. rewrite H. apply drop_app_length. Qed.



Lemma truthy_populated v : truthy v = true -> populated v = true.
Proof. destruct v; simpl; intros; try discriminate; reflexivity. Qed.

(** ** GET /api/github/status *)

Lemma getStatus_effects env caller w u :
  users w !! caller = Some u ->
  effects env (GET_status caller) w = [Responded (Json 200 (status_body u))].
Proof.
  intros H. apply effects_of_trace. run. rewrite H. reflexivity.
Qed.



(** ** POST /api/github/disconnect *)

Lemma disconnect_run env caller w u :
  users w !! caller = Some u ->
  store_accepts env caller (cleared u) = true ->
  route env (POST_disconnect caller) w =
    (Normal tt,
     {| users := <[caller := cleared u]> (users w);
        trace := (trace w ++ [Saved caller]) ++ [Responded disconnect_ack] |}).
Proof.
  intros H Ha. run. rewrite H. cbn. rewrite H. cbn. unfold cleared in Ha. rewrite Ha.
  reflexivity.
Qed.

(** A save the store rejects is answered like any other exception. *)
Lemma disconnect_run_rejected env caller w u :
  users w !! caller = Some u ->
  store_accepts env caller (cleared u) = false ->
  route env (POST_disconnect caller) w =
    (Normal tt,
     {| users := users w; trace := trace w ++ [Responded disconnect_failed] |}).
Proof.
  intros H Ha. run. rewrite H. cbn. rewrite H. cbn. unfold cleared in Ha. rewrite Ha.
  reflexivity.
Qed.

Lemma disconnect_run_missing env caller w :
  users w !! caller = None ->
  route env (POST_disconnect caller) w =
    (Normal tt,
     {| users := users w; trace := trace w ++ [Responded disconnect_failed] |}).
Proof.
  intros H. run. rewrite H. reflexivity.
Qed.

Lemma disconnect_effects env caller w :
  effects env (POST_disconnect caller) w =
  match users w !! caller with
  | Some u =>
      if store_accepts env caller (cleared u)
      then [Saved caller; Responded disconnect_ack]
      else [Responded disconnect_failed]
  | None => [Responded disconnect_failed]
  end.
Proof.
  apply effects_of_trace. unfold serve.
  destruct (users w !! caller) as [u|] eqn:H.
  - destruct (store_accepts env caller (cleared u)) eqn:Ha.
    + rewrite (disconnect_run env _ _ _ H Ha). cbn. rewrite <- app_assoc. reflexivity.
    + rewrite (disconnect_run_rejected env _ _ _ H Ha). reflexivity.
  - rewrite (disconnect_run_missing env _ _ H). reflexivity.
Qed.

Lemma disconnect_users env caller w :
  users (serve env (POST_disconnect caller) w) =
  match users w !! caller with
  | Some u => if store_accepts env caller (cleared u)
              then <[caller := cleared u]> (users w) else users w
  | None => users w
  end.
Proof.
  unfold serve. destruct (users w !! caller) as [u|] eqn:H.
  - destruct (store_accepts env caller (cleared u)) eqn:Ha.
    + rewrite (disconnect_run env _ _ _ H Ha). reflexivity.
    + rewrite (disconnect_run_rejected env _ _ _ H Ha). reflexivity.
  - rewrite (disconnect_run_missing env _ _ H). reflexivity.
Qed.



(** C10: reading from or assigning to an absent record faults; when the
    store has no record for the caller, disconnect answers 500 with its
    failure message and writes nothing; and disconnect answers with the
    success acknowledgment exactly when the caller's record exists (and the
    store accepts the write of the cleared record). *)
Theorem disconnect_needs_record env caller w :
  users w !! caller = None ->
  set_field None AccessToken JUndefined = Thrown TypeError
  /\ effects env (POST_disconnect caller) w = [Responded disconnect_failed]
  /\ users (serve env (POST_disconnect caller) w) = users w
  /\ (forall w', responses (effects env (POST_disconnect caller) w') = [disconnect_ack]
                 <-> exists u, users w' !! caller = Some u
                               /\ store_accepts env caller (cleared u) = true).
Proof.
  intros H. split; [reflexivity|].
  split; [rewrite disconnect_effects, H; reflexivity|].
  split; [rewrite disconnect_users, H; reflexivity|].
  intros w'. rewrite disconnect_effects.
  destruct (users w' !! caller) as [u|]; split; intros Hx.
  - exists u. split; [reflexivity|].
    destruct (store_accepts env caller (cleared u)); [reflexivity|discriminate].
  - destruct Hx as (u' & [= <-] & ->). reflexivity.
  - discriminate.
  - destruct Hx as (? & [=] & _).
Qed.

Lemma disconnect_needs_record_witness :
  users Examples.nobody !! js "u1" = None
  /\ effects Examples.env_ok (POST_disconnect (js "u1")) Examples.nobody
     = [Responded disconnect_failed].
Proof.
  assert (H : users Examples.nobody !! js "u1" = None) by apply lookup_empty.
  split; [exact H|].
  exact (proj1 (proj2 (disconnect_needs_record Examples.env_ok (js "u1") Examples.nobody H))).
Defined.

(** ** GET /api/github/repositories *)

Lemma listRepositories_falsy_token env caller w u :
  users w !! caller = Some u ->
  truthy (githubAccessToken u) = false ->
  effects env (GET_repositories caller) w = [Responded not_connected].
Proof.
  intros H Ht. apply effects_of_trace. run. rewrite H. cbn. rewrite Ht. reflexivity.
Qed.

(** C8: for a caller whose record exists and holds no githubAccessToken,
    listRepositories answers with the not-linked client error, status 400,
    and makes no outbound call. *)
Theorem listRepositories_not_linked env caller w u :
  users w !! caller = Some u ->
  githubAccessToken u = JUndefined ->
  responses (effects env (GET_repositories caller) w) = [not_connected]
  /\ filter is_outbound (effects env (GET_repositories caller) w) = [].
Proof.
  intros H Ht.
  rewrite (listRepositories_falsy_token env caller w u H) by (rewrite Ht; reflexivity).
  split; reflexivity.
Qed.

Lemma listRepositories_not_linked_witness :
  users Examples.one_user !! js "u1" = Some Examples.unlinked_user
  /\ githubAccessToken Examples.unlinked_user = JUndefined
  /\ responses (effects Examples.env_ok (GET_repositories (js "u1")) Examples.one_user)
     = [not_connected]
  /\ filter is_outbound (effects Examples.env_ok (GET_repositories (js "u1")) Examples.one_user)
     = [].
Proof.
  assert (H : users Examples.one_user !! js "u1" = Some Examples.unlinked_user)
    by apply lookup_singleton_eq.
  split; [exact H|]. split; [reflexivity|].
  exact (listRepositories_not_linked Examples.env_ok (js "u1") Examples.one_user
           Examples.unlinked_user H eq_refl).
Defined.

Lemma summary_spec raw : nullish raw = false -> summary raw = Normal (RepositorySummary raw).
Proof. destruct raw; simpl; intros; try discriminate; reflexivity. Qed.

Lemma map_items_summary raw :
  Forall (fun r => nullish r = false) raw ->
  map_items summary raw = Normal (map RepositorySummary raw).
Proof.
  induction 1 as [|r raw Hr _ IH]; [reflexivity|].
  cbn [map_items map]. rewrite (summary_spec r Hr), IH. reflexivity.
Qed.

(** *** The properties of an object *)

Lemma string_eqb_refl a : string_eqb a a = true.
Proof. induction a as [|x a IH]; [reflexivity|]. cbn. rewrite Z.eqb_refl. exact IH. Qed.

Lemma string_eqb_eq a b : string_eqb a b = true -> a = b.
Proof.
  revert b. induction a as [|x a IH]; intros [|y b] H; try discriminate; [reflexivity|].
  cbn in H. apply andb_true_iff in H. destruct H as [Hx Hab].
  apply Z.eqb_eq in Hx. rewrite (IH _ Hab), Hx. reflexivity.
Qed.

Lemma own_property_In k props x : own_property k props = Some x -> In (k, x) props.
Proof.
  induction props as [|[k' v'] rest IH]; [discriminate|]. cbn [own_property].
  destruct (own_property k rest) as [y|].
  - intros [= ->]. right. apply IH. reflexivity.
  - destruct (string_eqb k k') eqn:E; [|discriminate].
    intros [= ->]. left. rewrite (string_eqb_eq _ _ E). reflexivity.
Qed.

Lemma own_property_absent k props :
  (forall v, ~ In (k, v) props) -> own_property k props = None.
Proof.
  induction props as [|[k' v'] rest IH]; [reflexivity|]. intros H. cbn [own_property].
  rewrite IH by (intros v Hv; apply (H v); right; exact Hv).
  destruct (string_eqb k k') eqn:E; [|reflexivity].
  destruct (H v'). left. rewrite (string_eqb_eq _ _ E). reflexivity.
Qed.

Lemma own_property_None k props v : own_property k props = None -> ~ In (k, v) props.
Proof.
  induction props as [|[k' v'] rest IH]; [intros _ []|]. cbn [own_property].
  destruct (own_property k rest) as [y|]; [discriminate|].
  destruct (string_eqb k k') eqn:E; [discriminate|].
  intros _ [[= -> ->]|Hin]; [rewrite string_eqb_refl in E; discriminate|].
  exact (IH eq_refl Hin).
Qed.

Lemma own_property_bound k v props :
  In (k, v) props -> (forall v', In (k, v') props -> v' = v) ->
  own_property k props = Some v.
Proof.
  intros Hin Hu. destruct (own_property k props) as [x|] eqn:E.
  - f_equal. apply Hu, own_property_In, E.
  - destruct (own_property_None _ _ v E Hin).
Qed.

(** Each path of a summary is read from the entry under its name there. *)
Lemma get_summary raw from to :
  In (from, to) renaming ->
  get (RepositorySummary raw) to = Normal (property raw from).
Proof.
  intros H. unfold renaming in H.
  repeat (destruct H as [[= <- <-]|H]; [reflexivity|]). destruct H.
Qed.

(** C9, amended: when the caller's record holds a token and GitHub answers
    the listing with an array of N entries none of which is null or
    undefined, listRepositories makes that one call and answers 200 with an
    array of exactly N summaries in the same order; the summary of an entry
    has the ten paths id, name, fullName, description, private, htmlUrl,
    language, updatedAt, stargazersCount and forksCount and no other; each
    holds the value the entry has under id, name, full_name, description,
    private, html_url, language, updated_at, stargazers_count and
    forks_count, and is undefined where the entry has none. *)
Theorem listRepositories_maps_entries env caller w u raw :
  users w !! caller = Some u ->
  truthy (githubAccessToken u) = true ->
  ToString_throws (githubAccessToken u) = false ->
  github env (RepositoryList (githubAccessToken u)) = Resolves (JArr raw) ->
  Forall (fun r => nullish r = false) raw ->
  let repositories := map RepositorySummary raw in
  effects env (GET_repositories caller) w =
    [Outbound (RepositoryList (githubAccessToken u));
     Responded (Json 200 (JObj [(js "success", JBool true);
                                (js "repositories", JArr repositories)]))]
  /\ length repositories = length raw
  /\ (forall i r, raw !! i = Some r -> repositories !! i = Some (RepositorySummary r))
  /\ (forall i r, raw !! i = Some r ->
        exists paths,
          repositories !! i = Some (JObj paths) /\ map fst paths = map snd renaming)
  /\ (forall i props from to v,
        raw !! i = Some (JObj props) -> In (from, to) renaming ->
        In (from, v) props -> (forall v', In (from, v') props -> v' = v) ->
        exists s, repositories !! i = Some s /\ get s to = Normal v)
  /\ (forall i props from to,
        raw !! i = Some (JObj props) -> In (from, to) renaming ->
        (forall v, ~ In (from, v) props) ->
        exists s, repositories !! i = Some s /\ get s to = Normal JUndefined).
Proof.
  intros H Ht Hs Hg Hraw repositories.
  assert (L : forall i r, raw !! i = Some r ->
                          repositories !! i = Some (RepositorySummary r)).
  { intros i r Hi. unfold repositories. rewrite list_lookup_fmap, Hi. reflexivity. }
  split; [|split; [|split; [|split; [|split]]]].
  - apply effects_of_trace. run. rewrite H. cbn. rewrite Ht. cbn.
    unfold template. rewrite Hs. cbn. rewrite Hg. cbn.
    rewrite (map_items_summary raw Hraw). cbn. rewrite <- app_assoc. reflexivity.
  - apply length_map.
  - exact L.
  - intros i r Hi. eexists. split; [exact (L i r Hi)|]. reflexivity.
  - intros i props from to v Hi Hr Hin Hu. eexists. split; [exact (L _ _ Hi)|].
    rewrite (get_summary _ _ _ Hr). unfold property.
    rewrite (own_property_bound _ _ _ Hin Hu). reflexivity.
  - intros i props from to Hi Hr Hn. eexists. split; [exact (L _ _ Hi)|].
    rewrite (get_summary _ _ _ Hr). unfold property.
    rewrite (own_property_absent _ _ Hn). reflexivity.
Qed.

Lemma listRepositories_maps_entries_witness :
  responses (effects Examples.env_ok (GET_repositories (js "u1")) Examples.one_linked_user)
  = [Json 200
       (JObj [(js "success", JBool true);
              (js "repositories",
               JArr [JObj [(js "id", Examples.number 7);
                           (js "name", JStr (js "hub"));
                           (js "fullName", JStr (js "octo/hub"));
                           (js "description", JUndefined);
                           (js "private", JBool false);
                           (js "htmlUrl", JUndefined);
                           (js "language", JUndefined);
                           (js "updatedAt", JUndefined);
                           (js "stargazersCount", JUndefined);
                           (js "forksCount", JUndefined)];
                     JObj [(js "id", Examples.number 9);
                           (js "name", JUndefined);
                           (js "fullName", JStr (js "octo/echo"));
                           (js "description", JUndefined);
                           (js "private", JUndefined);
                           (js "htmlUrl", JUndefined);
                           (js "language", JUndefined);
                           (js "updatedAt", JUndefined);
                           (js "stargazersCount", Examples.number 3);
                           (js "forksCount", JUndefined)]])])].
Proof.
  assert (H : users Examples.one_linked_user !! js "u1" = Some Examples.linked_user)
    by apply lookup_singleton_eq.
  rewrite (proj1 (listRepositories_maps_entries Examples.env_ok (js "u1")
                    Examples.one_linked_user Examples.linked_user _ H eq_refl eq_refl eq_refl
                    ltac:(repeat constructor))).
  reflexivity.
Defined.

(** C9, as stated, fails: GitHub answers the listing with an array of one
    entry, [null]; reading a property of the entry throws, the route
    answers 500 and no summary is returned. *)
Lemma null_entry_fails_the_listing :
  github Cases.env_null_entry (RepositoryList (githubAccessToken Examples.linked_user))
  = Resolves (JArr [JNull])
  /\ responses (effects Cases.env_null_entry (GET_repositories (js "u1"))
                  Examples.one_linked_user)
     = [Json 500 (message (js "Failed to fetch repositories"))]
  /\ forall repositories,
       responses (effects Cases.env_null_entry (GET_repositories (js "u1"))
                    Examples.one_linked_user)
       <> [Json 200 (JObj [(js "success", JBool true);
                           (js "repositories", JArr repositories)])].
Proof.
  assert (H : responses (effects Cases.env_null_entry (GET_repositories (js "u1"))
                           Examples.one_linked_user)
              = [Json 500 (message (js "Failed to fetch repositories"))])
    by (vm_compute; reflexivity).
  split; [reflexivity|]. split; [exact H|].
  intros repositories. rewrite H. discriminate.
Qed.

(** ** GET /api/github/callback *)

Lemma decodeState_not_returned v : decodeState v <> Returned.
Proof. destruct v; simpl; try discriminate. destruct (JSON.parse _); discriminate. Qed.

Lemma get_not_returned v k : get v k <> Returned.
Proof. destruct v; discriminate. Qed.

Lemma get_total v k : nullish v = false -> exists x, get v k = Normal x.
Proof. destruct v; simpl; intros; try discriminate; eauto. Qed.

Lemma get_nullish v k e : get v k = Thrown e -> nullish v = true.
Proof. destruct v; simpl; intros; try discriminate; reflexivity. Qed.

Lemma get_property v k x : get v k = Normal x -> property v k = x.
Proof. destruct v; simpl; intros [= <-]; reflexivity. Qed.

(** Every call of the callback is one of the two runs, as the verdict
    says. *)
Lemma callback_cases env q w :
  callback_run env q w (serve env (GET_callback q) w) (verdict env (users w) q).
Proof.
  destruct q as [c s e]. run.
  unfold verdict, link_of, checks, check_denied, check_params, check_state, check_token,
    check_profile, check_user, and_then.
  cbn [code state error].
  destruct (truthy (param e)) eqn:He.
  { cbn. apply (run_failed _ _ _ _ oauth_denied []); [reflexivity..|constructor]. }
  destruct (truthy (param c)) eqn:Hc; cbn [negb orb andb].
  2:{ apply (run_failed _ _ _ _ missing_params []); [reflexivity..|constructor]. }
  destruct (truthy (param s)) eqn:Hs; cbn [negb orb andb].
  2:{ apply (run_failed _ _ _ _ missing_params []); [reflexivity..|constructor]. }
  destruct (decodeState (param s)) as [decoded| |x] eqn:Hd.
  2:{ destruct (decodeState_not_returned _ Hd). }
  2:{ apply (run_failed _ _ _ _ invalid_state []); [reflexivity..|constructor]. }
  destruct (get decoded (js "userId")) as [userId| |x] eqn:Hu.
  2:{ destruct (get_not_returned _ _ Hu). }
  2:{ apply (run_failed _ _ _ _ server_error []); [reflexivity..|constructor]. }
  destruct (truthy userId) eqn:Htu; cbn [negb].
  2:{ apply (run_failed _ _ _ _ invalid_state []); [reflexivity..|constructor]. }
  destruct (github env (TokenExchange (param c))) as [data|st] eqn:Hg1.
  2:{ apply (run_failed _ _ _ _ server_error [Outbound (TokenExchange (param c))]);
        [reflexivity| cbn; rewrite <- app_assoc; reflexivity | repeat constructor]. }
  destruct (get data (js "access_token")) as [access_token| |x] eqn:Ha.
  2:{ destruct (get_not_returned _ _ Ha). }
  2:{ apply (run_failed _ _ _ _ server_error [Outbound (TokenExchange (param c))]);
        [reflexivity| cbn; rewrite <- app_assoc; reflexivity | repeat constructor]. }
  destruct (get data (js "error")) as [tokenError| |x] eqn:Hte.
  2:{ destruct (get_not_returned _ _ Hte). }
  2:{ apply (run_failed _ _ _ _ server_error [Outbound (TokenExchange (param c))]);
        [reflexivity| cbn; rewrite <- app_assoc; reflexivity | repeat constructor]. }
  destruct (truthy tokenError || negb (truthy access_token)) eqn:Htok.
  { apply (run_failed _ _ _ _ token_exchange_failed [Outbound (TokenExchange (param c))]);
        [reflexivity| cbn; rewrite <- app_assoc; reflexivity | repeat constructor]. }
  unfold template. destruct (ToString_throws access_token) eqn:Hts.
  { apply (run_failed _ _ _ _ server_error [Outbound (TokenExchange (param c))]);
        [reflexivity| cbn; rewrite <- app_assoc; reflexivity | repeat constructor]. }
  cbn.
  destruct (github env (ProfileFetch access_token)) as [githubUser|st] eqn:Hg2.
  2:{ apply (run_failed _ _ _ _ server_error
              [Outbound (TokenExchange (param c)); Outbound (ProfileFetch access_token)]);
        [reflexivity| cbn; rewrite <- !app_assoc; reflexivity | repeat constructor]. }
  destruct (get githubUser (js "login")) as [login| |x] eqn:Hl.
  2:{ destruct (get_not_returned _ _ Hl). }
  2:{ apply (run_failed _ _ _ _ server_error
              [Outbound (TokenExchange (param c)); Outbound (ProfileFetch access_token)]);
        [reflexivity| cbn; rewrite <- !app_assoc; reflexivity | repeat constructor]. }
  destruct (truthy login) eqn:Htl; cbn [negb].
  2:{ apply (run_failed _ _ _ _ profile_fetch_failed
              [Outbound (TokenExchange (param c)); Outbound (ProfileFetch access_token)]);
        [reflexivity| cbn; rewrite <- !app_assoc; reflexivity | repeat constructor]. }
  assert (Hn : nullish githubUser = false).
  { destruct githubUser; try reflexivity; discriminate. }
  destruct (get_total githubUser (js "id") Hn) as [id Hid].
  destruct (get_total githubUser (js "html_url") Hn) as [html_url Hurl].
  rewrite Hid, Hurl.
  destruct (match userId with JStr key => CastTo key | _ => cast_id env userId end)
    as [key| |] eqn:Hcast.
  2:{ apply (run_failed _ _ _ _ user_not_found
              [Outbound (TokenExchange (param c)); Outbound (ProfileFetch access_token)]);
        [reflexivity| cbn; rewrite <- !app_assoc; reflexivity | repeat constructor]. }
  2:{ apply (run_failed _ _ _ _ server_error
              [Outbound (TokenExchange (param c)); Outbound (ProfileFetch access_token)]);
        [reflexivity| cbn; rewrite <- !app_assoc; reflexivity | repeat constructor]. }
  cbn [users trace].
  destruct (users w !! key) as [u|] eqn:Hk.
  2:{ apply (run_failed _ _ _ _ user_not_found
              [Outbound (TokenExchange (param c)); Outbound (ProfileFetch access_token)]);
        [reflexivity| cbn; rewrite <- !app_assoc; reflexivity | repeat constructor]. }
  cbn. rewrite Hk. cbn.
  rewrite (get_property _ _ _ Hl), (get_property _ _ _ Hid), (get_property _ _ _ Hurl).
  change (store_accepts env key _)
    with (store_accepts env key (linked_record access_token login id html_url (clock env) u)).
  destruct (store_accepts env key
              (linked_record access_token login id html_url (clock env) u)) eqn:Hacc.
  2:{ apply (run_failed _ _ _ _ server_error
              [Outbound (TokenExchange (param c)); Outbound (ProfileFetch access_token)]);
        [reflexivity| cbn; rewrite <- !app_assoc; reflexivity | repeat constructor]. }
  apply (run_connected _ _ _ _ key u access_token githubUser login id html_url);
    try assumption.
  - apply orb_false_iff in Htok. destruct Htok as [_ Htok].
    destruct (truthy access_token); [reflexivity|discriminate].
  - reflexivity.
  - cbn. rewrite <- !app_assoc. reflexivity.
Qed.

(** ** Routes that only read *)

Lemma getStatus_reads_only env caller w :
  users (serve env (GET_status caller) w) = users w.
Proof. run. repeat (break_match; cbn [users]); reflexivity. Qed.

Lemma listRepositories_reads_only env caller w :
  users (serve env (GET_repositories caller) w) = users w.
Proof. run. repeat (break_match; cbn [users]); reflexivity. Qed.

Lemma beginAuthorization_reads_only env token w :
  users (serve env (GET_auth token) w) = users w.
Proof. run. repeat (break_match; cbn [users]); reflexivity. Qed.

(** ** What the callback answers and writes *)

Lemma responses_app a b : responses (a ++ b) = responses a ++ responses b.
Proof. unfold responses. apply omap_app. Qed.

Lemma outbound_no_response calls :
  Forall (fun e => is_outbound e = true) calls -> responses calls = [].
Proof.
  induction 1 as [|e calls He _ IH]; [reflexivity|].
  destruct e; try discriminate. exact IH.
Qed.

Lemma outbound_no_save calls :
  Forall (fun e => is_outbound e = true) calls -> filter is_save calls = [].
Proof.
  induction 1 as [|e calls He _ IH]; [reflexivity|].
  destruct e; try discriminate. exact IH.
Qed.

Lemma outcome_url_inj o o' : outcome_url o = outcome_url o' -> o = o'.
Proof.
  destruct o as [|r], o' as [|r']; try destruct r; try destruct r';
    intros H; try reflexivity; vm_compute in H; discriminate.
Qed.

Lemma callback_response env q w :
  responses (effects env (GET_callback q) w) =
  [Redirect (outcome_url (verdict env (users w) q))].
Proof.
  destruct (callback_cases env q w) as [r calls _ Ht Hc|key u tok gu login id url _ _ _ _ _ _ _ _ _ Ht];
    rewrite (effects_of_trace _ _ _ _ Ht).
  - rewrite responses_app, (outbound_no_response calls Hc). reflexivity.
  - reflexivity.
Qed.

(** C2: whenever completeAuthorization ends with a failure reason, whatever
    the code, the state, the error parameter, the answers of GitHub and
    the answer of the store, the store it leaves is the store it found and
    nothing has been saved: besides the redirect, its only effects are
    calls of GitHub.  The failure of the save itself is among the cases:
    the handler has then assigned the five paths to its document, the
    store has rejected the write, and the record is as it was. *)
Theorem completeAuthorization_failure_leaves_store env q w r :
  responses (effects env (GET_callback q) w) = [Redirect (outcome_url (Failed r))] ->
  users (serve env (GET_callback q) w) = users w
  /\ filter is_save (effects env (GET_callback q) w) = []
  /\ exists calls,
       effects env (GET_callback q) w
       = calls ++ [Responded (Redirect (outcome_url (Failed r)))]
       /\ Forall (fun e => is_outbound e = true) calls.
Proof.
  intros Hr. rewrite callback_response in Hr.
  assert (Hv : verdict env (users w) q = Failed r).
  { apply outcome_url_inj. congruence. }
  destruct (callback_cases env q w) as [r' calls Hu Ht Hc|key u tok gu login id url _ _ _ _ _ _ _ _ _ Ht];
    [|discriminate].
  injection Hv as ->.
  split; [exact Hu|].
  rewrite (effects_of_trace _ _ _ _ Ht).
  split; [rewrite filter_app, (outbound_no_save calls Hc); reflexivity|].
  exists calls. split; [reflexivity|exact Hc].
Qed.

Lemma completeAuthorization_failure_leaves_store_witness :
  let q := Examples.query_for (js "u1") in
  link_of Examples.env_store_down (users Examples.one_user) q
  = Some (js "u1", Examples.linked_user)
  /\ store_accepts Examples.env_store_down (js "u1") Examples.linked_user = false
  /\ responses (effects Examples.env_store_down (GET_callback q) Examples.one_user)
     = [Redirect (outcome_url (Failed server_error))]
  /\ users (serve Examples.env_store_down (GET_callback q) Examples.one_user)
     = users Examples.one_user
  /\ filter is_save (effects Examples.env_store_down (GET_callback q) Examples.one_user) = [].
Proof.
  intros q.
  assert (H : responses (effects Examples.env_store_down (GET_callback q) Examples.one_user)
              = [Redirect (outcome_url (Failed server_error))]).
  { rewrite callback_response. vm_compute. reflexivity. }
  split; [vm_compute; reflexivity|]. split; [reflexivity|]. split; [exact H|].
  destruct (completeAuthorization_failure_leaves_store Examples.env_store_down q
              Examples.one_user server_error H) as (A & B & _).
  split; assumption.
Defined.

Import Examples.


Lemma checks_fail_reason env us q r : checks env us q = Fail r -> r <> server_error.
Proof.
  unfold checks, and_then, check_denied, check_params, check_state, check_token,
    check_profile, check_user.
  repeat break_match; intros [= <-]; discriminate.
Qed.






(** A state that does not parse, or that parses to a value other than
    [null] without a [userId], is answered with [invalid_state]. *)
Lemma state_without_userId env w c s :
  c <> [] -> s <> [] ->
  (JSON.parse (Utf8.decode (Base64.decode s)) = None
   \/ exists decoded,
        JSON.parse (Utf8.decode (Base64.decode s)) = Some decoded
        /\ nullish decoded = false /\ property decoded (js "userId") = JUndefined) ->
  responses (effects env (GET_callback {| code := Some c; state := Some s; error := None |}) w)
  = [Redirect (outcome_url (Failed invalid_state))].
Proof.
  intros Hc Hs H. rewrite callback_response. do 2 f_equal.
  unfold verdict, checks, check_denied, check_params, check_state, and_then, decodeState.
  cbn [code state error param truthy].
  destruct c as [|? ?]; [congruence|]. destruct s as [|x s]; [congruence|]. cbn [andb].
  destruct H as [->|(decoded & -> & Hn & Hp)]; [reflexivity|].
  destruct decoded; try discriminate; try reflexivity.
  cbn [get]. unfold property in Hp. rewrite Hp. reflexivity.
Qed.

(** C5, where the code departs from it: a state that decodes to the JSON
    text null, with a code and no error parameter, is answered with
    server_error, not invalid_state, whatever GitHub and the store hold:
    reading userId from null throws, and the exception reaches the outer
    handler. *)
Theorem null_state_is_server_error env w :
  decodeState (param (state query_null_state)) = Normal JNull
  /\ get JNull (js "userId") = Thrown TypeError
  /\ responses (effects env (GET_callback query_null_state) w) =
     [Redirect (outcome_url (Failed server_error))]
  /\ outcome_url (Failed server_error) <> outcome_url (Failed invalid_state).
Proof.
  split; [vm_compute; reflexivity|]. split; [reflexivity|]. split.
  - rewrite callback_response. reflexivity.
  - intros H. apply outcome_url_inj in H. discriminate.
Qed.

(** ** The linkage invariant *)

Lemma cleared_unlinked u : unlinked (cleared u) = true.
Proof. reflexivity. Qed.

Lemma linked_record_linked tok login id url now u :
  truthy tok = true -> truthy login = true ->
  populated id = true -> populated url = true ->
  linked (linked_record tok login id url now u) = true.
Proof.
  intros Ht Hl Hi Hu. unfold linked, linked_record. cbn [forallb paths read
    githubAccessToken githubUsername githubId githubProfileUrl githubConnectedAt].
  rewrite (truthy_populated _ Ht), (truthy_populated _ Hl), Hi, Hu. reflexivity.
Qed.

Lemma store_consistent_insert us key u :
  store_consistent us -> consistent u = true -> store_consistent (<[key := u]> us).
Proof.
  intros Hs Hu k u' Hk. apply lookup_insert_Some in Hk.
  destruct Hk as [[_ <-]|[_ Hk]]; [exact Hu | exact (Hs _ _ Hk)].
Qed.

(** C1, amended: provided every profile GitHub answers with that carries a
    login also carries an id and an html_url, the five linkage fields of
    every record are all set or all cleared after any request the router
    serves, if they were before it; a completeAuthorization that ends in
    success saves one record and leaves all five of its fields set; a
    disconnect that ends in success leaves all five fields of the caller's
    record cleared. *)
Theorem linkage_all_or_nothing env r w :
  profile_complete env ->
  store_consistent (users w) ->
  store_consistent (users (serve env r w))
  /\ (forall q, r = GET_callback q ->
        responses (effects env r w) = [Redirect (outcome_url Connected)] ->
        exists key u,
          filter is_save (effects env r w) = [Saved key]
          /\ users (serve env r w) !! key = Some u /\ linked u = true)
  /\ (forall caller, r = POST_disconnect caller ->
        responses (effects env r w) = [disconnect_ack] ->
        exists u,
          users (serve env r w) !! caller = Some u /\ unlinked u = true).
Proof.
  intros Hp Hs. destruct r as [token|q|caller|caller|caller].
  - rewrite beginAuthorization_reads_only.
    split; [exact Hs|]. split; intros ? [=].
  - destruct (callback_cases env q w)
      as [r calls Hu Ht Hc|key u tok gu login id url Hk Htok Hg Hl Htl Hid Hurl Hacc Hu Ht].
    + rewrite Hu. split; [exact Hs|]. split; [|intros ? [=]].
      intros q' _ Hr. rewrite (effects_of_trace _ _ _ _ Ht) in Hr.
      rewrite responses_app, (outbound_no_response calls Hc) in Hr.
      change ([Redirect (outcome_url (Failed r))] = [Redirect (outcome_url Connected)]) in Hr.
      assert (Hx : outcome_url (Failed r) = outcome_url Connected) by congruence.
      apply outcome_url_inj in Hx. discriminate.
    + destruct (Hp tok gu login id url Hg Hl Htl Hid Hurl) as [Pid Purl].
      pose proof (linked_record_linked tok login id url (clock env) u Htok Htl Pid Purl) as Hlinked.
      rewrite Hu. split; [|split; [|intros ? [=]]].
      * apply store_consistent_insert; [exact Hs|].
        unfold consistent. rewrite Hlinked. reflexivity.
      * intros q' _ _. exists key, (linked_record tok login id url (clock env) u).
        rewrite (effects_of_trace _ _ _ _ Ht).
        split; [reflexivity|]. split; [apply lookup_insert_eq | exact Hlinked].
  - rewrite getStatus_reads_only. split; [exact Hs|]. split; intros ? [=].
  - rewrite disconnect_effects, disconnect_users.
    destruct (users w !! caller) as [u|] eqn:H.
    + destruct (store_accepts env caller (cleared u)) eqn:Ha.
      * split; [|split; [intros ? [=]|]].
        -- apply store_consistent_insert; [exact Hs|]. reflexivity.
        -- intros c [= <-] _. exists (cleared u).
           split; [apply lookup_insert_eq | reflexivity].
      * split; [exact Hs|]. split; [intros ? [=]|].
        intros c _ [=].
    + split; [exact Hs|]. split; [intros ? [=]|].
      intros c _ [=].
  - rewrite listRepositories_reads_only. split; [exact Hs|]. split; intros ? [=].
Qed.

Lemma linkage_all_or_nothing_witness :
  profile_complete env_ok
  /\ store_consistent (users one_user)
  /\ store_consistent (users (serve env_ok (GET_callback (query_for (js "u1"))) one_user))
  /\ exists key u,
       filter is_save (effects env_ok (GET_callback (query_for (js "u1"))) one_user)
       = [Saved key]
       /\ users (serve env_ok (GET_callback (query_for (js "u1"))) one_user) !! key = Some u
       /\ linked u = true.
Proof.
  assert (Hp : profile_complete env_ok).
  { intros token data login id html_url Hg _ _ Hid Hurl.
    injection Hg as <-. injection Hid as <-. injection Hurl as <-.
    split; reflexivity. }
  assert (Hs : store_consistent (users one_user)).
  { intros k u Hk. unfold one_user in Hk. cbn [users] in Hk.
    apply lookup_singleton_Some in Hk. destruct Hk as [_ <-]. reflexivity. }
  destruct (linkage_all_or_nothing env_ok (GET_callback (query_for (js "u1"))) one_user Hp Hs)
    as (A & B & _).
  split; [exact Hp|]. split; [exact Hs|]. split; [exact A|].
  apply (B (query_for (js "u1")) eq_refl). vm_compute. reflexivity.
Defined.

(** C1, as stated, fails: GitHub answers with a profile that has a login
    and nothing else; the callback ends in success and leaves the record,
    until then all cleared, with a username and no id. *)
Lemma login_only_profile_links_partially :
  let w' := serve env_login_only (GET_callback (query_for (js "u1"))) one_user in
  store_consistent (users one_user)
  /\ responses (effects env_login_only (GET_callback (query_for (js "u1"))) one_user)
     = [Redirect (outcome_url Connected)]
  /\ (exists u, users w' !! js "u1" = Some u
        /\ populated (githubUsername u) = true
        /\ populated (githubId u) = false
        /\ consistent u = false)
  /\ ~ store_consistent (users w').
Proof.
  assert (Hrec : exists u,
    users (serve env_login_only (GET_callback (query_for (js "u1"))) one_user) !! js "u1" = Some u
    /\ populated (githubUsername u) = true /\ populated (githubId u) = false
    /\ consistent u = false).
  { eexists. split; [vm_compute; reflexivity|]. repeat split. }
  split; [|split; [|split]].
  - intros k u Hk. unfold one_user in Hk. cbn [users] in Hk.
    apply lookup_singleton_Some in Hk. destruct Hk as [_ <-]. reflexivity.
  - vm_compute. reflexivity.
  - exact Hrec.
  - intros Hc. destruct Hrec as (u & Hu & _ & _ & Hn).
    rewrite (Hc _ _ Hu) in Hn. discriminate.
Qed.

(** ** The flow, end to end *)

Lemma callback_url_component :
  URI.encodeURIComponent GITHUB_CALLBACK_URL =
  Normal (js "http%3A%2F%2Flocalhost%3A5000%2Fapi%2Fgithub%2Fcallback").
Proof. vm_compute. reflexivity. Qed.

(** With a client id configured, [beginAuthorization] redirects to GitHub
    with the state of the caller's id and touches nothing. *)
Lemma beginAuthorization_redirect env user client_id w :
  GITHUB_CLIENT_ID env = Some client_id -> client_id <> [] ->
  beginAuthorization env user w =
  (Normal tt,
   {| users := users w;
      trace := trace w ++
        [Responded (Redirect (authorize_url client_id (encodeState (_id user))))] |}).
Proof.
  intros H Hc. unfold beginAuthorization. rewrite H.
  destruct client_id as [|c client_id]; [congruence|].
  rewrite callback_url_component. reflexivity.
Qed.

(** The state begun for a user passes the state check of the callback with
    that user's id. *)
Lemma check_state_begun userId c e :
  valid_string userId -> userId <> [] ->
  check_state {| code := c; state := Some (encodeState userId); error := e |}
  = Pass (JStr userId).
Proof.
  intros Hv Hn. unfold check_state. cbn [state param].
  rewrite (decodeState_encodeState userId Hv).
  destruct userId; [congruence|]. reflexivity.
Qed.

(** The example of the specification: state of user [u1], code [abc], a
    token and a profile from GitHub; the record ends linked to [octo] and
    the browser is sent to the success URL. *)
Example link_u1 :
  let w := serve env_ok (GET_callback (query_for (js "u1"))) one_user in
  users w !! js "u1" = Some linked_user
  /\ responses (trace w) = [Redirect FRONTEND_SUCCESS_URL].
Proof. split; vm_compute; reflexivity. Qed.

(** Status after linking, and after disconnecting. *)
Example link_status_disconnect_status :
  let w1 := serve env_ok (GET_callback (query_for (js "u1"))) one_user in
  let w2 := serve env_ok (POST_disconnect (js "u1")) w1 in
  responses (effects env_ok (GET_status (js "u1")) w1)
  = [Json 200 (JObj [(js "success", JBool true); (js "connected", JBool true);
                     (js "githubUsername", JStr (js "octo"));
                     (js "connectedAt", JDate 1700000000000)])]
  /\ responses (effects env_ok (GET_status (js "u1")) w2)
     = [Json 200 (JObj [(js "success", JBool true); (js "connected", JBool false);
                        (js "githubUsername", JNull); (js "connectedAt", JNull)])]
  /\ users w2 = users one_user.
Proof. repeat split; vm_compute; reflexivity. Qed.

(** ** The callback, step by step *)

Lemma callback_table env q w :
  serve env (GET_callback q) w =
  {| users := callback_store env (users w) q;
     trace := trace w ++ callback_effects env (users w) q |}.
Proof.
  destruct q as [c s e]. run.
  unfold callback_store, callback_effects, saved, outbound_calls, early_checks, verdict,
    link_of, checks, check_denied, check_params, check_state, check_token, check_profile, check_user,
    and_then.
  cbn [code state error].
  destruct (truthy (param e)) eqn:He; [reflexivity|].
  destruct (truthy (param c)) eqn:Hc; cbn [negb orb andb]; [|reflexivity].
  destruct (truthy (param s)) eqn:Hs; cbn [negb orb andb]; [|reflexivity].
  destruct (decodeState (param s)) as [decoded| |x] eqn:Hd;
    [|destruct (decodeState_not_returned _ Hd)|reflexivity].
  destruct (get decoded (js "userId")) as [userId| |x] eqn:Hu;
    [|destruct (get_not_returned _ _ Hu)|reflexivity].
  destruct (truthy userId) eqn:Htu; cbn [negb]; [|reflexivity].
  destruct (github env (TokenExchange (param c))) as [data|st] eqn:Hg1;
    [|cbn; rewrite <- ?app_assoc; reflexivity].
  destruct (get data (js "access_token")) as [access_token| |x] eqn:Ha;
    [|destruct (get_not_returned _ _ Ha)|cbn; rewrite <- ?app_assoc; reflexivity].
  destruct (get data (js "error")) as [tokenError| |x] eqn:Hte;
    [|destruct (get_not_returned _ _ Hte)|cbn; rewrite <- ?app_assoc; reflexivity].
  destruct (truthy tokenError || negb (truthy access_token)) eqn:Htok;
    [cbn; rewrite <- ?app_assoc; reflexivity|].
  unfold template. destruct (ToString_throws access_token) eqn:Hts;
    [cbn; rewrite <- ?app_assoc; reflexivity|].
  cbn.
  destruct (github env (ProfileFetch access_token)) as [githubUser|st] eqn:Hg2;
    [|cbn; rewrite <- ?app_assoc; reflexivity].
  destruct (get githubUser (js "login")) as [login| |x] eqn:Hl;
    [|destruct (get_not_returned _ _ Hl)|cbn; rewrite <- ?app_assoc; reflexivity].
  destruct (truthy login) eqn:Htl; cbn [negb];
    [|cbn; rewrite <- ?app_assoc; reflexivity].
  assert (Hn : nullish githubUser = false).
  { destruct githubUser; try reflexivity; discriminate. }
  destruct (get_total githubUser (js "id") Hn) as [id Hid].
  destruct (get_total githubUser (js "html_url") Hn) as [html_url Hurl].
  rewrite Hid, Hurl.
  rewrite (get_property _ _ _ Hl), (get_property _ _ _ Hid), (get_property _ _ _ Hurl).
  destruct (match userId with JStr key => CastTo key | _ => cast_id env userId end)
    as [key| |] eqn:Hcast; [|cbn; rewrite <- ?app_assoc; reflexivity..].
  cbn [users trace].
  destruct (users w !! key) as [u|] eqn:Hk; [|cbn; rewrite <- ?app_assoc; reflexivity].
  cbn. rewrite ?Hk. cbn.
  change (linked_record access_token login id html_url (clock env) u)
    with {| githubAccessToken := access_token; githubUsername := login; githubId := id;
            githubProfileUrl := html_url; githubConnectedAt := JDate (clock env);
            account := account u |}.
  match goal with
  | |- context [store_accepts env key ?r] => destruct (store_accepts env key r)
  end; cbn; rewrite <- ?app_assoc; reflexivity.
Qed.

(** ** The other routes, step by step *)

Lemma auth_table env token w :
  sane env ->
  serve env (GET_auth token) w =
  {| users := users w; trace := trace w ++ [Responded (auth_answer env (users w) token)] |}.
Proof.
  intros Hsane. unfold auth_answer, authenticate. run.
  destruct token as [[|c t]|]; cbn [param truthy negb]; try reflexivity.
  cbn [default from_option]. unfold id.
  destruct (jwt_verify env (c :: t)) as [decoded| |x] eqn:Hj;
    [|destruct (Hsane _ Hj)|reflexivity].
  destruct (get decoded (js "id")) as [id| |x] eqn:Hid;
    [|destruct (get_not_returned _ _ Hid)|reflexivity].
  destruct (match id with JStr key => CastTo key | _ => cast_id env id end)
    as [key| |] eqn:Hcast; try reflexivity.
  destruct (users w !! key) as [u|] eqn:Hk; [|reflexivity].
  cbn. destruct (GITHUB_CLIENT_ID env) as [[|x cid]|] eqn:Hc; reflexivity.
Qed.

Lemma status_table env caller w :
  serve env (GET_status caller) w =
  {| users := users w; trace := trace w ++ [Responded (status_answer (users w) caller)] |}.
Proof.
  unfold status_answer. run. destruct (users w !! caller) as [u|]; reflexivity.
Qed.

Lemma map_items_not_returned f items :
  (forall x, f x <> Returned) -> map_items f items <> Returned.
Proof.
  intros Hf. induction items as [|x items IH]; [discriminate|].
  cbn [map_items]. specialize (Hf x). destruct (f x); try congruence; cbn.
  - destruct (map_items f items); try congruence; discriminate.
  - discriminate.
Qed.

Lemma summary_not_returned repo : summary repo <> Returned.
Proof. destruct repo; discriminate. Qed.

Lemma array_map_summary_not_returned data : array_map summary data <> Returned.
Proof.
  destruct data; try discriminate. cbn [array_map].
  pose proof (map_items_not_returned summary items summary_not_returned).
  destruct (map_items summary items); try congruence; discriminate.
Qed.

Lemma summary_throws repo e : summary repo = Thrown e -> e = TypeError.
Proof. destruct repo; cbn; congruence. Qed.

Lemma map_items_summary_throws items e :
  map_items summary items = Thrown e -> e = TypeError.
Proof.
  induction items as [|x items IH]; [discriminate|]. cbn [map_items].
  destruct (summary x) eqn:Hx; cbn; try discriminate.
  - destruct (map_items summary items); cbn; try discriminate.
    intros [= <-]. apply IH. reflexivity.
  - intros [= <-]. apply (summary_throws _ _ Hx).
Qed.

Lemma array_map_summary_throws data e :
  array_map summary data = Thrown e -> e = TypeError.
Proof.
  destruct data; cbn [array_map]; try congruence.
  destruct (map_items summary items) eqn:Hm; cbn; try discriminate.
  intros [= <-]. apply (map_items_summary_throws _ _ Hm).
Qed.

Lemma repositories_table env caller w :
  serve env (GET_repositories caller) w =
  {| users := users w;
     trace := trace w ++ repositories_effects env (users w) caller |}.
Proof.
  unfold repositories_effects, listing_answer. run.
  destruct (users w !! caller) as [u|]; [|reflexivity].
  cbn. destruct (truthy (githubAccessToken u)); cbn [negb]; [|reflexivity].
  unfold template. destruct (ToString_throws (githubAccessToken u)); [reflexivity|].
  cbn. destruct (github env (RepositoryList (githubAccessToken u))) as [data|[status|]].
  - pose proof (array_map_summary_not_returned data) as Hr.
    destruct (array_map summary data) as [repositories| |x] eqn:Hm; try congruence.
    + cbn. rewrite <- ?app_assoc. reflexivity.
    + rewrite (array_map_summary_throws _ _ Hm). cbn. rewrite <- ?app_assoc. reflexivity.
  - destruct (Z.eqb_spec status 401) as [->|Hne];
      [cbn; rewrite <- ?app_assoc; reflexivity|].
    destruct status as [|p|p]; try (cbn; rewrite <- ?app_assoc; reflexivity).
    repeat (destruct p as [p|p|]; try (cbn; rewrite <- ?app_assoc; reflexivity));
      congruence.
  - cbn. rewrite <- ?app_assoc. reflexivity.
Qed.

Lemma callback_effects_eq env q w :
  effects env (GET_callback q) w = callback_effects env (users w) q.
Proof. apply effects_of_trace. rewrite callback_table. reflexivity. Qed.

Lemma callback_users_eq env q w :
  users (serve env (GET_callback q) w) = callback_store env (users w) q.
Proof. rewrite callback_table. reflexivity. Qed.

Lemma link_of_inv env us q key record :
  link_of env us q = Some (key, record) ->
  exists access_token githubUser u,
    checks env us q = Pass key
    /\ check_token env q = Pass access_token
    /\ github env (ProfileFetch access_token) = Resolves githubUser
    /\ us !! key = Some u
    /\ record = linked_record access_token (property githubUser (js "login"))
                 (property githubUser (js "id")) (property githubUser (js "html_url"))
                 (clock env) u.
Proof.
  unfold link_of. destruct (checks env us q) as [k|r|] eqn:Hc; try discriminate.
  destruct (check_token env q) as [tok|r|] eqn:Ht; try discriminate.
  destruct (github env (ProfileFetch tok)) as [gu|] eqn:Hg; try discriminate.
  destruct (us !! k) as [u|] eqn:Hk; try discriminate.
  intros [= <- <-]. exists tok, gu, u. auto.
Qed.

Lemma link_of_failed env us q :
  (forall key, checks env us q <> Pass key) -> link_of env us q = None.
Proof.
  unfold link_of. intros H.
  destruct (checks env us q) as [k|r|]; [destruct (H k eq_refl)|reflexivity..].
Qed.

Lemma link_of_passed env us q key access_token githubUser u :
  checks env us q = Pass key ->
  check_token env q = Pass access_token ->
  github env (ProfileFetch access_token) = Resolves githubUser ->
  us !! key = Some u ->
  link_of env us q =
  Some (key, linked_record access_token (property githubUser (js "login"))
               (property githubUser (js "id")) (property githubUser (js "html_url"))
               (clock env) u).
Proof. unfold link_of. intros -> -> -> ->. reflexivity. Qed.

(** A call on which a step fails or faults saves nothing. *)
Lemma callback_not_passed env us q :
  (forall key, checks env us q <> Pass key) ->
  callback_store env us q = us /\ saved env us q = []
  /\ verdict env us q = match checks env us q with
                        | Fail r => Failed r
                        | _ => Failed server_error
                        end.
Proof.
  intros H. unfold callback_store, saved, verdict. rewrite (link_of_failed _ _ _ H).
  destruct (checks env us q) as [k|r|]; [destruct (H k eq_refl)|auto..].
Qed.

Lemma saved_only env us q :
  filter is_outbound (saved env us q) = []
  /\ filter is_save (saved env us q) = saved env us q
  /\ responses (saved env us q) = [].
Proof.
  unfold saved. destruct (link_of env us q) as [[key record]|];
    [destruct (store_accepts env key record)|]; repeat split.
Qed.

Lemma auth_effects_eq env token w :
  sane env ->
  effects env (GET_auth token) w = [Responded (auth_answer env (users w) token)].
Proof. intros H. apply effects_of_trace. rewrite auth_table by exact H. reflexivity. Qed.

Lemma status_effects_eq env caller w :
  effects env (GET_status caller) w = [Responded (status_answer (users w) caller)].
Proof. apply effects_of_trace. rewrite status_table. reflexivity. Qed.

Lemma repositories_effects_eq env caller w :
  effects env (GET_repositories caller) w = repositories_effects env (users w) caller.
Proof. apply effects_of_trace. rewrite repositories_table. reflexivity. Qed.

Lemma sane_session listing client : sane (Cases.env_of client listing).
Proof.
  intros token. cbn. unfold Cases.verify_session.
  destruct (string_eqb token (js "session")); discriminate.
Qed.

Lemma sane_examples token profile : sane (env_with token profile).
Proof. intros t. discriminate. Qed.

(** ** GET /api/github/auth *)

Lemma authenticate_Some env us token key :
  authenticate env us token = Some key ->
  exists t decoded id,
    token = Some t /\ t <> [] /\ jwt_verify env t = Normal decoded
    /\ get decoded (js "id") = Normal id
    /\ match id with JStr k => CastTo k | _ => cast_id env id end = CastTo key
    /\ is_Some (us !! key).
Proof.
  unfold authenticate. destruct token as [[|c t]|]; try discriminate.
  destruct (jwt_verify env (c :: t)) as [decoded| |] eqn:Hj; try discriminate.
  destruct (get decoded (js "id")) as [id| |] eqn:Hi; try discriminate.
  destruct (match id with JStr k => CastTo k | _ => cast_id env id end) as [k| |] eqn:E;
    try discriminate.
  destruct (us !! k) as [u|] eqn:Hk; [|discriminate].
  intros [= <-]. exists (c :: t), decoded, id.
  split; [reflexivity|]. split; [discriminate|].
  do 3 (split; [assumption|]). rewrite Hk. eexists; reflexivity.
Qed.

(** X1: the authorization route sends the browser to GitHub only for a
    caller with a session: when GET /api/github/auth answers with a
    redirect, the query carried a non-empty token, jwt.verify accepted it,
    the id of its payload is the key of a stored user, a client id is
    configured, and the URL is the authorize URL whose state encodes that
    user's key. *)
Theorem auth_redirects_only_a_session env token w url :
  sane env ->
  In (Responded (Redirect url)) (effects env (GET_auth token) w) ->
  exists t decoded id key client_id,
    token = Some t /\ t <> []
    /\ jwt_verify env t = Normal decoded
    /\ get decoded (js "id") = Normal id
    /\ match id with JStr k => CastTo k | _ => cast_id env id end = CastTo key
    /\ is_Some (users w !! key)
    /\ GITHUB_CLIENT_ID env = Some client_id /\ client_id <> []
    /\ url = authorize_url client_id (encodeState key).
Proof.
  intros Hsane Hin. rewrite auth_effects_eq in Hin by exact Hsane.
  destruct Hin as [Hin|[]]. unfold auth_answer in Hin.
  destruct (authenticate env (users w) token) as [key|] eqn:Ha.
  - destruct (authenticate_Some _ _ _ _ Ha) as (t & decoded & id & H1 & H2 & H3 & H4 & H5 & H6).
    destruct (GITHUB_CLIENT_ID env) as [[|x cid]|] eqn:Hc; try discriminate.
    exists t, decoded, id, key, (x :: cid).
    repeat split; try assumption; try discriminate. congruence.
  - destruct (truthy (param token)); discriminate.
Qed.

Lemma auth_redirects_only_a_session_witness :
  sane Cases.env_session
  /\ In (Responded (Redirect (authorize_url (js "client") (encodeState (js "u1")))))
        (effects Cases.env_session (GET_auth (Some (js "session"))) one_user)
  /\ exists t decoded id key client_id,
       Some (js "session") = Some t /\ t <> []
       /\ jwt_verify Cases.env_session t = Normal decoded
       /\ get decoded (js "id") = Normal id
       /\ match id with JStr k => CastTo k | _ => cast_id Cases.env_session id end = CastTo key
       /\ is_Some (users one_user !! key)
       /\ GITHUB_CLIENT_ID Cases.env_session = Some client_id /\ client_id <> []
       /\ authorize_url (js "client") (encodeState (js "u1"))
          = authorize_url client_id (encodeState key).
Proof.
  assert (Hs : sane Cases.env_session) by apply sane_session.
  assert (Hin : In (Responded (Redirect (authorize_url (js "client") (encodeState (js "u1")))))
                   (effects Cases.env_session (GET_auth (Some (js "session"))) one_user)).
  { vm_compute. left. reflexivity. }
  split; [exact Hs|]. split; [exact Hin|].
  exact (auth_redirects_only_a_session Cases.env_session (Some (js "session")) one_user _ Hs Hin).
Defined.

(** X2: without a session GET /api/github/auth answers 401 and does nothing
    else: when the token is absent or empty the answer is the no-token
    message, and when the token does not verify, or its id matches no stored
    user, the answer is the invalid-token message; the store is left as it
    was. *)
Theorem auth_rejects_without_session env token w :
  sane env ->
  authenticate env (users w) token = None ->
  effects env (GET_auth token) w
  = [Responded (match token with
                | None | Some [] => no_token
                | Some _ => invalid_token
                end)]
  /\ users (serve env (GET_auth token) w) = users w.
Proof.
  intros Hsane Ha. split.
  - rewrite auth_effects_eq by exact Hsane. unfold auth_answer. rewrite Ha.
    destruct token as [[|c t]|]; reflexivity.
  - rewrite auth_table by exact Hsane. reflexivity.
Qed.

Lemma auth_rejects_without_session_witness :
  sane Cases.env_unconfigured
  /\ authenticate Cases.env_unconfigured (users one_user) (Some (js "stolen")) = None
  /\ effects Cases.env_unconfigured (GET_auth (Some (js "stolen"))) one_user
     = [Responded invalid_token].
Proof.
  assert (Hs : sane Cases.env_unconfigured) by apply sane_session.
  split; [exact Hs|]. split; [reflexivity|].
  exact (proj1 (auth_rejects_without_session Cases.env_unconfigured (Some (js "stolen"))
                  one_user Hs eq_refl)).
Defined.

(** X3: for a non-empty token that verifies to the id of a stored user,
    GET /api/github/auth answers 500 with the not-configured message when
    no client id is set (absent or empty), and otherwise redirects to the
    authorize URL with the state of that user; the store is left as it
    was. *)
Theorem auth_redirects_a_session env t decoded key u w :
  t <> [] ->
  jwt_verify env t = Normal decoded ->
  get decoded (js "id") = Normal (JStr key) ->
  users w !! key = Some u ->
  effects env (GET_auth (Some t)) w
  = [Responded (match GITHUB_CLIENT_ID env with
                | None | Some [] => not_configured
                | Some client_id => Redirect (authorize_url client_id (encodeState key))
                end)]
  /\ users (serve env (GET_auth (Some t)) w) = users w.
Proof.
  intros Ht Hj Hi Hk.
  assert (E : route env (GET_auth (Some t)) w =
              (match GITHUB_CLIENT_ID env with
               | None | Some [] => Returned
               | Some _ => Normal tt
               end,
               {| users := users w;
                  trace := trace w ++
                    [Responded (match GITHUB_CLIENT_ID env with
                                | None | Some [] => not_configured
                                | Some client_id =>
                                    Redirect (authorize_url client_id (encodeState key))
                                end)] |})).
  { run. destruct t as [|c t]; [congruence|]. cbn [param truthy negb default from_option].
    unfold id. rewrite Hj, Hi. cbn. rewrite Hk. cbn.
    destruct (GITHUB_CLIENT_ID env) as [[|x cid]|]; reflexivity. }
  split.
  - apply effects_of_trace. unfold serve. rewrite E. reflexivity.
  - unfold serve. rewrite E. reflexivity.
Qed.

Lemma auth_redirects_a_session_witness :
  effects Cases.env_session (GET_auth (Some (js "session"))) one_user
  = [Responded (Redirect (authorize_url (js "client") (encodeState (js "u1"))))]
  /\ effects Cases.env_unconfigured (GET_auth (Some (js "session"))) one_user
     = [Responded not_configured].
Proof.
  split.
  - exact (proj1 (auth_redirects_a_session Cases.env_session (js "session")
                    (JObj [(js "id", JStr (js "u1"))]) (js "u1") unlinked_user one_user
                    ltac:(discriminate) eq_refl eq_refl (lookup_singleton_eq _ _))).
  - exact (proj1 (auth_redirects_a_session Cases.env_unconfigured (js "session")
                    (JObj [(js "id", JStr (js "u1"))]) (js "u1") unlinked_user one_user
                    ltac:(discriminate) eq_refl eq_refl (lookup_singleton_eq _ _))).
Defined.

(** ** The router *)

Lemma callback_effects_responses env us q :
  responses (callback_effects env us q) = [Redirect (outcome_url (verdict env us q))].
Proof.
  unfold callback_effects. rewrite !responses_app.
  rewrite (proj2 (proj2 (saved_only env us q))).
  unfold outbound_calls.
  destruct (early_checks q); [destruct (check_token env q)|..]; reflexivity.
Qed.

Lemma repositories_effects_responses env us caller :
  exists answer, responses (repositories_effects env us caller) = [answer].
Proof.
  unfold repositories_effects. destruct (us !! caller) as [u|]; [|eexists; reflexivity].
  cbn. destruct (negb (truthy (githubAccessToken u))); [eexists; reflexivity|].
  destruct (ToString_throws (githubAccessToken u)); eexists; reflexivity.
Qed.

(** X4: every request of the router is answered exactly once, whatever the
    store holds and whatever GitHub replies: no path of a handler ends
    without a response and none sends two. *)
Theorem every_request_is_answered_once env r w :
  sane env -> exists answer, responses (effects env r w) = [answer].
Proof.
  intros Hsane. destruct r as [token|q|caller|caller|caller].
  - rewrite auth_effects_eq by exact Hsane. eexists; reflexivity.
  - rewrite callback_effects_eq, callback_effects_responses. eexists; reflexivity.
  - rewrite status_effects_eq. eexists; reflexivity.
  - rewrite disconnect_effects.
    destruct (users w !! caller) as [u|];
      [destruct (store_accepts env caller (cleared u))|]; eexists; reflexivity.
  - rewrite repositories_effects_eq. apply repositories_effects_responses.
Qed.

Lemma every_request_is_answered_once_witness :
  sane env_ok
  /\ exists answer,
       responses (effects env_ok (GET_callback (query_for (js "u1"))) one_user) = [answer].
Proof.
  assert (Hs : sane env_ok) by apply sane_examples.
  split; [exact Hs|].
  exact (every_request_is_answered_once env_ok (GET_callback (query_for (js "u1"))) one_user Hs).
Defined.

(** X5: the routes other than the callback and the disconnect leave the
    store as they found it and save no record; and those other than the
    callback and the repository listing make no call of GitHub. *)
Theorem reading_routes_write_nothing env r w :
  sane env ->
  writes r = false ->
  users (serve env r w) = users w
  /\ filter is_save (effects env r w) = []
  /\ (calls_github r = false -> filter is_outbound (effects env r w) = []).
Proof.
  intros Hsane Hr. destruct r as [token|q|caller|caller|caller]; try discriminate.
  - rewrite auth_effects_eq, auth_table by exact Hsane. repeat split.
  - rewrite status_effects_eq, status_table. repeat split.
  - rewrite repositories_effects_eq, repositories_table. split; [reflexivity|].
    split; [|discriminate].
    unfold repositories_effects. destruct (users w !! caller) as [u|]; [|reflexivity].
    cbn. destruct (negb (truthy (githubAccessToken u))); [reflexivity|].
    destruct (ToString_throws (githubAccessToken u)); reflexivity.
Qed.

Lemma reading_routes_write_nothing_witness :
  sane Cases.env_session
  /\ users (serve Cases.env_session (GET_repositories (js "u1")) one_linked_user)
     = users one_linked_user
  /\ filter is_save (effects Cases.env_session (GET_repositories (js "u1")) one_linked_user) = [].
Proof.
  assert (Hs : sane Cases.env_session) by apply sane_session.
  split; [exact Hs|].
  destruct (reading_routes_write_nothing Cases.env_session (GET_repositories (js "u1"))
              one_linked_user Hs eq_refl) as (A & B & _).
  split; assumption.
Defined.

(** ** GET /api/github/callback: calls and writes *)

Lemma checks_early env us q :
  checks env us q =
  and_then (early_checks q) (fun userId =>
  and_then (check_token env q) (fun access_token =>
  and_then (check_profile env access_token) (fun _ =>
  check_user env us userId))).
Proof.
  unfold checks, early_checks, and_then.
  destruct (check_denied q), (check_params q), (check_state q); reflexivity.
Qed.

Lemma check_token_fail env q r : check_token env q = Fail r -> r = token_exchange_failed.
Proof. unfold check_token. repeat break_match; congruence. Qed.

Lemma check_profile_fail env tok r : check_profile env tok = Fail r -> r = profile_fetch_failed.
Proof. unfold check_profile. repeat break_match; congruence. Qed.

Lemma check_user_fail env us uid r : check_user env us uid = Fail r -> r = user_not_found.
Proof. unfold check_user. repeat break_match; congruence. Qed.

Lemma late_reason env us q userId r :
  early_checks q = Pass userId ->
  checks env us q = Fail r ->
  r = token_exchange_failed \/ r = profile_fetch_failed \/ r = user_not_found.
Proof.
  intros He. rewrite checks_early, He. cbn [and_then].
  destruct (check_token env q) as [tok|r'|] eqn:Ht; cbn [and_then]; try discriminate.
  - destruct (check_profile env tok) as [gu|r'|] eqn:Hp; cbn [and_then]; try discriminate.
    + intros H. apply check_user_fail in H. auto.
    + intros [= <-]. apply check_profile_fail in Hp. auto.
  - intros [= <-]. apply check_token_fail in Ht. auto.
Qed.

Lemma outbound_calls_only env q :
  filter is_outbound (outbound_calls env q) = outbound_calls env q
  /\ filter is_save (outbound_calls env q) = []
  /\ responses (outbound_calls env q) = [].
Proof.
  unfold outbound_calls. destruct (early_checks q); [destruct (check_token env q)|..];
    repeat split.
Qed.

(** X6: when the callback fails with oauth_denied, missing_params or
    invalid_state, the redirect to the failure URL is all that happens: no
    call of GitHub was made and the store is left as it was. *)
Theorem callback_validates_before_calling env q w r :
  In r [oauth_denied; missing_params; invalid_state] ->
  verdict env (users w) q = Failed r ->
  effects env (GET_callback q) w = [Responded (Redirect (outcome_url (Failed r)))]
  /\ users (serve env (GET_callback q) w) = users w.
Proof.
  intros Hr Hv. rewrite callback_effects_eq, callback_users_eq.
  assert (Hn : forall key, checks env (users w) q <> Pass key).
  { intros key Hc. unfold verdict in Hv. rewrite Hc in Hv.
    destruct (link_of env (users w) q) as [[k record]|];
      [destruct (store_accepts env k record)|]; try discriminate;
      injection Hv as <-; cbn in Hr; intuition discriminate. }
  destruct (callback_not_passed _ _ _ Hn) as (Hs & Hsv & _).
  unfold callback_effects. rewrite Hs, Hsv, Hv. split; [|reflexivity].
  unfold outbound_calls. unfold verdict in Hv.
  destruct (early_checks q) as [userId|r'|] eqn:He; [|reflexivity..].
  exfalso. destruct (checks env (users w) q) as [key|r'|] eqn:Hc.
  - destruct (Hn key eq_refl).
  - injection Hv as <-. destruct (late_reason _ _ _ _ _ He Hc) as [-> | [-> | ->]];
      cbn in Hr; intuition discriminate.
  - injection Hv as <-. cbn in Hr; intuition discriminate.
Qed.

Lemma callback_validates_before_calling_witness :
  In invalid_state [oauth_denied; missing_params; invalid_state]
  /\ verdict env_ok (users one_user) Cases.query_empty_userId = Failed invalid_state
  /\ effects env_ok (GET_callback Cases.query_empty_userId) one_user
     = [Responded (Redirect (outcome_url (Failed invalid_state)))].
Proof.
  assert (Hr : In invalid_state [oauth_denied; missing_params; invalid_state])
    by (right; right; left; reflexivity).
  assert (Hv : verdict env_ok (users one_user) Cases.query_empty_userId = Failed invalid_state)
    by (vm_compute; reflexivity).
  split; [exact Hr|]. split; [exact Hv|].
  exact (proj1 (callback_validates_before_calling env_ok Cases.query_empty_userId one_user
                  invalid_state Hr Hv)).
Defined.

Lemma filter_outbound_callback env us q :
  filter is_outbound (callback_effects env us q) = outbound_calls env q.
Proof.
  unfold callback_effects. rewrite !filter_app.
  rewrite (proj1 (outbound_calls_only env q)), (proj1 (saved_only env us q)).
  cbn. rewrite app_nil_r. reflexivity.
Qed.

(** X7: the calls of GitHub a callback makes are none, or the token
    exchange alone, or the token exchange followed by one profile fetch; and
    the profile is fetched with the access_token of the exchange's answer,
    which is then a value JavaScript counts as true. *)
Theorem callback_calls_in_order env q w :
  let exchange := Outbound (TokenExchange (param (code q))) in
  let calls := filter is_outbound (effects env (GET_callback q) w) in
  calls = []
  \/ calls = [exchange]
  \/ exists data access_token,
       github env (TokenExchange (param (code q))) = Resolves data
       /\ get data (js "access_token") = Normal access_token
       /\ truthy access_token = true
       /\ calls = [exchange; Outbound (ProfileFetch access_token)].
Proof.
  intros exchange calls. unfold calls, exchange.
  rewrite callback_effects_eq, filter_outbound_callback. unfold outbound_calls.
  destruct (early_checks q); auto.
  destruct (check_token env q) as [tok|r|] eqn:Ht; auto.
  right. right. unfold check_token in Ht.
  destruct (github env (TokenExchange (param (code q)))) as [data|] eqn:Hg; [|discriminate].
  destruct (get data (js "access_token")) as [token| |] eqn:Ha; try discriminate.
  destruct (get data (js "error")) as [err| |]; try discriminate.
  destruct (truthy err || negb (truthy token)) eqn:Hb; [discriminate|].
  destruct (ToString_throws token); [discriminate|]. injection Ht as <-.
  exists data, token. split; [reflexivity|]. split; [exact Ha|]. split; [|reflexivity].
  apply orb_false_iff in Hb. destruct Hb as [_ Hb].
  destruct (truthy token); [reflexivity|discriminate].
Qed.

Lemma filter_save_callback env us q :
  filter is_save (callback_effects env us q) = saved env us q.
Proof.
  unfold callback_effects. rewrite !filter_app.
  rewrite (proj1 (proj2 (outbound_calls_only env q))),
    (proj1 (proj2 (saved_only env us q))).
  cbn. rewrite app_nil_r. reflexivity.
Qed.

(** X8: a callback changes at most one record.  For every key, the record
    under it after the callback is the one before, or else the callback
    answered with the success redirect, saved exactly that key, and the
    record now holds the exchanged token, the login, id and html_url of the
    fetched profile and the time of the call, the rest of the record as it
    was; every other key is then unchanged. *)
Theorem callback_changes_at_most_one_record env q w k :
  let w' := serve env (GET_callback q) w in
  users w' !! k = users w !! k
  \/ exists u access_token githubUser,
       users w !! k = Some u
       /\ responses (effects env (GET_callback q) w) = [Redirect FRONTEND_SUCCESS_URL]
       /\ filter is_save (effects env (GET_callback q) w) = [Saved k]
       /\ check_token env q = Pass access_token
       /\ github env (ProfileFetch access_token) = Resolves githubUser
       /\ users w' !! k =
          Some (linked_record access_token (property githubUser (js "login"))
                  (property githubUser (js "id")) (property githubUser (js "html_url"))
                  (clock env) u)
       /\ forall k', k' <> k -> users w' !! k' = users w !! k'.
Proof.
  intros w'. unfold w'.
  rewrite callback_effects_eq, callback_users_eq, filter_save_callback,
    callback_effects_responses.
  unfold callback_store, saved, verdict.
  destruct (link_of env (users w) q) as [[key record]|] eqn:Hl; auto.
  destruct (link_of_inv _ _ _ _ _ Hl) as (tok & gu & u & Hc & Ht & Hg & Hk & ->).
  rewrite Hc.
  destruct (store_accepts env key _); auto.
  destruct (decide (key = k)) as [->|Hne].
  - right. exists u, tok, gu. repeat split; try assumption; try reflexivity.
    + apply lookup_insert_eq.
    + intros k' Hk'. apply lookup_insert_ne. congruence.
  - left. apply lookup_insert_ne. exact Hne.
Qed.

Lemma encodeState_nonempty userId : encodeState userId <> [].
Proof.
  unfold encodeState, JSON.stringify. cbn [app].
  change (Utf8.encode (123 :: (JSON.stringify_members [(js "userId", userId)] ++ [125])))
    with (123 :: Utf8.encode (JSON.stringify_members [(js "userId", userId)] ++ [125])).
  destruct (Utf8.encode _) as [|b [|c t]]; discriminate.
Qed.

Lemma check_profile_pass env tok gu :
  check_profile env tok = Pass gu ->
  github env (ProfileFetch tok) = Resolves gu /\ truthy (property gu (js "login")) = true.
Proof.
  unfold check_profile.
  destruct (github env (ProfileFetch tok)) as [data|]; [|discriminate].
  destruct (get data (js "login")) as [login| |] eqn:Hl; try discriminate.
  destruct (truthy login) eqn:Ht; [|discriminate]. intros [= <-].
  rewrite (get_property _ _ _ Hl). auto.
Qed.

Lemma check_token_pass env q access_token :
  check_token env q = Pass access_token ->
  truthy access_token = true /\ ToString_throws access_token = false.
Proof.
  unfold check_token.
  destruct (github env (TokenExchange (param (code q)))) as [data|]; [|discriminate].
  destruct (get data (js "access_token")) as [tok| |]; try discriminate.
  destruct (get data (js "error")) as [err| |]; try discriminate.
  destruct (truthy err); cbn [orb]; [discriminate|].
  destruct (truthy tok) eqn:Ht; cbn [negb]; [|discriminate].
  destruct (ToString_throws tok) eqn:Hs; [discriminate|].
  intros [= <-]. auto.
Qed.

Lemma begun_store env w c key u access_token githubUser :
  valid_string key -> key <> [] -> c <> [] ->
  users w !! key = Some u ->
  check_token env {| code := Some c; state := Some (encodeState key); error := None |}
  = Pass access_token ->
  check_profile env access_token = Pass githubUser ->
  store_accepts env key
    (linked_record access_token (property githubUser (js "login"))
       (property githubUser (js "id")) (property githubUser (js "html_url"))
       (clock env) u) = true ->
  link_of env (users w) {| code := Some c; state := Some (encodeState key); error := None |}
  = Some (key,
          linked_record access_token (property githubUser (js "login"))
            (property githubUser (js "id")) (property githubUser (js "html_url"))
            (clock env) u)
  /\ checks env (users w) {| code := Some c; state := Some (encodeState key); error := None |}
  = Pass key
  /\ users (serve env (GET_callback
                         {| code := Some c; state := Some (encodeState key); error := None |}) w)
     = <[key := linked_record access_token (property githubUser (js "login"))
                  (property githubUser (js "id")) (property githubUser (js "html_url"))
                  (clock env) u]> (users w).
Proof.
  intros Hv Hn Hc Hk Ht Hp Hacc.
  set (q := {| code := Some c; state := Some (encodeState key); error := None |}) in *.
  assert (He : early_checks q = Pass (JStr key)).
  { assert (Hs : truthy (param (Some (encodeState key))) = true).
    { cbn [param]. destruct (encodeState key) eqn:Es;
        [destruct (encodeState_nonempty _ Es)|reflexivity]. }
    unfold early_checks, check_denied, check_params. cbn [error code state q].
    rewrite Hs. destruct c as [|x c]; [congruence|].
    cbn [param truthy andb and_then]. apply check_state_begun; assumption. }
  assert (Hck : checks env (users w) q = Pass key).
  { rewrite checks_early, He. cbn [and_then]. rewrite Ht. cbn [and_then]. rewrite Hp.
    cbn [and_then]. unfold check_user. rewrite Hk. reflexivity. }
  destruct (check_profile_pass _ _ _ Hp) as [Hg _].
  pose proof (link_of_passed _ _ _ _ _ _ _ Hck Ht Hg Hk) as Hl.
  split; [exact Hl|]. split; [exact Hck|].
  rewrite callback_users_eq. unfold callback_store. rewrite Hl, Hacc. reflexivity.
Qed.

(** X9: the user named in the state is the one linked.  For a callback with
    a non-empty code and the state built for the key of a stored user, when
    the token exchange and the profile fetch both pass and the store
    accepts the write, the answer is the success redirect and the store
    differs from the one before in that user's record alone, which holds
    the token and the profile's login, id and html_url. *)
Theorem begun_user_is_linked env w c key u access_token githubUser :
  let q := {| code := Some c; state := Some (encodeState key); error := None |} in
  let record :=
    linked_record access_token (property githubUser (js "login"))
      (property githubUser (js "id")) (property githubUser (js "html_url"))
      (clock env) u in
  valid_string key -> key <> [] -> c <> [] ->
  users w !! key = Some u ->
  check_token env q = Pass access_token ->
  check_profile env access_token = Pass githubUser ->
  store_accepts env key record = true ->
  responses (effects env (GET_callback q) w) = [Redirect FRONTEND_SUCCESS_URL]
  /\ users (serve env (GET_callback q) w) = <[key := record]> (users w).
Proof.
  intros q record Hv Hn Hc Hk Ht Hp Hacc.
  destruct (begun_store env w c key u access_token githubUser Hv Hn Hc Hk Ht Hp Hacc)
    as (Hl & Hck & Hs).
  split; [|exact Hs].
  rewrite callback_effects_eq, callback_effects_responses. unfold verdict, q.
  rewrite Hck, Hl. fold record. rewrite Hacc. reflexivity.
Qed.

Lemma begun_user_is_linked_witness :
  users (serve env_ok (GET_callback (query_for (js "u1"))) one_user)
  = <[js "u1" := linked_user]> (users one_user).
Proof.
  exact (proj2 (begun_user_is_linked env_ok one_user (js "abc") (js "u1") unlinked_user
                  (JStr (js "tok")) octo_profile
                  ltac:(repeat constructor; unfold code_unit; vm_compute; intros; discriminate)
                  ltac:(discriminate) ltac:(discriminate)
                  (lookup_singleton_eq _ _) eq_refl eq_refl eq_refl)).
Defined.

(** X10: an error in the answer of the token endpoint wins over an
    access_token in the same answer: the callback then redirects with
    token_exchange_failed after the one call, fetches no profile and leaves
    the store as it was. *)
Theorem token_error_wins env q w userId data tokenError :
  early_checks q = Pass userId ->
  github env (TokenExchange (param (code q))) = Resolves data ->
  get data (js "error") = Normal tokenError ->
  truthy tokenError = true ->
  effects env (GET_callback q) w
  = [Outbound (TokenExchange (param (code q)));
     Responded (Redirect (outcome_url (Failed token_exchange_failed)))]
  /\ users (serve env (GET_callback q) w) = users w.
Proof.
  intros He Hg Herr Ht.
  assert (Hn : nullish data = false) by (destruct data; try reflexivity; discriminate).
  destruct (get_total data (js "access_token") Hn) as [tok Htok].
  assert (Hct : check_token env q = Fail token_exchange_failed).
  { unfold check_token. rewrite Hg, Htok, Herr, Ht. reflexivity. }
  assert (Hck : checks env (users w) q = Fail token_exchange_failed).
  { rewrite checks_early, He. cbn [and_then]. rewrite Hct. reflexivity. }
  rewrite callback_effects_eq, callback_users_eq.
  assert (Hn' : forall key, checks env (users w) q <> Pass key)
    by (intros key; rewrite Hck; discriminate).
  destruct (callback_not_passed _ _ _ Hn') as (Hs & Hsv & Hv).
  unfold callback_effects, outbound_calls.
  rewrite Hs, Hsv, Hv, He, Hct, Hck. split; reflexivity.
Qed.

Lemma token_error_wins_witness :
  get (JObj [(js "access_token", JStr (js "tok"));
             (js "error", JStr (js "bad_verification_code"))]) (js "access_token")
  = Normal (JStr (js "tok"))
  /\ effects Cases.env_token_and_error (GET_callback (query_for (js "u1"))) one_user
     = [Outbound (TokenExchange (JStr (js "abc")));
        Responded (Redirect (outcome_url (Failed token_exchange_failed)))].
Proof.
  split; [reflexivity|].
  exact (proj1 (token_error_wins Cases.env_token_and_error (query_for (js "u1")) one_user
                  (JStr (js "u1")) _ (JStr (js "bad_verification_code"))
                  ltac:(vm_compute; reflexivity) eq_refl eq_refl eq_refl)).
Defined.

(** X11: a state that decodes to an object whose userId is a value
    JavaScript counts as false (absent, null, the empty string, zero) is an
    invalid state: the callback redirects with invalid_state, calls nothing
    and leaves the store as it was. *)
Theorem falsy_userId_is_invalid_state env w c s decoded userId :
  c <> [] -> s <> [] ->
  decodeState (JStr s) = Normal decoded ->
  get decoded (js "userId") = Normal userId ->
  truthy userId = false ->
  effects env (GET_callback {| code := Some c; state := Some s; error := None |}) w
  = [Responded (Redirect (outcome_url (Failed invalid_state)))]
  /\ users (serve env (GET_callback {| code := Some c; state := Some s; error := None |}) w)
     = users w.
Proof.
  intros Hc Hs Hd Hu Ht.
  set (q := {| code := Some c; state := Some s; error := None |}).
  assert (He : early_checks q = Fail invalid_state).
  { unfold early_checks, check_denied, check_params, check_state.
    cbn [error code state param truthy q].
    destruct c; [congruence|]. destruct s; [congruence|]. cbn [andb and_then].
    rewrite Hd, Hu, Ht. reflexivity. }
  assert (Hck : checks env (users w) q = Fail invalid_state).
  { rewrite checks_early, He. reflexivity. }
  rewrite callback_effects_eq, callback_users_eq.
  assert (Hn' : forall key, checks env (users w) q <> Pass key)
    by (intros key; rewrite Hck; discriminate).
  destruct (callback_not_passed _ _ _ Hn') as (Hst & Hsv & Hv).
  unfold callback_effects, outbound_calls.
  rewrite Hst, Hsv, Hv, He, Hck. split; reflexivity.
Qed.

Lemma falsy_userId_is_invalid_state_witness :
  decodeState (JStr (encodeState [])) = Normal (JObj [(js "userId", JStr [])])
  /\ effects env_ok (GET_callback Cases.query_empty_userId) one_user
     = [Responded (Redirect (outcome_url (Failed invalid_state)))].
Proof.
  split; [vm_compute; reflexivity|].
  exact (proj1 (falsy_userId_is_invalid_state env_ok one_user (js "abc") (encodeState [])
                  (JObj [(js "userId", JStr [])]) (JStr [])
                  ltac:(discriminate) ltac:(vm_compute; discriminate)
                  ltac:(vm_compute; reflexivity) eq_refl eq_refl)).
Defined.

(** ** GET /api/github/repositories, the failures *)

Lemma map_items_summary_nullish items :
  Exists (fun r => nullish r = true) items -> map_items summary items = Thrown TypeError.
Proof.
  induction 1 as [r items Hr|r items _ IH].
  - destruct r; try discriminate; reflexivity.
  - cbn [map_items]. destruct (nullish r) eqn:Hr.
    + destruct r; try discriminate; reflexivity.
    + rewrite (summary_spec r Hr), IH. reflexivity.
Qed.

Lemma map_items_summary_Normal items ys :
  map_items summary items = Normal ys ->
  Forall (fun r => nullish r = false) items /\ ys = map RepositorySummary items.
Proof.
  revert ys. induction items as [|r items IH]; intros ys.
  - intros [= <-]. split; constructor.
  - cbn [map_items]. destruct (nullish r) eqn:Hr.
    + destruct r; try discriminate.
    + rewrite (summary_spec r Hr). cbn.
      destruct (map_items summary items) as [zs| |]; cbn; try discriminate.
      intros [= <-]. destruct (IH zs eq_refl) as [IH1 ->].
      split; [constructor; assumption|reflexivity].
Qed.

(** X12: when GitHub rejects the repository listing with status 401, the
    route answers 401 with the reconnect message after its one call, and the
    store, the rejected token included, is left as it was. *)
Theorem listRepositories_rejected_token env caller w u :
  users w !! caller = Some u ->
  truthy (githubAccessToken u) = true ->
  ToString_throws (githubAccessToken u) = false ->
  github env (RepositoryList (githubAccessToken u)) = Rejects (Some 401) ->
  effects env (GET_repositories caller) w =
    [Outbound (RepositoryList (githubAccessToken u)); Responded token_rejected]
  /\ users (serve env (GET_repositories caller) w) = users w.
Proof.
  intros Hu Ht Hs Hg. rewrite repositories_effects_eq, repositories_table.
  unfold repositories_effects. rewrite Hu. cbn zeta. rewrite Ht, Hs, Hg.
  split; reflexivity.
Qed.

Lemma listRepositories_rejected_token_witness :
  responses (effects Cases.env_token_revoked (GET_repositories (js "u1")) one_linked_user)
  = [Json 401 (message (js "GitHub access token is invalid. Please reconnect your account."))].
Proof.
  rewrite (proj1 (listRepositories_rejected_token Cases.env_token_revoked (js "u1")
                    one_linked_user linked_user (lookup_singleton_eq _ _)
                    eq_refl eq_refl eq_refl)).
  reflexivity.
Defined.

(** X13: every other failure of the listing is a 500 with the
    fetch-failed message: a rejection without a response or with a status
    other than 401, an answer that is not an array, or an array with a null
    or undefined entry; the store is left as it was. *)
Theorem listRepositories_other_failures env caller w u :
  users w !! caller = Some u ->
  truthy (githubAccessToken u) = true ->
  ToString_throws (githubAccessToken u) = false ->
  let reply := github env (RepositoryList (githubAccessToken u)) in
  (reply = Rejects None
   \/ (exists status, reply = Rejects (Some status) /\ status <> 401)
   \/ (exists data, reply = Resolves data /\ forall items, data <> JArr items)
   \/ (exists items, reply = Resolves (JArr items)
                     /\ Exists (fun r => nullish r = true) items)) ->
  effects env (GET_repositories caller) w =
    [Outbound (RepositoryList (githubAccessToken u)); Responded fetch_failed]
  /\ users (serve env (GET_repositories caller) w) = users w.
Proof.
  intros Hu Ht Hs reply Hr. rewrite repositories_effects_eq, repositories_table.
  unfold repositories_effects. rewrite Hu. cbn zeta. rewrite Ht, Hs. cbn [negb].
  split; [|reflexivity]. do 2 f_equal. fold reply.
  destruct Hr as [-> | [(status & -> & Hne) | [(data & -> & Hd) | (items & -> & Hi)]]].
  - reflexivity.
  - unfold listing_answer. destruct (Z.eqb_spec status 401); [contradiction|reflexivity].
  - unfold listing_answer. destruct data; try reflexivity. destruct (Hd _ eq_refl).
  - unfold listing_answer, array_map. rewrite (map_items_summary_nullish _ Hi). reflexivity.
Qed.

Lemma listRepositories_other_failures_witness :
  responses (effects Cases.env_rate_limited (GET_repositories (js "u1")) one_linked_user)
  = [Json 500 (message (js "Failed to fetch repositories"))].
Proof.
  pose proof (listRepositories_other_failures Cases.env_rate_limited (js "u1")
                one_linked_user linked_user (lookup_singleton_eq _ _) eq_refl eq_refl) as H.
  cbv zeta in H. destruct H as [H _].
  - right; left. exists 403. split; [reflexivity|discriminate].
  - rewrite H. reflexivity.
Defined.

(** X14: the repository listing answers 200 only for a caller whose record
    holds a token that counts as true, when GitHub answered with an array
    none of whose entries is null or undefined; the body is then the
    summaries of the entries, in order. *)
Theorem listRepositories_success_needs_array env caller w body :
  In (Responded (Json 200 body)) (effects env (GET_repositories caller) w) ->
  exists u raw,
    users w !! caller = Some u
    /\ truthy (githubAccessToken u) = true
    /\ github env (RepositoryList (githubAccessToken u)) = Resolves (JArr raw)
    /\ Forall (fun r => nullish r = false) raw
    /\ body = JObj [(js "success", JBool true);
                    (js "repositories", JArr (map RepositorySummary raw))].
Proof.
  rewrite repositories_effects_eq. unfold repositories_effects.
  destruct (users w !! caller) as [u|] eqn:Hu.
  2:{ intros [H|[]]. discriminate. }
  cbn zeta. destruct (truthy (githubAccessToken u)) eqn:Ht; cbn [negb].
  2:{ intros [H|[]]. discriminate. }
  destruct (ToString_throws (githubAccessToken u)).
  { intros [H|[]]. discriminate. }
  intros [H|[H|[]]]; [discriminate|].
  unfold listing_answer in H.
  destruct (github env (RepositoryList (githubAccessToken u))) as [data|[status|]] eqn:Hg.
  - destruct data; try discriminate. cbn [array_map] in H.
    destruct (map_items summary items) as [ys| |] eqn:Hm; cbn in H; try discriminate.
    destruct (map_items_summary_Normal _ _ Hm) as [Hf ->].
    exists u, items. repeat split; try assumption; try reflexivity. congruence.
  - destruct (status =? 401); discriminate.
  - discriminate.
Qed.

Lemma listRepositories_success_needs_array_witness :
  exists u raw,
    users one_linked_user !! js "u1" = Some u
    /\ truthy (githubAccessToken u) = true
    /\ github env_ok (RepositoryList (githubAccessToken u)) = Resolves (JArr raw)
    /\ Forall (fun r => nullish r = false) raw
    /\ JObj [(js "success", JBool true);
             (js "repositories",
              JArr (map RepositorySummary
                      [JObj [(js "id", number 7); (js "name", JStr (js "hub"));
                             (js "full_name", JStr (js "octo/hub")); (js "private", JBool false);
                             (js "node_id", JStr (js "R_1"))];
                       JObj [(js "id", number 9); (js "full_name", JStr (js "octo/echo"));
                             (js "stargazers_count", number 3)]]))]
       = JObj [(js "success", JBool true);
               (js "repositories", JArr (map RepositorySummary raw))].
Proof.
  apply (listRepositories_success_needs_array env_ok (js "u1") one_linked_user).
  vm_compute. right. left. reflexivity.
Defined.

(** X15: when the store has no record for the caller, the status route
    answers 500 with its failure message and the repository listing answers
    500 with its own, without a call of GitHub; neither changes the
    store. *)
Theorem missing_record_is_server_error env caller w :
  users w !! caller = None ->
  effects env (GET_status caller) w = [Responded status_failed]
  /\ effects env (GET_repositories caller) w = [Responded fetch_failed]
  /\ users (serve env (GET_status caller) w) = users w
  /\ users (serve env (GET_repositories caller) w) = users w.
Proof.
  intros Hu. rewrite status_effects_eq, repositories_effects_eq, status_table,
    repositories_table.
  unfold status_answer, repositories_effects. rewrite Hu. repeat split.
Qed.

Lemma missing_record_is_server_error_witness :
  effects env_ok (GET_status (js "u1")) nobody
  = [Responded (Json 500 (message (js "Failed to check GitHub status")))].
Proof.
  exact (proj1 (missing_record_is_server_error env_ok (js "u1") nobody (lookup_empty _))).
Defined.

(** ** One route after another *)

(** X16: after a disconnect the store accepted, the caller is not linked
    for the other routes: the status route reports connected false with
    null githubUsername and connectedAt, and the repository listing answers
    with the not-connected client error without calling GitHub. *)
Theorem disconnect_revokes_access env caller w u :
  users w !! caller = Some u ->
  store_accepts env caller (cleared u) = true ->
  let w1 := serve env (POST_disconnect caller) w in
  effects env (GET_status caller) w1 =
    [Responded (Json 200 (JObj [(js "success", JBool true);
                                (js "connected", JBool false);
                                (js "githubUsername", JNull);
                                (js "connectedAt", JNull)]))]
  /\ effects env (GET_repositories caller) w1 = [Responded not_connected].
Proof.
  intros Hu Hacc w1.
  assert (H1 : users w1 !! caller = Some (cleared u)).
  { unfold w1. rewrite disconnect_users, Hu, Hacc. apply lookup_insert_eq. }
  split.
  - rewrite (getStatus_effects _ _ _ _ H1). reflexivity.
  - apply (listRepositories_falsy_token _ _ _ _ H1). reflexivity.
Qed.

Lemma disconnect_revokes_access_witness :
  effects env_ok (GET_repositories (js "u1"))
    (serve env_ok (POST_disconnect (js "u1")) one_linked_user)
  = [Responded not_connected].
Proof.
  exact (proj2 (disconnect_revokes_access env_ok (js "u1") one_linked_user linked_user
                  (lookup_singleton_eq _ _) eq_refl)).
Defined.

(** X17: what a successful callback stored is what the later requests of
    that user see: when the exchange and the profile fetch pass and the
    store accepts the write, the status route reports connected true with
    the login of the fetched profile and the time of the link, and the
    repository listing calls GitHub once, with the token of the exchange. *)
Theorem link_is_what_later_requests_see env w c key u access_token githubUser :
  let q := {| code := Some c; state := Some (encodeState key); error := None |} in
  let record :=
    linked_record access_token (property githubUser (js "login"))
      (property githubUser (js "id")) (property githubUser (js "html_url"))
      (clock env) u in
  valid_string key -> key <> [] -> c <> [] ->
  users w !! key = Some u ->
  check_token env q = Pass access_token ->
  check_profile env access_token = Pass githubUser ->
  store_accepts env key record = true ->
  let w1 := serve env (GET_callback q) w in
  effects env (GET_status key) w1 =
    [Responded (Json 200 (JObj [(js "success", JBool true);
                                (js "connected", JBool true);
                                (js "githubUsername", property githubUser (js "login"));
                                (js "connectedAt", JDate (clock env))]))]
  /\ filter is_outbound (effects env (GET_repositories key) w1)
     = [Outbound (RepositoryList access_token)].
Proof.
  intros q record Hv Hn Hc Hk Ht Hp Hacc w1.
  destruct (begun_store env w c key u access_token githubUser Hv Hn Hc Hk Ht Hp Hacc)
    as (_ & _ & Hs).
  destruct (check_profile_pass _ _ _ Hp) as [_ Hl].
  destruct (check_token_pass _ _ _ Ht) as [Ha Hb].
  assert (H1 : users w1 !! key =
               Some (linked_record access_token (property githubUser (js "login"))
                       (property githubUser (js "id")) (property githubUser (js "html_url"))
                       (clock env) u)).
  { unfold w1, q. rewrite Hs. apply lookup_insert_eq. }
  split.
  - rewrite (getStatus_effects _ _ _ _ H1). unfold status_body, or_else.
    cbn [githubUsername githubConnectedAt linked_record]. rewrite Hl. reflexivity.
  - rewrite repositories_effects_eq. unfold repositories_effects. rewrite H1.
    cbn [githubAccessToken linked_record]. rewrite Ha, Hb. reflexivity.
Qed.

Lemma link_is_what_later_requests_see_witness :
  filter is_outbound
    (effects env_ok (GET_repositories (js "u1"))
       (serve env_ok (GET_callback (query_for (js "u1"))) one_user))
  = [Outbound (RepositoryList (JStr (js "tok")))].
Proof.
  exact (proj2 (link_is_what_later_requests_see env_ok one_user (js "abc") (js "u1")
                  unlinked_user (JStr (js "tok")) octo_profile
                  ltac:(repeat constructor; unfold code_unit; vm_compute; intros; discriminate)
                  ltac:(discriminate) ltac:(discriminate)
                  (lookup_singleton_eq _ _) eq_refl eq_refl eq_refl)).
Defined.

(** ** The state in the URL *)

Lemma char_of_safe n : 0 <= n < 62 -> query_safe (Base64.char_of n) = true.
Proof.
  intros Hn. unfold Base64.char_of, query_safe, alphanumeric, Utf8.between.
  destruct (Z.ltb_spec n 26); [|destruct (Z.ltb_spec n 52); [|destruct (Z.ltb_spec n 62)]];
    rewrite !orb_true_iff, !andb_true_iff, !Z.leb_le, Z.eqb_eq; lia.
Qed.

Lemma plain_spec b :
  plain b = true -> 0 <= b < 128 /\ b mod 64 < 62.
Proof.
  unfold plain. rewrite !andb_true_iff, !negb_true_iff, Z.leb_le, Z.ltb_lt, !Z.eqb_neq.
  intros [[[H1 H2] H3] H4]. split; [lia|].
  pose proof (Z.mod_pos_bound b 64 ltac:(lia)). lia.
Qed.

Lemma encode_plain bs :
  forallb plain bs = true -> forallb query_safe (Base64.encode bs) = true.
Proof.
  induction bs as [|a|a b|a b c t IH] using list_ind3; intros H.
  - reflexivity.
  - cbn [forallb] in H. rewrite andb_true_r in H. apply plain_spec in H.
    cbn [Base64.encode forallb]. rewrite !char_of_safe by zdiv. reflexivity.
  - cbn [forallb] in H. rewrite andb_true_r in H. apply andb_true_iff in H.
    destruct H as [Ha Hb]. apply plain_spec in Ha, Hb.
    cbn [Base64.encode forallb]. rewrite !char_of_safe by zdiv. reflexivity.
  - cbn [forallb] in H. rewrite !andb_true_iff in H.
    destruct H as (Ha & Hb & Hc & Ht). apply plain_spec in Ha, Hb, Hc.
    cbn [Base64.encode app forallb]. rewrite !char_of_safe by zdiv.
    rewrite (IH Ht). reflexivity.
Qed.

Lemma alphanumeric_range c :
  alphanumeric c = true -> 48 <= c <= 57 \/ 65 <= c <= 90 \/ 97 <= c <= 122.
Proof.
  unfold alphanumeric, Utf8.between.
  rewrite !orb_true_iff, !andb_true_iff, !Z.leb_le. lia.
Qed.

Lemma alphanumeric_plain c : alphanumeric c = true -> plain c = true.
Proof.
  unfold alphanumeric, Utf8.between, plain.
  rewrite !orb_true_iff, !andb_true_iff, !negb_true_iff, !Z.leb_le, Z.ltb_lt, !Z.eqb_neq.
  intros H. repeat split; zdiv.
Qed.

Lemma not_surrogate c :
  0 <= c < 128 -> Utf16.is_high c = false /\ Utf16.is_low c = false.
Proof.
  intros H. unfold Utf16.is_high, Utf16.is_low.
  destruct (Z.leb_spec 0xD800 c); [lia|].
  destruct (Z.leb_spec 0xDC00 c); [lia|]. split; reflexivity.
Qed.

Lemma encode_ascii s : Forall (fun c => 0 <= c < 128) s -> Utf8.encode s = s.
Proof.
  induction 1 as [|c t Hc _ IH]; [reflexivity|].
  destruct (not_surrogate c Hc) as [Hh Hl].
  rewrite encode_unit by exact Hh. rewrite Hl, IH.
  unfold Utf8.bytes_of_code_point. destruct (Z.ltb_spec c 0x80); [reflexivity|lia].
Qed.

Lemma quote_body_alphanumeric s :
  forallb alphanumeric s = true -> JSON.quote_body s = s.
Proof.
  induction s as [|c t IH]; [reflexivity|]. cbn [forallb].
  rewrite andb_true_iff. intros [Hc Ht]. apply alphanumeric_range in Hc.
  destruct (not_surrogate c ltac:(lia)) as [Hh Hl].
  rewrite quote_body_unit by exact Hh. rewrite Hl, (IH Ht).
  unfold JSON.quote_unit.
  repeat match goal with
         | |- context [?x =? ?y] => destruct (Z.eqb_spec x y); [lia|]
         end.
  destruct (Z.ltb_spec c 32); [lia|]. reflexivity.
Qed.

(** X18: the state is put into the authorize URL as it is, without
    escaping; for a user id of letters and digits (an ObjectId in
    hexadecimal is one) it consists of letters, digits and the padding sign
    only, so none of its characters (no plus sign, no slash) changes in a
    query string. *)
Theorem state_is_query_safe userId :
  forallb alphanumeric userId = true ->
  forallb query_safe (encodeState userId) = true.
Proof.
  intros H. unfold encodeState. rewrite stringify_state, (quote_body_alphanumeric _ H).
  assert (Hp : forallb plain (JSON.state_prefix ++ userId ++ [34; 125]) = true).
  { rewrite !forallb_app. apply andb_true_iff. split; [reflexivity|].
    apply andb_true_iff. split; [|reflexivity].
    apply forallb_forall. intros c Hc. apply alphanumeric_plain.
    exact (proj1 (forallb_forall _ _) H c Hc). }
  rewrite encode_ascii.
  - apply encode_plain, Hp.
  - apply Stdlib.Lists.List.Forall_forall. intros c Hc.
    exact (proj1 (plain_spec c (proj1 (forallb_forall _ _) Hp c Hc))).
Qed.

Lemma state_is_query_safe_witness :
  forallb query_safe (encodeState (js "64f1c0ffee64f1c0ffee0001")) = true.
Proof. exact (state_is_query_safe (js "64f1c0ffee64f1c0ffee0001") eq_refl). Defined.

(** ** What a request may change *)

(** X19: no request creates or deletes a record, and every change is saved
    by the request itself: for every request and key, the record under the
    key is the same before and after, or it existed before, exists after
    with the account fields outside the linkage unchanged, the request is a
    callback or a disconnect, and its effects hold the save of that
    key. *)
Theorem every_write_is_saved env r w k :
  sane env ->
  users (serve env r w) !! k = users w !! k
  \/ exists u u',
       users w !! k = Some u
       /\ users (serve env r w) !! k = Some u'
       /\ account u' = account u
       /\ In (Saved k) (effects env r w)
       /\ writes r = true.
Proof.
  intros Hsane. destruct r as [token|q|caller|caller|caller].
  - left. rewrite auth_table by exact Hsane. reflexivity.
  - rewrite callback_effects_eq, callback_users_eq.
    unfold callback_store, callback_effects, saved.
    destruct (link_of env (users w) q) as [[key record]|] eqn:Hl; auto.
    destruct (link_of_inv _ _ _ _ _ Hl) as (tok & gu & u & _ & _ & _ & Hk & ->).
    destruct (store_accepts env key _); auto.
    destruct (decide (key = k)) as [->|Hne].
    + right. eexists u, _. split; [exact Hk|]. split; [apply lookup_insert_eq|].
      split; [reflexivity|]. split; [|reflexivity].
      apply in_or_app. right. left. reflexivity.
    + left. apply lookup_insert_ne. exact Hne.
  - left. rewrite status_table. reflexivity.
  - rewrite disconnect_users, disconnect_effects.
    destruct (users w !! caller) as [u|] eqn:Hk; auto.
    destruct (store_accepts env caller (cleared u)); auto.
    destruct (decide (caller = k)) as [->|Hne].
    + right. eexists u, _. split; [exact Hk|]. split; [apply lookup_insert_eq|].
      split; [reflexivity|]. split; [left; reflexivity|reflexivity].
    + left. apply lookup_insert_ne. exact Hne.
  - left. rewrite repositories_table. reflexivity.
Qed.

Lemma every_write_is_saved_witness :
  users (serve Cases.env_session (POST_disconnect (js "u1")) Cases.two_users) !! js "u2"
  = Some unlinked_user
  /\ (users (serve Cases.env_session (POST_disconnect (js "u1")) Cases.two_users) !! js "u1"
      = users Cases.two_users !! js "u1"
      \/ exists u u',
           users Cases.two_users !! js "u1" = Some u
           /\ users (serve Cases.env_session (POST_disconnect (js "u1")) Cases.two_users)
                !! js "u1" = Some u'
           /\ account u' = account u
           /\ In (Saved (js "u1"))
                (effects Cases.env_session (POST_disconnect (js "u1")) Cases.two_users)
           /\ writes (POST_disconnect (js "u1")) = true).
Proof.
  split; [vm_compute; reflexivity|].
  exact (every_write_is_saved Cases.env_session (POST_disconnect (js "u1")) Cases.two_users
           (js "u1") (sane_session _ _)).
Defined.

(** ** A store that rejects a write *)

(** X20: a save the store rejects changes nothing and is answered as a
    failure: the disconnect answers 500 with its failure message, the
    callback, all of whose checks have passed, redirects with server_error
    after its two calls of GitHub; in both cases the store is left as it
    was and no save is recorded. *)
Theorem rejected_save_changes_nothing env w :
  (forall caller u,
     users w !! caller = Some u ->
     store_accepts env caller (cleared u) = false ->
     effects env (POST_disconnect caller) w = [Responded disconnect_failed]
     /\ users (serve env (POST_disconnect caller) w) = users w)
  /\ (forall q key record,
        link_of env (users w) q = Some (key, record) ->
        store_accepts env key record = false ->
        effects env (GET_callback q) w
        = outbound_calls env q ++ [Responded (Redirect (outcome_url (Failed server_error)))]
        /\ length (outbound_calls env q) = 2%nat
        /\ users (serve env (GET_callback q) w) = users w).
Proof.
  split.
  - intros caller u Hu Ha. rewrite disconnect_effects, disconnect_users, Hu, Ha.
    split; reflexivity.
  - intros q key record Hl Ha.
    destruct (link_of_inv _ _ _ _ _ Hl) as (tok & gu & u & Hc & Ht & _).
    rewrite callback_effects_eq, callback_users_eq.
    unfold callback_effects, callback_store, saved, verdict. rewrite Hl, Ha, Hc.
    split; [reflexivity|]. split; [|reflexivity].
    unfold outbound_calls. rewrite Ht.
    destruct (early_checks q) as [userId|r|] eqn:He; [reflexivity|..];
      rewrite checks_early, He in Hc; discriminate.
Qed.

Lemma rejected_save_changes_nothing_witness :
  effects env_store_down (GET_callback (query_for (js "u1"))) one_user
  = [Outbound (TokenExchange (JStr (js "abc")));
     Outbound (ProfileFetch (JStr (js "tok")));
     Responded (Redirect (outcome_url (Failed server_error)))]
  /\ users (serve env_store_down (GET_callback (query_for (js "u1"))) one_user)
     = users one_user.
Proof.
  destruct (proj2 (rejected_save_changes_nothing env_store_down one_user)
              (query_for (js "u1")) (js "u1") linked_user
              ltac:(vm_compute; reflexivity) eq_refl) as (E & _ & U).
  split; [rewrite E; vm_compute; reflexivity|exact U].
Defined.
